(** * Feature clipping calibration: a shallow embedding of
      [calibration/feature_clipping.py]

    The file embeds the three calibrator classes of the module
    ([ModelWithFeatureClipping], [FeatureClippingCalibrator] and
    [FeatureClippingCalibrator2]) and proves properties of the clipping
    transform and of the threshold grid search.

    Modelling choices.
    - A Python/torch floating point number is a value of [float]: NaN, the two
      infinities, or a finite value carried as an exact rational.  Every finite
      IEEE number is a rational, so the order and the NaN behaviour of the
      comparisons are the code's.  A Python scalar is carried as the rational
      it stands for (the quotient [q/100] is the rational q/100); the
      conversion of a scalar to the floating point type of a tensor, which
      [torch.clamp] performs on its bounds, is modelled, with its rounding
      and its overflow error.  The two zeros are identified.
    - A tensor is a list of rows, a label vector a list of class indices.
    - The classifier head, the two loss criteria ([nn.CrossEntropyLoss],
      [metrics.ECELoss], each followed by [.item()]) and the accuracy
      expression are collaborators that live outside the module: they are
      Section variables, and each may raise.
    - Methods run in a state-and-exception monad over the fields of [self];
      a raise keeps the fields as they were when it happened.
    - [self.cuda()] and [self.model.eval()] move nothing the model sees and
      are left out. *)

From Stdlib Require Import ZArith QArith Qabs Qpower List String Bool.
From Stdlib Require Import Lia Lqa.
Import ListNotations.
Close Scope Q_scope.

Set Implicit Arguments.

(** ** Floating point values *)

Inductive float : Type :=
| NaN
| NegInf
| Fin (v : Q)
| PosInf.

(** [float("inf")] *)
Definition inf : float := PosInf.

(** unary minus *)
Definition fneg (x : float) : float :=
  match x with
  | NaN => NaN
  | NegInf => PosInf
  | Fin v => Fin (- v)%Q
  | PosInf => NegInf
  end.

(** [a < b]; false as soon as one side is NaN *)
Definition flt (a b : float) : bool :=
  match a, b with
  | NaN, _ => false
  | _, NaN => false
  | NegInf, NegInf => false
  | NegInf, _ => true
  | Fin _, NegInf => false
  | Fin x, Fin y => match (x ?= y)%Q with Lt => true | _ => false end
  | Fin _, PosInf => true
  | PosInf, _ => false
  end.

(** [a > b] *)
Definition fgt (a b : float) : bool := flt b a.

(** [a == b]; false as soon as one side is NaN *)
Definition feq (a b : float) : bool :=
  match a, b with
  | NegInf, NegInf => true
  | Fin x, Fin y => match (x ?= y)%Q with Eq => true | _ => false end
  | PosInf, PosInf => true
  | _, _ => false
  end.

(** [a <= b] *)
Definition fle (a b : float) : bool := flt a b || feq a b.

Definition is_nan (x : float) : bool :=
  match x with NaN => true | _ => false end.

Definition is_finite (x : float) : bool :=
  match x with Fin _ => true | _ => false end.

(** [q / 100] for a Python int [q] of a [range] *)
Definition div100 (q : nat) : float := Fin (Z.of_nat q # 100)%Q.

(** ** Tensors and [torch.clamp] *)

Definition tensor : Type := list (list float).
Definition labels : Type := list nat.

(** One element of the clamp between two bounds of the type of the tensor:
    a NaN element stays NaN and a NaN bound makes the result NaN; otherwise
    [min(max(x, lo), hi)], where [max(a, b)] is [b] when [a < b] and
    [min(a, b)] is [b] when [b < a]. *)
Definition clamp_elt (lo hi x : float) : float :=
  match x with
  | NaN => NaN
  | _ =>
      if is_nan lo || is_nan hi then NaN
      else
        let y := if flt x lo then lo else x in
        if flt hi y then hi else y
  end.

(** the elementwise clamp of a tensor between two bounds of its type *)
Definition clamp (t : tensor) (lo hi : float) : tensor :=
  map (map (clamp_elt lo hi)) t.

(** ** Exceptions and the method monad *)

Definition exn : Type := string.

Inductive result (A : Type) : Type :=
| Ok (a : A)
| Raise (e : exn).
Arguments Ok {A} a.
Arguments Raise {A} e.

(** A method body: from the fields of [self] to an outcome and the fields
    afterwards. *)
Definition M (St A : Type) : Type := St -> result A * St.

Definition ret {St A : Type} (a : A) : M St A := fun s => (Ok a, s).

Definition bind {St A B : Type} (m : M St A) (k : A -> M St B) : M St B :=
  fun s =>
    match m s with
    | (Ok a, s') => k a s'
    | (Raise e, s') => (Raise e, s')
    end.

(** the outcome of a call to a collaborator *)
Definition call {St A : Type} (r : result A) : M St A := fun s => (r, s).

Definition get {St : Type} : M St St := fun s => (Ok s, s).
Definition put {St : Type} (s : St) : M St unit := fun _ => (Ok tt, s).

Declare Scope method_scope.
Delimit Scope method_scope with method.
Notation "x <- m ;; k" := (bind m (fun x => k))
  (at level 61, m at next level, right associativity) : method_scope.
Notation "m ;;; k" := (bind m (fun _ => k))
  (at level 61, right associativity) : method_scope.

(** [for q in range(n): locals = body(q, locals)] *)
Fixpoint for_range_from {St L : Type} (start n : nat)
         (body : nat -> L -> M St L) (l : L) : M St L :=
  match n with
  | O => ret l
  | S n' =>
      bind (body start l) (for_range_from (S start) n' body)
  end.

Definition for_range {St L : Type} (n : nat) (body : nat -> L -> M St L)
  : L -> M St L :=
  for_range_from 0 n body.

(** ** The floating point type of a tensor

    [torch.clamp] converts its scalar bounds to the type of the tensor: a
    finite bound is rounded to the nearest value of the type, a finite bound
    beyond the largest value of the type is refused, the infinities and NaN
    pass. *)

(** Rounding to the nearest integer, ties to the even one. *)
Definition round_half_even (q : Q) : Z :=
  let n := Qnum q in
  let d := Zpos (Qden q) in
  let f := (n / d)%Z in
  match (2 * (n mod d) ?= d)%Z with
  | Lt => f
  | Gt => (f + 1)%Z
  | Eq => if Z.even f then f else (f + 1)%Z
  end.

(** [2 ^ e] for an integer [e] *)
Definition pow2 (e : Z) : Q := (2 ^ e)%Q.

(** the integer [e] with [2^e <= |q| < 2^(e+1)], for [q] other than 0 *)
Definition binade (q : Q) : Z :=
  let n := Z.abs (Qnum q) in
  let d := Zpos (Qden q) in
  let e := (Z.log2 n - Z.log2 d)%Z in
  if Qle_bool (pow2 e) (Qabs q) then e else (e - 1)%Z.

(** The value of a binary format with [prec] digits and least exponent
    [emin] that is nearest to [q], ties to even: [q] is rounded on the grid
    of the multiples of [2^e], [e] being the exponent of its last digit. *)
Definition binary_value (prec emin : Z) (q : Q) : Q :=
  if Qeq_bool q 0 then 0%Q
  else
    let e := Z.max (binade q - (prec - 1)) emin in
    (inject_Z (round_half_even (q / pow2 e)) * pow2 e)%Q.

(** that value in lowest terms: one value has one representation *)
Definition binary_nearest (prec emin : Z) (q : Q) : Q :=
  Qred (binary_value prec emin q).

(** the floating point types of torch *)
Inductive dtype : Type :=
| float16
| bfloat16
| float32
| float64.

(** The rounding of a Python scalar to the type.  A Python scalar is a
    double already: its conversion to [float64] changes nothing. *)
Definition nearest (dt : dtype) (q : Q) : Q :=
  match dt with
  | float16 => binary_nearest 11 (-24) q
  | bfloat16 => binary_nearest 8 (-133) q
  | float32 => binary_nearest 24 (-149) q
  | float64 => q
  end.

(** the largest finite value of the type *)
Definition largest (dt : dtype) : Q :=
  match dt with
  | float16 => inject_Z ((2 ^ 11 - 1) * 2 ^ 5)
  | bfloat16 => inject_Z ((2 ^ 8 - 1) * 2 ^ 120)
  | float32 => inject_Z ((2 ^ 24 - 1) * 2 ^ 104)
  | float64 => inject_Z ((2 ^ 53 - 1) * 2 ^ 971)
  end.

(** the conversion of the Python scalar [c] to the type [dt] *)
Definition cast (dt : dtype) (c : float) : result float :=
  match c with
  | Fin q =>
      if Qle_bool (Qabs q) (largest dt) then Ok (Fin (nearest dt q))
      else Raise "value cannot be converted without overflow"%string
  | _ => Ok c
  end.

(** [torch.clamp(t, min=lo, max=hi)] on a tensor of type [dt], with scalar
    bounds: out of place, elementwise, between the converted bounds *)
Definition torch_clamp (dt : dtype) (t : tensor) (lo hi : float)
  : result tensor :=
  match cast dt lo with
  | Raise e => Raise e
  | Ok lo' =>
      match cast dt hi with
      | Raise e => Raise e
      | Ok hi' => Ok (clamp t lo' hi')
      end
  end.

(** [a + b] *)
Definition fadd (a b : float) : float :=
  match a, b with
  | NaN, _ => NaN
  | _, NaN => NaN
  | PosInf, NegInf => NaN
  | NegInf, PosInf => NaN
  | PosInf, _ => PosInf
  | _, PosInf => PosInf
  | NegInf, _ => NegInf
  | _, NegInf => NegInf
  | Fin x, Fin y => Fin (x + y)%Q
  end.

(** [torch.cat(ts)] along the batch dimension; torch refuses an empty list *)
Definition cat {A : Type} (ts : list (list A)) : result (list A) :=
  match ts with
  | [] => Raise "torch.cat(): expected a non-empty list of Tensors"%string
  | _ => Ok (List.concat ts)
  end.

(** ** The post hoc calibrators

    [FeatureClippingCalibrator] and [FeatureClippingCalibrator2] have the same
    fields and the same local variables in [set_feature_clip]; the record
    types are shared.  [feature_clip_bottom] does not exist until
    [set_feature_clip] has run. *)

Record calibrator : Type := Calibrator {
  cross_validate : string;
  feature_clip : float;
  feature_clip_bottom : option float
}.

Definition set_clip (c : float) : M calibrator unit :=
  fun self =>
    (Ok tt, Calibrator (cross_validate self) c (feature_clip_bottom self)).

Definition set_clip_bottom (c : float) : M calibrator unit :=
  fun self =>
    (Ok tt, Calibrator (cross_validate self) (feature_clip self) (Some c)).

(** the local variables of [set_feature_clip] *)
Record locals : Type := Locals {
  nll_val : float;
  ece_val : float;
  C_opt_nll : float;
  C_opt_ece : float;
  cs : list float;
  eces : list float;
  accs : list float;
  nlls : list float
}.

(** [C_opt_nll = c; nll_val = v] *)
Definition assign_nll (c v : float) (l : locals) : locals :=
  Locals v (ece_val l) c (C_opt_ece l) (cs l) (eces l) (accs l) (nlls l).

(** [C_opt_ece = c; ece_val = v] *)
Definition assign_ece (c v : float) (l : locals) : locals :=
  Locals (nll_val l) v (C_opt_nll l) c (cs l) (eces l) (accs l) (nlls l).

(** the four [append]s that close an iteration *)
Definition append_trace (c ece nll acc : float) (l : locals) : locals :=
  Locals (nll_val l) (ece_val l) (C_opt_nll l) (C_opt_ece l)
         (cs l ++ [c]) (eces l ++ [ece]) (accs l ++ [acc]) (nlls l ++ [nll]).

Module FeatureClippingCalibrator.
Section Collaborators.

(** the floating point type of the tensors the methods are given *)
Variable dt : dtype.
(** [self.model.classifier] *)
Variable classifier : tensor -> result tensor.
(** [self.nll_criterion(...).item()] and [self.ece_criterion(...).item()] *)
Variable nll_criterion : tensor -> labels -> result float.
Variable ece_criterion : tensor -> labels -> result float.
(** [(logits.argmax(dim=1) == labels).float().mean().item()] *)
Variable accuracy : tensor -> labels -> result float.

Definition __init__ (cross_validate : string) : calibrator :=
  Calibrator cross_validate inf None.

Definition get_feature_clip : M calibrator float :=
  (self <- get ;; ret (feature_clip self))%method.

Definition feature_clipping (features : tensor) : M calibrator tensor :=
  (self <- get ;;
   call (torch_clamp dt features (fneg (feature_clip self))
                     (feature_clip self)))%method.

Definition forward (features : tensor) : M calibrator tensor :=
  (clipped <- feature_clipping features ;;
   call (classifier clipped))%method.

(** the assignments before the loop *)
Definition init_locals : locals :=
  Locals inf inf inf inf [] [] [] [].

(** one iteration of [for q in range(2000)] *)
Definition loop_body (features_val : tensor) (labels_val : labels)
           (q : nat) (l : locals) : M calibrator locals :=
  (set_clip (div100 q) ;;;
   clipped <- feature_clipping features_val ;;
   logits_after_clipping <- call (classifier clipped) ;;
   after_clipping_nll <-
     call (nll_criterion logits_after_clipping labels_val) ;;
   after_clipping_ece <-
     call (ece_criterion logits_after_clipping labels_val) ;;
   self <- get ;;
   let l1 := if fgt (nll_val l) after_clipping_nll
             then assign_nll (feature_clip self) after_clipping_nll l
             else l in
   let l2 := if fgt (ece_val l1) after_clipping_ece
             then assign_ece (feature_clip self) after_clipping_ece l1
             else l1 in
   acc <- call (accuracy logits_after_clipping labels_val) ;;
   ret (append_trace (feature_clip self) after_clipping_ece
                     after_clipping_nll acc l2))%method.

(** [set_feature_clip] up to the end of the loop; hands back the locals *)
Definition scan (features_val logits_val : tensor) (labels_val : labels)
  : M calibrator locals :=
  (set_clip inf ;;;
   set_clip_bottom (fneg inf) ;;;
   for_range 2000 (loop_body features_val labels_val) init_locals)%method.

(** the selection after the loop; an [if]/[elif] without [else] *)
Definition select (l : locals) : M calibrator unit :=
  (self <- get ;;
   if String.eqb (cross_validate self) "ece" then set_clip (C_opt_ece l)
   else if String.eqb (cross_validate self) "nll" then set_clip (C_opt_nll l)
   else ret tt)%method.

(** returns [self]: the fields afterwards are the state of the monad *)
Definition set_feature_clip (features_val logits_val : tensor)
           (labels_val : labels) : M calibrator unit :=
  (l <- scan features_val logits_val labels_val ;;
   select l)%method.

End Collaborators.
End FeatureClippingCalibrator.

(** clip on output logits *)
Module FeatureClippingCalibrator2.
Section Collaborators.

(** the floating point type of the tensors the methods are given *)
Variable dt : dtype.
Variable nll_criterion : tensor -> labels -> result float.
Variable ece_criterion : tensor -> labels -> result float.
Variable accuracy : tensor -> labels -> result float.

(** [self.classifier = torch.nn.Identity()] *)
Definition classifier (t : tensor) : result tensor := Ok t.

Definition __init__ (cross_validate : string) : calibrator :=
  Calibrator cross_validate inf None.

Definition get_feature_clip : M calibrator float :=
  (self <- get ;; ret (feature_clip self))%method.

Definition feature_clipping (features : tensor) : M calibrator tensor :=
  (self <- get ;;
   call (torch_clamp dt features (fneg (feature_clip self))
                     (feature_clip self)))%method.

Definition forward (features : tensor) : M calibrator tensor :=
  (clipped <- feature_clipping features ;;
   call (classifier clipped))%method.

Definition init_locals : locals :=
  Locals inf inf inf inf [] [] [] [].

(** one iteration of [for q in range(4000)]; the logits are clipped *)
Definition loop_body (logits_val : tensor) (labels_val : labels)
           (q : nat) (l : locals) : M calibrator locals :=
  (set_clip (div100 q) ;;;
   clipped <- feature_clipping logits_val ;;
   logits_after_clipping <- call (classifier clipped) ;;
   after_clipping_nll <-
     call (nll_criterion logits_after_clipping labels_val) ;;
   after_clipping_ece <-
     call (ece_criterion logits_after_clipping labels_val) ;;
   self <- get ;;
   let l1 := if fgt (nll_val l) after_clipping_nll
             then assign_nll (feature_clip self) after_clipping_nll l
             else l in
   let l2 := if fgt (ece_val l1) after_clipping_ece
             then assign_ece (feature_clip self) after_clipping_ece l1
             else l1 in
   acc <- call (accuracy logits_after_clipping labels_val) ;;
   ret (append_trace (feature_clip self) after_clipping_ece
                     after_clipping_nll acc l2))%method.

Definition scan (features_val logits_val : tensor) (labels_val : labels)
  : M calibrator locals :=
  (set_clip inf ;;;
   set_clip_bottom (fneg inf) ;;;
   for_range 4000 (loop_body logits_val labels_val) init_locals)%method.

Definition select (l : locals) : M calibrator unit :=
  (self <- get ;;
   if String.eqb (cross_validate self) "ece" then set_clip (C_opt_ece l)
   else if String.eqb (cross_validate self) "nll" then set_clip (C_opt_nll l)
   else ret tt)%method.

Definition set_feature_clip (features_val logits_val : tensor)
           (labels_val : labels) : M calibrator unit :=
  (l <- scan features_val logits_val labels_val ;;
   select l)%method.

End Collaborators.
End FeatureClippingCalibrator2.

(** ** The model wrapper *)

Module ModelWithFeatureClipping.

(** the one field the methods assign; [self.model] never changes *)
Record wrapper : Type := Wrapper { feature_clip : float }.

(** the local variables of the search in [set_feature_clip] *)
Record locals : Type := Locals {
  nll_val : float;
  ece_val : float;
  C_opt_nll : float;
  C_opt_ece : float;
  C : float
}.

Section Collaborators.

(** the batches of the loader *)
Variable input : Type.
(** the floating point type of the features of the model *)
Variable dt : dtype.
(** [self.model(input, return_feature=True)]: logits and features *)
Variable model : input -> result (tensor * tensor).
(** [self.model.classifier] *)
Variable model_classifier : tensor -> result tensor.
(** [nn.CrossEntropyLoss()(...).item()] and [ECELoss()(...).item()] *)
Variable nll_criterion : tensor -> labels -> result float.
Variable ece_criterion : tensor -> labels -> result float.

Definition __init__ : wrapper := Wrapper inf.

Definition set_clip (c : float) : M wrapper unit := put (Wrapper c).

Definition classifier (features : tensor) : M wrapper tensor :=
  call (model_classifier features).

Definition feature_clipping (features : tensor) : M wrapper tensor :=
  (self <- get ;;
   call (torch_clamp dt features (fneg (feature_clip self))
                     (feature_clip self)))%method.

Definition forward (x : input) (return_feature : bool)
  : M wrapper (tensor * option tensor) :=
  (out <- call (model x) ;;
   let (logits, features) := (out : tensor * tensor) in
   features <- feature_clipping features ;;
   res <- classifier features ;;
   ret (res, if return_feature then Some features else None))%method.

Definition get_feature_clip : M wrapper float :=
  (self <- get ;; ret (feature_clip self))%method.

(** the first loop: logits, labels and features of every batch *)
Fixpoint collect (valid_loader : list (input * labels))
         (logits_list : list tensor) (labels_list : list labels)
         (features_list : list tensor)
  : M wrapper (list tensor * list labels * list tensor) :=
  match valid_loader with
  | [] => ret (logits_list, labels_list, features_list)
  | (x, label) :: rest =>
      (out <- call (model x) ;;
       let (logits, features) := (out : tensor * tensor) in
       collect rest (logits_list ++ [logits]) (labels_list ++ [label])
               (features_list ++ [features]))%method
  end.

(** [10 ** 7] *)
Definition ten_million : float := Fin (10000000 # 1)%Q.

Definition init_locals : locals :=
  Locals ten_million ten_million inf inf (Fin (1 # 100)%Q).

(** one iteration of [for _ in range(1)] *)
Definition loop_body (features : tensor) (labels_ : labels)
           (_ : nat) (l : locals) : M wrapper locals :=
  (set_clip (C l) ;;;
   clipped <- feature_clipping features ;;
   out <- classifier clipped ;;
   after_clipping_nll <- call (nll_criterion out labels_) ;;
   clipped' <- feature_clipping features ;;
   out' <- classifier clipped' ;;
   after_clipping_ece <- call (ece_criterion out' labels_) ;;
   let l1 := if fgt (nll_val l) after_clipping_nll
             then Locals after_clipping_nll (ece_val l) (C l)
                         (C_opt_ece l) (C l)
             else l in
   let l2 := if fgt (ece_val l1) after_clipping_ece
             then Locals (nll_val l1) after_clipping_ece (C_opt_nll l1)
                         (C l1) (C l1)
             else l1 in
   ret (Locals (nll_val l2) (ece_val l2) (C_opt_nll l2) (C_opt_ece l2)
               (fadd (C l2) (Fin (1 # 100)%Q))))%method.

(** [set_feature_clip] up to the end of the search loop *)
Definition scan (valid_loader : list (input * labels)) : M wrapper locals :=
  (lists <- collect valid_loader [] [] [] ;;
   let '(logits_list, labels_list, features_list) := lists in
   logits <- call (cat logits_list) ;;
   labels_ <- call (cat labels_list) ;;
   features <- call (cat features_list) ;;
   for_range 1 (loop_body features labels_) init_locals)%method.

Definition select (cross_validate : string) (l : locals) : M wrapper unit :=
  if String.eqb cross_validate "ece" then set_clip (C_opt_ece l)
  else set_clip (C_opt_nll l).

Definition set_feature_clip (valid_loader : list (input * labels))
           (cross_validate : string) : M wrapper unit :=
  (l <- scan valid_loader ;;
   select cross_validate l)%method.

End Collaborators.
End ModelWithFeatureClipping.

(** ** Notions used in the statements *)

(** [with_clip c self]: the fields of [self] after [self.feature_clip = c] *)
Definition with_clip (c : float) (self : calibrator) : calibrator :=
  Calibrator (cross_validate self) c (feature_clip_bottom self).

(** What the collaborators answer at step [q] of a search that clips the
    tensor [t] of type [dt]: the NLL, the ECE and the accuracy of
    [classifier(clamp(t, -q/100, q/100))], or the first raise, in the order
    of the calls of the loop body. *)
Definition step_metrics (dt : dtype)
           (classifier : tensor -> result tensor)
           (nll_criterion ece_criterion accuracy
            : tensor -> labels -> result float)
           (t : tensor) (labels_val : labels) (q : nat)
  : result (float * float * float) :=
  match torch_clamp dt t (fneg (div100 q)) (div100 q) with
  | Raise e => Raise e
  | Ok clipped =>
      match classifier clipped with
      | Raise e => Raise e
      | Ok logits =>
          match nll_criterion logits labels_val with
          | Raise e => Raise e
          | Ok nll =>
              match ece_criterion logits labels_val with
              | Raise e => Raise e
              | Ok ece =>
                  match accuracy logits labels_val with
                  | Raise e => Raise e
                  | Ok acc => Ok (nll, ece, acc)
                  end
              end
          end
      end
  end.

(** The effect of one iteration on the locals, once the metrics are known. *)
Definition update (q : nat) (nll ece acc : float) (l : locals) : locals :=
  let l1 := if fgt (nll_val l) nll then assign_nll (div100 q) nll l else l in
  let l2 := if fgt (ece_val l1) ece then assign_ece (div100 q) ece l1 else l1 in
  append_trace (div100 q) ece nll acc l2.

(** The locals after the first [n] iterations, for metrics [nv], [ev], [av]
    given by step index. *)
Fixpoint run_updates (nv ev av : nat -> float) (n : nat) (l : locals)
  : locals :=
  match n with
  | O => l
  | S k => update k (nv k) (ev k) (av k) (run_updates nv ev av k l)
  end.

(** The running best value and its threshold after [n] steps of a strict
    less-than scan of the values [v]. *)
Fixpoint best (v : nat -> float) (n : nat) : float * float :=
  match n with
  | O => (inf, inf)
  | S k =>
      let (b, c) := best v k in
      if fgt b (v k) then (v k, div100 k) else (b, c)
  end.

(** [q] is the first of the steps below [n] at which [v] is minimal: no step
    has a value below [v q], and no earlier step has a value below or equal
    to it.  NaN values take no part: they compare false. *)
Definition first_min (v : nat -> float) (n q : nat) : Prop :=
  q < n /\
  is_nan (v q) = false /\
  (forall k, k < n -> flt (v k) (v q) = false) /\
  (forall k, k < q -> fle (v k) (v q) = false).

(** A run of [set_feature_clip] under criterion [crit] returns and leaves the
    threshold at the first minimum of [v] over [n] steps. *)
Definition selects_first_min (run : M calibrator unit) (crit : string)
           (v : nat -> float) (n : nat) : Prop :=
  forall self, cross_validate self = crit ->
    exists q, first_min v n q /\
              run self = (Ok tt, Calibrator crit (div100 q) (Some NegInf)).

(** The clamp of the specification: elementwise [clamp(x, -C, C)] is [C]
    above [C], [-C] below [-C] and [x] in between. *)
Definition clamp_spec (c x : float) : float :=
  if fgt x c then c
  else if flt x (fneg c) then fneg c
  else x.

(** the scanned candidates of an [n]-step search *)
Definition candidates (n : nat) : list float := map div100 (seq 0 n).

(** every step below [n] returns the metrics [nv], [ev], [av] *)
Definition metrics_are
           (sm : nat -> result (float * float * float))
           (nv ev av : nat -> float) (n : nat) : Prop :=
  forall q, q < n -> sm q = Ok (nv q, ev q, av q).

(** The shape shared by the two [set_feature_clip] of the calibrators: the
    assignments before the loop, [n] iterations of [body], the selection. *)
Definition scan_loop (n : nat) (body : nat -> locals -> M calibrator locals)
  : M calibrator locals :=
  (set_clip inf ;;;
   set_clip_bottom (fneg inf) ;;;
   for_range n body FeatureClippingCalibrator.init_locals)%method.

Definition search (n : nat) (body : nat -> locals -> M calibrator locals)
  : M calibrator unit :=
  (l <- scan_loop n body ;;
   FeatureClippingCalibrator.select l)%method.

(** The outcome of an iteration is fixed by the answer of the collaborators
    at that step. *)
Definition body_follows (body : nat -> locals -> M calibrator locals)
           (sm : nat -> result (float * float * float)) : Prop :=
  forall q l self,
    body q l self =
    match sm q with
    | Ok (nll, ece, acc) =>
        (Ok (update q nll ece acc l), with_clip (div100 q) self)
    | Raise e => (Raise e, with_clip (div100 q) self)
    end.

(** the fields after [n] iterations that did not raise *)
Definition after_steps (n : nat) (self : calibrator) : calibrator :=
  match n with
  | O => self
  | S k => with_clip (div100 k) self
  end.

(** the fields at the end of a search whose steps all returned *)
Definition search_end (n : nat) (l : locals) (self : calibrator) : calibrator :=
  let s1 :=
    after_steps n (Calibrator (cross_validate self) inf (Some NegInf)) in
  if String.eqb (cross_validate self) "ece" then with_clip (C_opt_ece l) s1
  else if String.eqb (cross_validate self) "nll" then with_clip (C_opt_nll l) s1
  else s1.

(** the threshold of a calibrator is not negative *)
Definition nonneg (self : calibrator) : Prop :=
  fle (Fin 0) (feature_clip self) = true.

(** the two best thresholds are not negative *)
Definition nonneg_opts (l : locals) : Prop :=
  fle (Fin 0) (C_opt_nll l) = true /\ fle (Fin 0) (C_opt_ece l) = true.

(** the threshold of the wrapper is not negative *)
Definition wrapper_nonneg (self : ModelWithFeatureClipping.wrapper) : Prop :=
  fle (Fin 0) (ModelWithFeatureClipping.feature_clip self) = true.

(** ** Sample collaborators, for the examples *)

(** an identity head *)
Definition head_id (t : tensor) : result tensor := Ok t.

(** a criterion that answers [v] whatever the batch *)
Definition const_metric (v : float) (_ : tensor) (_ : labels) : result float :=
  Ok v.

(** the distance to 3 *)
Definition dist3 (x : float) : float :=
  match x with
  | Fin v => Fin (Qabs (v - 3))%Q
  | NaN => NaN
  | _ => PosInf
  end.

(** a criterion that answers the distance to 3 of the one entry of a
    one-by-one batch *)
Definition entry_metric (t : tensor) (_ : labels) : result float :=
  match t with
  | [[x]] => Ok (dist3 x)
  | _ => Ok NaN
  end.

(** the value [entry_metric] sees at step [q] when the batch is [[5]] *)
Definition entry_at (q : nat) : float :=
  dist3 (clamp_elt (fneg (div100 q)) (div100 q) (Fin 5)).

(** a head that refuses a one-by-one batch whose entry is above 0 *)
Definition picky_head (t : tensor) : result tensor :=
  match t with
  | [[x]] => if flt (Fin 0) x then Raise "entry above 0"%string else Ok t
  | _ => Ok t
  end.

(** ** Notions for the further properties *)

(** [Y] is what [feature_clipping] returns on the tensor [X] of type [dt]
    when the threshold is [c], in each of the three classes. *)
Definition clip_results (dt : dtype) (c : float) (X Y : tensor) : Prop :=
  forall (cv : string) (b : option float),
    fst (FeatureClippingCalibrator.feature_clipping dt X (Calibrator cv c b))
    = Ok Y /\
    fst (FeatureClippingCalibrator2.feature_clipping dt X (Calibrator cv c b))
    = Ok Y /\
    fst (ModelWithFeatureClipping.feature_clipping dt X
           (ModelWithFeatureClipping.Wrapper c)) = Ok Y.

(** The loop of a search returns, and its locals hold the four traces of
    [n] steps, entry [q] being the candidate [q/100] and the ECE, the NLL
    and the accuracy of step [q]; no recorded value is below the running
    best of its metric, and each running best is either still +inf, with
    its threshold still +inf, or the value recorded at the step of its
    threshold. *)
Definition traces_recorded (run : M calibrator locals)
           (nv ev av : nat -> float) (n : nat) : Prop :=
  forall self, exists l self',
    run self = (Ok l, self') /\
    cs l = map div100 (seq 0 n) /\
    eces l = map ev (seq 0 n) /\
    nlls l = map nv (seq 0 n) /\
    accs l = map av (seq 0 n) /\
    (forall q, q < n -> flt (ev q) (ece_val l) = false) /\
    (forall q, q < n -> flt (nv q) (nll_val l) = false) /\
    ((ece_val l = inf /\ C_opt_ece l = inf) \/
     exists q, q < n /\ ece_val l = ev q /\ C_opt_ece l = div100 q) /\
    ((nll_val l = inf /\ C_opt_nll l = inf) \/
     exists q, q < n /\ nll_val l = nv q /\ C_opt_nll l = div100 q).

(** [x] is NaN or lies in [-c, c]: clipping at [c] has nothing to cut *)
Definition within (c x : float) : Prop :=
  is_nan x = true \/ (fle (fneg c) x = true /\ fle x c = true).

(** The clamp between two bounds, as a case distinction: [hi] above [hi],
    [lo] below [lo] and [x] in between. *)
Definition clamp_between (lo hi x : float) : float :=
  if fgt x hi then hi
  else if flt x lo then lo
  else x.

(** [y] is an admissible image of [x] under clipping between [lo] and [hi]:
    NaN for NaN, otherwise a value of [lo, hi] that is [x] itself when [x]
    is in [lo, hi]. *)
Definition clipped_between (lo hi x y : float) : Prop :=
  (is_nan x = true -> y = NaN) /\
  (is_nan x = false ->
   fle lo y = true /\ fle y hi = true /\
   (fle lo x = true -> fle x hi = true -> y = x)).

(** the bounds of the clamp at step [q] of a search, converted to the type
    of the tensor *)
Definition bounds_at (dt : dtype) (q : nat) : float * float :=
  (Fin (nearest dt (- (Z.of_nat q # 100))),
   Fin (nearest dt (Z.of_nat q # 100))).

(** [z] is the integer nearest to [q], the even one of the two when [q]
    lies halfway between them *)
Definition nearest_even (q : Q) (z : Z) : Prop :=
  (inject_Z z - (1 # 2) < q /\ q < inject_Z z + (1 # 2))%Q \/
  ((q == inject_Z z + (1 # 2) \/ q == inject_Z z - (1 # 2))%Q /\
   Z.even z = true).

(** rounding on the grid of the multiples of [2^e] *)
Definition round_at (e : Z) (q : Q) : Q :=
  (inject_Z (round_half_even (q / pow2 e)) * pow2 e)%Q.

(** the rounding of the type keeps the order *)
Definition monotone_rounding (dt : dtype) : Prop :=
  forall a b : Q, (a <= b)%Q -> (nearest dt a <= nearest dt b)%Q.

(** two numbers that the rounding does not separate get one value, in one
    representation *)
Definition single_valued_rounding (dt : dtype) : Prop :=
  forall a b : Q,
    (a < b)%Q -> (nearest dt a == nearest dt b)%Q ->
    nearest dt a = nearest dt b.

(** the rounding of the type commutes with the change of sign *)
Definition symmetric_rounding (dt : dtype) : Prop :=
  forall a : Q, nearest dt (- a) = (- nearest dt a)%Q.

(** the rounding of the type keeps zero *)
Definition zero_rounding (dt : dtype) : Prop :=
  forall a : Q, (a == 0)%Q -> (nearest dt a == 0)%Q.

(** [x] is a value of the type: the rounding leaves it as it is *)
Definition representable (dt : dtype) (x : float) : Prop :=
  match x with
  | Fin v => (nearest dt v == v)%Q
  | _ => True
  end.

(** * Proofs *)

(** ** The order of the floating point values *)

Lemma flt_Fin (x y : Q) : flt (Fin x) (Fin y) = true <-> (x < y)%Q.
Proof.
  simpl. rewrite Qlt_alt. destruct (x ?= y)%Q; split; congruence.
Qed.

Lemma feq_Fin (x y : Q) : feq (Fin x) (Fin y) = true <-> (x == y)%Q.
Proof.
  simpl. rewrite Qeq_alt. destruct (x ?= y)%Q; split; congruence.
Qed.

Lemma fle_Fin (x y : Q) : fle (Fin x) (Fin y) = true <-> (x <= y)%Q.
Proof.
  unfold fle. rewrite orb_true_iff, flt_Fin, feq_Fin, Qle_lteq. tauto.
Qed.

Lemma flt_irrefl (a : float) : flt a a = false.
Proof.
  destruct a; try reflexivity.
  destruct (flt (Fin v) (Fin v)) eqn:E; [|reflexivity].
  apply flt_Fin in E. exfalso. exact (Qlt_irrefl _ E).
Qed.

Lemma flt_trans (a b c : float) :
  flt a b = true -> flt b c = true -> flt a c = true.
Proof.
  destruct a, b, c; try discriminate; try reflexivity.
  rewrite !flt_Fin. apply Qlt_trans.
Qed.

Lemma fle_flt_trans (a b c : float) :
  fle a b = true -> flt b c = true -> flt a c = true.
Proof.
  destruct a, b, c; try discriminate; try reflexivity.
  rewrite fle_Fin, !flt_Fin. apply Qle_lt_trans.
Qed.

Lemma flt_not_nan_l (a b : float) : flt a b = true -> is_nan a = false.
Proof. destruct a; simpl; congruence. Qed.

Lemma fle_0_div100 (q : nat) : fle (Fin 0) (div100 q) = true.
Proof.
  unfold div100. apply fle_Fin. unfold Qle. simpl. lia.
Qed.

Lemma div100_inj (p q : nat) : div100 p = div100 q -> p = q.
Proof.
  unfold div100. intros H. injection H as H. lia.
Qed.

Lemma div100_neq_inf (q : nat) : div100 q <> inf.
Proof. discriminate. Qed.

(** ** Comparisons of finite values *)

Lemma flt_Fin_false (x y : Q) : flt (Fin x) (Fin y) = false <-> (y <= x)%Q.
Proof.
  destruct (flt (Fin x) (Fin y)) eqn:E.
  - apply flt_Fin in E. split; [discriminate | intros H; lra].
  - split; [intros _ | reflexivity].
    destruct (Qlt_le_dec x y) as [H|H]; [|exact H].
    apply flt_Fin in H. congruence.
Qed.

Lemma fle_Fin_false (x y : Q) : fle (Fin x) (Fin y) = false <-> (y < x)%Q.
Proof.
  destruct (fle (Fin x) (Fin y)) eqn:E.
  - apply fle_Fin in E. split; [discriminate | intros H; lra].
  - split; [intros _ | reflexivity].
    destruct (Qlt_le_dec y x) as [H|H]; [exact H|].
    apply fle_Fin in H. congruence.
Qed.

(** settle the comparisons of the goal in which an infinity takes part *)
Ltac reduce_infinite :=
  repeat first
    [ progress change (flt (Fin _) NegInf) with false
    | progress change (flt (Fin _) PosInf) with true
    | progress change (flt NegInf (Fin _)) with true
    | progress change (flt PosInf (Fin _)) with false
    | progress change (flt NegInf PosInf) with true
    | progress change (flt PosInf NegInf) with false
    | progress change (flt NegInf NegInf) with false
    | progress change (flt PosInf PosInf) with false ];
  cbv iota.

(** split on every comparison of two finite values in the goal *)
Ltac split_comparisons :=
  reduce_infinite;
  repeat (match goal with
          | |- context [flt (Fin ?x) (Fin ?y)] =>
              let E := fresh "E" in
              destruct (flt (Fin x) (Fin y)) eqn:E;
              [apply flt_Fin in E | apply flt_Fin_false in E]
          end; reduce_infinite).

(** close a goal on finite values by linear arithmetic *)
Ltac finite_order :=
  repeat match goal with
    | H : flt (Fin _) (Fin _) = true |- _ => apply flt_Fin in H
    | H : flt (Fin _) (Fin _) = false |- _ => apply flt_Fin_false in H
    | H : fle (Fin _) (Fin _) = true |- _ => apply fle_Fin in H
    | H : fle (Fin _) (Fin _) = false |- _ => apply fle_Fin_false in H
    | H : feq (Fin _) (Fin _) = true |- _ => apply feq_Fin in H
    end;
  try reflexivity; try discriminate;
  try (exfalso; lra);
  first [ apply flt_Fin; lra | apply flt_Fin_false; lra
        | apply fle_Fin; lra | apply fle_Fin_false; lra
        | apply feq_Fin; lra | idtac ].

Lemma fle_refl (x : float) : is_nan x = false -> fle x x = true.
Proof. destruct x; try discriminate; intros _; finite_order. Qed.

Lemma fle_neg_self (c : float) :
  fle (Fin 0) c = true -> fle (fneg c) c = true.
Proof.
  destruct c as [| |c|]; try discriminate; intros H; simpl fneg;
    finite_order.
Qed.

(** ** The clamp *)

Lemma clamp_elt_inf (x : float) : clamp_elt (fneg inf) inf x = x.
Proof. destruct x; reflexivity. Qed.

Lemma map_id_ext {A : Type} (f : A -> A) (l : list A) :
  (forall a, f a = a) -> map f l = l.
Proof.
  intros Hf. induction l as [|a l IH]; simpl; [reflexivity|].
  now rewrite Hf, IH.
Qed.

Lemma clamp_inf (t : tensor) : clamp t (fneg inf) inf = t.
Proof.
  unfold clamp. apply map_id_ext. intros row.
  apply map_id_ext. apply clamp_elt_inf.
Qed.

Lemma clamp_elt_not_nan (lo hi x : float) :
  is_nan lo = false -> is_nan hi = false -> is_nan x = false ->
  clamp_elt lo hi x =
  if flt hi (if flt x lo then lo else x) then hi
  else if flt x lo then lo else x.
Proof.
  intros Hlo Hhi Hx. unfold clamp_elt. rewrite Hlo, Hhi.
  destruct x; try discriminate; reflexivity.
Qed.

Lemma clamp_elt_nan_bound (lo hi x : float) :
  is_nan lo || is_nan hi = true -> clamp_elt lo hi x = NaN.
Proof.
  intros H. unfold clamp_elt. rewrite H. destruct x; reflexivity.
Qed.

Lemma fle_not_nan (a b : float) :
  fle a b = true -> is_nan a = false /\ is_nan b = false.
Proof. destruct a, b; try discriminate; split; reflexivity. Qed.

(** the clamp of the code is the case distinction when the bounds are in
    order *)
Lemma clamp_elt_between (lo hi x : float) :
  fle lo hi = true -> clamp_elt lo hi x = clamp_between lo hi x.
Proof.
  intros H. destruct (fle_not_nan _ _ H) as [Hlo Hhi].
  unfold clamp_between, fgt.
  destruct (is_nan x) eqn:Hx.
  - destruct x; try discriminate. simpl.
    destruct hi; try discriminate; destruct lo; try discriminate;
      reflexivity.
  - rewrite (@clamp_elt_not_nan lo hi x Hlo Hhi Hx).
    destruct lo as [| |lo|]; try discriminate;
      destruct hi as [| |hi|]; try discriminate;
      destruct x as [| |x|]; try discriminate;
      split_comparisons; finite_order.
Qed.

Lemma clamp_between_tensor (lo hi : float) (t : tensor) :
  fle lo hi = true ->
  clamp t lo hi = map (map (clamp_between lo hi)) t.
Proof.
  intros H. unfold clamp.
  apply map_ext. intros row. apply map_ext. intros x.
  apply clamp_elt_between. exact H.
Qed.

(** the clamp of the code is the clamp of the specification when the
    threshold is a number that is not negative *)
Lemma clamp_elt_spec (c x : float) :
  fle (Fin 0) c = true ->
  clamp_elt (fneg c) c x = clamp_spec c x.
Proof.
  intros Hc. rewrite clamp_elt_between; [reflexivity|].
  apply fle_neg_self. exact Hc.
Qed.

Lemma clamp_spec_tensor (c : float) (t : tensor) :
  fle (Fin 0) c = true ->
  clamp t (fneg c) c = map (map (clamp_spec c)) t.
Proof.
  intros Hc. unfold clamp.
  apply map_ext. intros row. apply map_ext. intros x.
  apply clamp_elt_spec. exact Hc.
Qed.

Lemma clamp_elt_idem (lo hi x : float) :
  clamp_elt lo hi (clamp_elt lo hi x) = clamp_elt lo hi x.
Proof.
  destruct (is_nan lo || is_nan hi) eqn:Hb.
  - rewrite !(@clamp_elt_nan_bound lo hi _ Hb). reflexivity.
  - apply orb_false_iff in Hb as [Hlo Hhi].
    destruct (is_nan x) eqn:Hx.
    + destruct x; try discriminate. reflexivity.
    + rewrite (@clamp_elt_not_nan lo hi x Hlo Hhi Hx).
      destruct (flt x lo) eqn:Elo.
      * destruct (flt hi lo) eqn:Ehl.
        -- rewrite (@clamp_elt_not_nan lo hi hi Hlo Hhi Hhi).
           rewrite Ehl, Ehl. reflexivity.
        -- rewrite (@clamp_elt_not_nan lo hi lo Hlo Hhi Hlo).
           rewrite flt_irrefl, Ehl. reflexivity.
      * destruct (flt hi x) eqn:Ehx.
        -- rewrite (@clamp_elt_not_nan lo hi hi Hlo Hhi Hhi).
           destruct (flt hi lo) eqn:Ehl.
           ++ rewrite Ehl. reflexivity.
           ++ rewrite flt_irrefl. reflexivity.
        -- rewrite (@clamp_elt_not_nan lo hi x Hlo Hhi Hx), Elo, Ehx.
           reflexivity.
Qed.

Lemma clamp_idem (t : tensor) (lo hi : float) :
  clamp (clamp t lo hi) lo hi = clamp t lo hi.
Proof.
  unfold clamp. rewrite map_map.
  apply map_ext. intros row. rewrite map_map.
  apply map_ext. apply clamp_elt_idem.
Qed.

Lemma flt_lt_inf (a b : float) : flt a b = true -> flt a inf = true.
Proof. destruct a, b; simpl; congruence. Qed.

Lemma feq_fle (a b : float) : feq a b = true -> fle a b = true.
Proof. unfold fle. intros ->. apply orb_true_r. Qed.

Lemma flt_total (a b : float) :
  is_nan a = false -> is_nan b = false ->
  flt a b = true \/ feq a b = true \/ flt b a = true.
Proof.
  destruct a as [| |x|], b as [| |y|]; simpl; try discriminate; auto.
  intros _ _. rewrite <- (Qcompare_antisym x y).
  destruct (x ?= y)%Q; simpl; auto.
Qed.

(** ** The strict less-than scan *)

Lemma best_spec (v : nat -> float) (n : nat) :
  (forall k, k < n -> flt (v k) (fst (best v n)) = false) /\
  (best v n = (inf, inf) \/
   exists q, first_min v n q /\ best v n = (v q, div100 q) /\
             flt (v q) inf = true).
Proof.
  induction n as [|n [IHmin IHsel]].
  - split; [intros k Hk; lia | left; reflexivity].
  - simpl. destruct (best v n) as [b c] eqn:Eb. simpl in IHmin.
    unfold fgt. destruct (flt (v n) b) eqn:Elt.
    + assert (Hbelow : forall k, k < n -> fle (v k) (v n) = false).
      { intros k Hk. destruct (fle (v k) (v n)) eqn:E; [|reflexivity].
        rewrite <- (IHmin k Hk). symmetry.
        exact (fle_flt_trans _ _ _ E Elt). }
      assert (Hmin : forall k, k < S n -> flt (v k) (v n) = false).
      { intros k Hk. destruct (Nat.eq_dec k n) as [->|Hne].
        - apply flt_irrefl.
        - assert (Hk' : k < n) by lia.
          specialize (Hbelow k Hk'). unfold fle in Hbelow.
          apply orb_false_iff in Hbelow. tauto. }
      split; [exact Hmin|]. right. exists n. split; [|split].
      * repeat split; [lia | exact (flt_not_nan_l _ _ Elt) | exact Hmin
                       | exact Hbelow].
      * reflexivity.
      * exact (flt_lt_inf _ _ Elt).
    + assert (Hmin : forall k, k < S n -> flt (v k) b = false).
      { intros k Hk. destruct (Nat.eq_dec k n) as [->|Hne];
          [exact Elt | apply IHmin; lia]. }
      split; [exact Hmin|].
      destruct IHsel as [Hinit | (q & (Hq & Hnan & Hm & Hf) & Hbq & Hinf)].
      * left. exact Hinit.
      * right. exists q. injection Hbq as Hb Hc. subst b c.
        split; [|split; [reflexivity | exact Hinf]].
        repeat split; [lia | exact Hnan | exact Hmin | exact Hf].
Qed.

(** some value below +inf: the scan ends on the first minimum *)
Lemma best_first_min (v : nat -> float) (n : nat) :
  (exists k, k < n /\ flt (v k) inf = true) ->
  exists q, first_min v n q /\ best v n = (v q, div100 q).
Proof.
  intros (k & Hk & Hlt).
  destruct (best_spec v n) as [Hmin [Hinit | (q & Hq & Hb & _)]].
  - rewrite Hinit in Hmin. simpl in Hmin.
    rewrite (Hmin k Hk) in Hlt. discriminate.
  - exists q. split; assumption.
Qed.

(** no value below +inf: the scan keeps its initial values *)
Lemma best_untouched (v : nat -> float) (n : nat) :
  (forall k, k < n -> flt (v k) inf = false) ->
  best v n = (inf, inf).
Proof.
  intros Hall.
  destruct (best_spec v n) as [_ [Hinit | (q & (Hq & _) & _ & Hinf)]].
  - exact Hinit.
  - rewrite (Hall q Hq) in Hinf. discriminate.
Qed.

Lemma first_min_unique (v : nat -> float) (n p q : nat) :
  first_min v n p -> first_min v n q -> p = q.
Proof.
  intros (Hp & Hnp & Hmp & Hfp) (Hq & Hnq & Hmq & Hfq).
  destruct (Nat.lt_trichotomy p q) as [Hlt | [Heq | Hgt]];
    [exfalso | exact Heq | exfalso].
  - specialize (Hfq p Hlt). specialize (Hmp q Hq).
    unfold fle in Hfq. apply orb_false_iff in Hfq as [H1 H2].
    destruct (flt_total _ _ Hnp Hnq) as [H | [H | H]]; congruence.
  - specialize (Hfp q Hgt). specialize (Hmq p Hp).
    unfold fle in Hfp. apply orb_false_iff in Hfp as [H1 H2].
    destruct (flt_total _ _ Hnq Hnp) as [H | [H | H]]; congruence.
Qed.

(** of two steps with equal values the later one is never the first minimum *)
Lemma first_min_tie (v : nat -> float) (n q q1 q2 : nat) :
  first_min v n q -> q1 < q2 -> feq (v q1) (v q2) = true -> q <> q2.
Proof.
  intros (_ & _ & _ & Hf) Hlt Heq ->.
  specialize (Hf q1 Hlt).
  rewrite (feq_fle _ _ Heq) in Hf. discriminate.
Qed.

(** ** The locals along the loop *)

Lemma update_ece (q : nat) (nl e a : float) (l : locals) :
  (ece_val (update q nl e a l), C_opt_ece (update q nl e a l)) =
  if fgt (ece_val l) e then (e, div100 q) else (ece_val l, C_opt_ece l).
Proof.
  unfold update.
  destruct (fgt (nll_val l) nl); simpl;
    destruct (fgt (ece_val l) e); reflexivity.
Qed.

Lemma update_nll (q : nat) (nl e a : float) (l : locals) :
  (nll_val (update q nl e a l), C_opt_nll (update q nl e a l)) =
  if fgt (nll_val l) nl then (nl, div100 q) else (nll_val l, C_opt_nll l).
Proof.
  unfold update.
  destruct (fgt (nll_val l) nl); simpl;
    match goal with |- context [if ?b then _ else _] => destruct b end;
    reflexivity.
Qed.

Lemma update_cs (q : nat) (nl e a : float) (l : locals) :
  cs (update q nl e a l) = cs l ++ [div100 q].
Proof.
  unfold update.
  destruct (fgt (nll_val l) nl); simpl;
    match goal with |- context [if ?b then _ else _] => destruct b end;
    reflexivity.
Qed.

Section Updates.
Variables nv ev av : nat -> float.

Let l0 := FeatureClippingCalibrator.init_locals.

Lemma run_updates_ece (n : nat) :
  (ece_val (run_updates nv ev av n l0), C_opt_ece (run_updates nv ev av n l0))
  = best ev n.
Proof.
  induction n as [|n IH]; [reflexivity|].
  change (run_updates nv ev av (S n) l0)
    with (update n (nv n) (ev n) (av n) (run_updates nv ev av n l0)).
  rewrite update_ece. simpl best. rewrite <- IH. reflexivity.
Qed.

Lemma run_updates_nll (n : nat) :
  (nll_val (run_updates nv ev av n l0), C_opt_nll (run_updates nv ev av n l0))
  = best nv n.
Proof.
  induction n as [|n IH]; [reflexivity|].
  change (run_updates nv ev av (S n) l0)
    with (update n (nv n) (ev n) (av n) (run_updates nv ev av n l0)).
  rewrite update_nll. simpl best. rewrite <- IH. reflexivity.
Qed.

Lemma run_updates_cs (n : nat) :
  cs (run_updates nv ev av n l0) = candidates n.
Proof.
  unfold candidates.
  induction n as [|n IH]; [reflexivity|].
  change (run_updates nv ev av (S n) l0)
    with (update n (nv n) (ev n) (av n) (run_updates nv ev av n l0)).
  rewrite update_cs, IH.
  rewrite seq_S, map_app. reflexivity.
Qed.
End Updates.

(** ** The loop *)

Lemma for_range_from_S {St L : Type} (body : nat -> L -> M St L)
      (n start : nat) (l : L) (s : St) :
  for_range_from start (S n) body l s =
  match body start l s with
  | (Ok a, s') => for_range_from (S start) n body a s'
  | (Raise e, s') => (Raise e, s')
  end.
Proof. reflexivity. Qed.

Lemma for_range_from_snoc {St L : Type} (body : nat -> L -> M St L)
      (n start : nat) (l : L) (s : St) :
  for_range_from start (S n) body l s =
  bind (for_range_from start n body l) (body (start + n)) s.
Proof.
  revert start l s. induction n as [|n IH]; intros start l s.
  - simpl. unfold bind, ret. rewrite Nat.add_0_r.
    destruct (body start l s) as [[a|e] s']; reflexivity.
  - rewrite for_range_from_S. unfold bind.
    rewrite (for_range_from_S body n start l s).
    destruct (body start l s) as [[a|e] s']; [|reflexivity].
    rewrite IH. unfold bind. rewrite Nat.add_succ_comm. reflexivity.
Qed.

Lemma for_range_snoc {St L : Type} (body : nat -> L -> M St L)
      (n : nat) (l : L) (s : St) :
  for_range (S n) body l s = bind (for_range n body l) (body n) s.
Proof. unfold for_range. apply for_range_from_snoc. Qed.

Section Loop.
Variable body : nat -> locals -> M calibrator locals.
Variable sm : nat -> result (float * float * float).
Hypothesis Hbody : body_follows body sm.

Lemma loop_returns (nv ev av : nat -> float) (n : nat) :
  metrics_are sm nv ev av n ->
  forall l self,
    for_range n body l self =
    (Ok (run_updates nv ev av n l), after_steps n self).
Proof.
  induction n as [|n IH]; intros Hm l self; [reflexivity|].
  rewrite for_range_snoc. unfold bind.
  rewrite IH by (intros q Hq; apply Hm; lia).
  rewrite Hbody, (Hm n) by lia. simpl.
  destruct n; reflexivity.
Qed.

(** a raise of the loop is a raise of a collaborator *)
Lemma loop_raises (n : nat) (l : locals) (self self' : calibrator)
      (e : exn) :
  for_range n body l self = (Raise e, self') ->
  exists q, q < n /\ sm q = Raise e.
Proof.
  revert self'. induction n as [|n IH]; intros self' H.
  - discriminate.
  - rewrite for_range_snoc in H. unfold bind in H.
    destruct (for_range n body l self) as [[l'|e'] s'] eqn:E.
    + rewrite Hbody in H. exists n. split; [lia|].
      destruct (sm n) as [[[nl ec] ac]|e'']; [discriminate|].
      congruence.
    + injection H as -> _.
      destruct (IH _ eq_refl) as (q & Hq & Hr).
      exists q. split; [lia | exact Hr].
Qed.
End Loop.

Lemma calibrator_body_follows
      (dt : dtype) (classifier : tensor -> result tensor)
      (nll_criterion ece_criterion accuracy : tensor -> labels -> result float)
      (features_val : tensor) (labels_val : labels) :
  body_follows
    (FeatureClippingCalibrator.loop_body dt classifier nll_criterion
       ece_criterion accuracy features_val labels_val)
    (step_metrics dt classifier nll_criterion ece_criterion accuracy
       features_val labels_val).
Proof.
  intros q l self.
  unfold FeatureClippingCalibrator.loop_body, step_metrics,
    FeatureClippingCalibrator.feature_clipping, bind, set_clip, get, ret, call.
  simpl feature_clip.
  destruct (torch_clamp dt features_val _ _) as [clipped|e]; [|reflexivity].
  destruct (classifier clipped) as [lg|e]; [|reflexivity].
  destruct (nll_criterion lg labels_val) as [nl|e]; [|reflexivity].
  destruct (ece_criterion lg labels_val) as [ec|e]; [|reflexivity].
  destruct (accuracy lg labels_val) as [ac|e]; reflexivity.
Qed.

Lemma calibrator2_body_follows
      (dt : dtype)
      (nll_criterion ece_criterion accuracy : tensor -> labels -> result float)
      (logits_val : tensor) (labels_val : labels) :
  body_follows
    (FeatureClippingCalibrator2.loop_body dt nll_criterion ece_criterion
       accuracy logits_val labels_val)
    (step_metrics dt FeatureClippingCalibrator2.classifier nll_criterion
       ece_criterion accuracy logits_val labels_val).
Proof.
  intros q l self.
  unfold FeatureClippingCalibrator2.loop_body, step_metrics,
    FeatureClippingCalibrator2.feature_clipping,
    FeatureClippingCalibrator2.classifier, bind, set_clip, get, ret, call.
  simpl feature_clip.
  destruct (torch_clamp dt logits_val _ _) as [clipped|e]; [|reflexivity].
  destruct (nll_criterion _ labels_val) as [nl|e]; [|reflexivity].
  destruct (ece_criterion _ labels_val) as [ec|e]; [|reflexivity].
  destruct (accuracy _ labels_val) as [ac|e]; reflexivity.
Qed.

Lemma calibrator_scan_is_loop
      (dt : dtype) (classifier : tensor -> result tensor)
      (nll_criterion ece_criterion accuracy : tensor -> labels -> result float)
      (features_val logits_val : tensor) (labels_val : labels) :
  FeatureClippingCalibrator.scan dt classifier nll_criterion
    ece_criterion accuracy features_val logits_val labels_val =
  scan_loop 2000 (FeatureClippingCalibrator.loop_body dt classifier
                    nll_criterion ece_criterion accuracy
                    features_val labels_val).
Proof. unfold FeatureClippingCalibrator.scan, scan_loop. reflexivity. Qed.

Lemma calibrator2_scan_is_loop
      (dt : dtype)
      (nll_criterion ece_criterion accuracy : tensor -> labels -> result float)
      (features_val logits_val : tensor) (labels_val : labels) :
  FeatureClippingCalibrator2.scan dt nll_criterion ece_criterion
    accuracy features_val logits_val labels_val =
  scan_loop 4000 (FeatureClippingCalibrator2.loop_body dt nll_criterion
                    ece_criterion accuracy logits_val labels_val).
Proof.
  unfold FeatureClippingCalibrator2.scan, scan_loop.
  change FeatureClippingCalibrator2.init_locals
    with FeatureClippingCalibrator.init_locals.
  reflexivity.
Qed.

Lemma calibrator_is_search
      (dt : dtype) (classifier : tensor -> result tensor)
      (nll_criterion ece_criterion accuracy : tensor -> labels -> result float)
      (features_val logits_val : tensor) (labels_val : labels) :
  FeatureClippingCalibrator.set_feature_clip dt classifier nll_criterion
    ece_criterion accuracy features_val logits_val labels_val =
  search 2000 (FeatureClippingCalibrator.loop_body dt classifier nll_criterion
                 ece_criterion accuracy features_val labels_val).
Proof.
  unfold FeatureClippingCalibrator.set_feature_clip, search.
  rewrite calibrator_scan_is_loop. reflexivity.
Qed.

Lemma calibrator2_is_search
      (dt : dtype)
      (nll_criterion ece_criterion accuracy : tensor -> labels -> result float)
      (features_val logits_val : tensor) (labels_val : labels) :
  FeatureClippingCalibrator2.set_feature_clip dt nll_criterion ece_criterion
    accuracy features_val logits_val labels_val =
  search 4000 (FeatureClippingCalibrator2.loop_body dt nll_criterion
                 ece_criterion accuracy logits_val labels_val).
Proof.
  unfold FeatureClippingCalibrator2.set_feature_clip, search.
  rewrite calibrator2_scan_is_loop. reflexivity.
Qed.

Lemma cross_validate_after_steps (n : nat) (self : calibrator) :
  cross_validate (after_steps n self) = cross_validate self.
Proof. destruct n; reflexivity. Qed.

Lemma update_nonneg (q : nat) (nl e a : float) (l : locals) :
  nonneg_opts l -> nonneg_opts (update q nl e a l).
Proof.
  intros [Hn He]. split.
  - change (C_opt_nll (update q nl e a l))
      with (snd (nll_val (update q nl e a l), C_opt_nll (update q nl e a l))).
    rewrite update_nll.
    destruct (fgt (nll_val l) nl); [apply fle_0_div100 | exact Hn].
  - change (C_opt_ece (update q nl e a l))
      with (snd (ece_val (update q nl e a l), C_opt_ece (update q nl e a l))).
    rewrite update_ece.
    destruct (fgt (ece_val l) e); [apply fle_0_div100 | exact He].
Qed.

Section Search.
Variable body : nat -> locals -> M calibrator locals.
Variable sm : nat -> result (float * float * float).
Hypothesis Hbody : body_follows body sm.

Lemma search_returns (nv ev av : nat -> float) (n : nat) :
  metrics_are sm nv ev av n ->
  forall self,
    search n body self =
    (Ok tt,
     search_end n
       (run_updates nv ev av n FeatureClippingCalibrator.init_locals) self).
Proof.
  intros Hm self.
  unfold search, scan_loop, bind, set_clip, set_clip_bottom. simpl.
  rewrite (loop_returns Hbody Hm).
  unfold FeatureClippingCalibrator.select, bind, get, search_end.
  rewrite cross_validate_after_steps. cbn [cross_validate].
  destruct (String.eqb (cross_validate self) "ece"); [reflexivity|].
  destruct (String.eqb (cross_validate self) "nll"); reflexivity.
Qed.

Lemma scan_loop_returns (nv ev av : nat -> float) (n : nat) :
  metrics_are sm nv ev av n ->
  forall self,
    scan_loop n body self =
    (Ok (run_updates nv ev av n FeatureClippingCalibrator.init_locals),
     after_steps n (Calibrator (cross_validate self) inf (Some NegInf))).
Proof.
  intros Hm self.
  unfold scan_loop, bind, set_clip, set_clip_bottom. simpl.
  rewrite (loop_returns Hbody Hm). reflexivity.
Qed.

Lemma search_raises (n : nat) (self : calibrator) (e : exn) :
  fst (search n body self) = Raise e ->
  exists q, q < n /\ sm q = Raise e.
Proof.
  unfold search, scan_loop, bind, set_clip, set_clip_bottom. simpl.
  destruct (for_range n body _ _) as [[l|e'] s'] eqn:E.
  - unfold FeatureClippingCalibrator.select, bind, get, set_clip, ret.
    destruct (String.eqb (cross_validate s') "ece"); [discriminate|].
    destruct (String.eqb (cross_validate s') "nll"); discriminate.
  - simpl. intros H. injection H as ->.
    exact (loop_raises Hbody _ _ _ E).
Qed.

(** whatever the collaborators do, the threshold is not negative after any
    number of iterations, and neither are the two tracked optima *)
Lemma loop_nonneg (n : nat) (l : locals) (self : calibrator) :
  nonneg_opts l -> nonneg self ->
  nonneg (snd (for_range n body l self)) /\
  forall l', fst (for_range n body l self) = Ok l' -> nonneg_opts l'.
Proof.
  intros Hl Hs. induction n as [|n [IHs IHl]].
  - split; [exact Hs|]. cbv [for_range for_range_from ret fst].
    intros l' H. injection H as H. subst l'. exact Hl.
  - rewrite for_range_snoc. unfold bind.
    destruct (for_range n body l self) as [[l1|e] s1].
    + cbn beta iota. rewrite !Hbody.
      simpl in IHl. specialize (IHl l1 eq_refl).
      destruct (sm n) as [[[nl ec] ac]|e]; simpl.
      * split; [apply fle_0_div100|].
        intros l' H. injection H as H. subst l'.
        apply update_nonneg. exact IHl.
      * split; [apply fle_0_div100 | discriminate].
    + split; [exact IHs | discriminate].
Qed.

Lemma search_nonneg (n : nat) (self : calibrator) :
  nonneg (snd (search n body self)).
Proof.
  unfold search, scan_loop, bind, set_clip, set_clip_bottom. simpl.
  match goal with
  | |- context [for_range n body ?l ?s] =>
      destruct (@loop_nonneg n l s) as [Hs Hl];
      [split; reflexivity | reflexivity |];
      destruct (for_range n body l s) as [[l1|e] s1]
  end.
  - simpl in Hl. destruct (Hl l1 eq_refl) as [Hn He].
    unfold FeatureClippingCalibrator.select, bind, get, set_clip, ret.
    destruct (String.eqb (cross_validate s1) "ece"); [exact He|].
    destruct (String.eqb (cross_validate s1) "nll"); [exact Hn | exact Hs].
  - exact Hs.
Qed.

Lemma scan_loop_nonneg (n : nat) (self : calibrator) :
  nonneg (snd (scan_loop n body self)).
Proof.
  unfold scan_loop, bind, set_clip, set_clip_bottom. simpl.
  match goal with
  | |- context [for_range n body ?l ?s] =>
      destruct (@loop_nonneg n l s) as [Hs _];
      [split; reflexivity | reflexivity |];
      destruct (for_range n body l s) as [[l1|e] s1]; exact Hs
  end.
Qed.

Lemma body_nonneg (q : nat) (l : locals) (self : calibrator) :
  nonneg (snd (body q l self)).
Proof.
  rewrite Hbody.
  destruct (sm q) as [[[nl ec] ac]|e]; apply fle_0_div100.
Qed.
End Search.

(** * The clipping transform *)

Lemma torch_clamp_ok (dt : dtype) (t : tensor) (lo hi lo' hi' : float) :
  cast dt lo = Ok lo' -> cast dt hi = Ok hi' ->
  torch_clamp dt t lo hi = Ok (clamp t lo' hi').
Proof. intros Hlo Hhi. unfold torch_clamp. rewrite Hlo, Hhi. reflexivity. Qed.

Lemma torch_clamp_inf (dt : dtype) (t : tensor) :
  torch_clamp dt t (fneg inf) inf = Ok t.
Proof. unfold torch_clamp. simpl. rewrite clamp_inf. reflexivity. Qed.

Lemma torch_clamp_returns (dt : dtype) (t Y : tensor) (lo hi : float) :
  torch_clamp dt t lo hi = Ok Y ->
  exists lo' hi', cast dt lo = Ok lo' /\ cast dt hi = Ok hi' /\
                  Y = clamp t lo' hi'.
Proof.
  unfold torch_clamp.
  destruct (cast dt lo) as [lo'|e]; [|discriminate].
  destruct (cast dt hi) as [hi'|e]; [|discriminate].
  intros H. injection H as <-. exists lo', hi'. repeat split.
Qed.

Lemma calibrator_feature_clipping (dt : dtype) (X : tensor)
      (self : calibrator) :
  FeatureClippingCalibrator.feature_clipping dt X self =
  (torch_clamp dt X (fneg (feature_clip self)) (feature_clip self), self) /\
  FeatureClippingCalibrator2.feature_clipping dt X self =
  (torch_clamp dt X (fneg (feature_clip self)) (feature_clip self), self).
Proof. split; reflexivity. Qed.

Lemma wrapper_feature_clipping (dt : dtype) (X : tensor)
      (self : ModelWithFeatureClipping.wrapper) :
  ModelWithFeatureClipping.feature_clipping dt X self =
  (torch_clamp dt X (fneg (ModelWithFeatureClipping.feature_clip self))
               (ModelWithFeatureClipping.feature_clip self), self).
Proof. reflexivity. Qed.

(** C3 (as amended).  [feature_clipping] of each of the three classes
    leaves the fields as they were.  When the threshold is +inf the argument
    comes back unchanged, NaN elements included.  In general the result is
    the elementwise clamp between the two bounds that the conversion of -C
    and C to the type of the tensor gives; it is the clamp to [-C, C] itself
    when the conversion changes neither, C not being negative. *)
Theorem feature_clipping_clamps :
  forall dt : dtype,
  (forall (self : calibrator) (X : tensor),
      let C := feature_clip self in
      snd (FeatureClippingCalibrator.feature_clipping dt X self) = self /\
      snd (FeatureClippingCalibrator2.feature_clipping dt X self) = self /\
      (C = inf ->
       FeatureClippingCalibrator.feature_clipping dt X self = (Ok X, self) /\
       FeatureClippingCalibrator2.feature_clipping dt X self = (Ok X, self)) /\
      (forall lo hi,
          cast dt (fneg C) = Ok lo -> cast dt C = Ok hi ->
          fle lo hi = true ->
          FeatureClippingCalibrator.feature_clipping dt X self =
          (Ok (map (map (clamp_between lo hi)) X), self) /\
          FeatureClippingCalibrator2.feature_clipping dt X self =
          (Ok (map (map (clamp_between lo hi)) X), self)) /\
      (cast dt (fneg C) = Ok (fneg C) -> cast dt C = Ok C ->
       fle (Fin 0) C = true ->
       FeatureClippingCalibrator.feature_clipping dt X self =
       (Ok (map (map (clamp_spec C)) X), self) /\
       FeatureClippingCalibrator2.feature_clipping dt X self =
       (Ok (map (map (clamp_spec C)) X), self))) /\
  (forall (self : ModelWithFeatureClipping.wrapper) (X : tensor),
      let C := ModelWithFeatureClipping.feature_clip self in
      snd (ModelWithFeatureClipping.feature_clipping dt X self) = self /\
      (C = inf ->
       ModelWithFeatureClipping.feature_clipping dt X self = (Ok X, self)) /\
      (forall lo hi,
          cast dt (fneg C) = Ok lo -> cast dt C = Ok hi ->
          fle lo hi = true ->
          ModelWithFeatureClipping.feature_clipping dt X self =
          (Ok (map (map (clamp_between lo hi)) X), self)) /\
      (cast dt (fneg C) = Ok (fneg C) -> cast dt C = Ok C ->
       fle (Fin 0) C = true ->
       ModelWithFeatureClipping.feature_clipping dt X self =
       (Ok (map (map (clamp_spec C)) X), self))).
Proof.
  intros dt. split; intros self X C.
  - destruct (calibrator_feature_clipping dt X self) as [HB HC].
    rewrite HB, HC. fold C.
    split; [reflexivity|]. split; [reflexivity|]. split; [|split].
    + intros ->. rewrite torch_clamp_inf. split; reflexivity.
    + intros lo hi Hlo Hhi Hle.
      rewrite (@torch_clamp_ok dt X _ _ _ _ Hlo Hhi),
        (@clamp_between_tensor lo hi X Hle).
      split; reflexivity.
    + intros Hlo Hhi Hc.
      rewrite (@torch_clamp_ok dt X _ _ _ _ Hlo Hhi),
        (@clamp_spec_tensor C X Hc).
      split; reflexivity.
  - rewrite wrapper_feature_clipping. fold C.
    split; [reflexivity|]. split; [|split].
    + intros ->. rewrite torch_clamp_inf. reflexivity.
    + intros lo hi Hlo Hhi Hle.
      rewrite (@torch_clamp_ok dt X _ _ _ _ Hlo Hhi),
        (@clamp_between_tensor lo hi X Hle).
      reflexivity.
    + intros Hlo Hhi Hc.
      rewrite (@torch_clamp_ok dt X _ _ _ _ Hlo Hhi),
        (@clamp_spec_tensor C X Hc).
      reflexivity.
Qed.

Lemma feature_clipping_clamps_witness :
  let X := [[Fin (-5 # 1)%Q; Fin (1 # 4)%Q; NaN]; [PosInf; Fin (3 # 1)%Q]] in
  FeatureClippingCalibrator.feature_clipping float32 X
    (Calibrator "ece" inf None) = (Ok X, Calibrator "ece" inf None) /\
  FeatureClippingCalibrator2.feature_clipping float32 X
    (Calibrator "ece" (Fin (7 # 100)%Q) None) =
  (Ok [[Fin (-9395241 # 134217728)%Q; Fin (9395241 # 134217728)%Q; NaN];
       [Fin (9395241 # 134217728)%Q; Fin (9395241 # 134217728)%Q]],
   Calibrator "ece" (Fin (7 # 100)%Q) None) /\
  ModelWithFeatureClipping.feature_clipping float64 X
    (ModelWithFeatureClipping.Wrapper (Fin (1 # 2)%Q)) =
  (Ok [[Fin (- (1 # 2))%Q; Fin (1 # 4)%Q; NaN];
       [Fin (1 # 2)%Q; Fin (1 # 2)%Q]],
   ModelWithFeatureClipping.Wrapper (Fin (1 # 2)%Q)).
Proof.
  intros X. split; [|split].
  - destruct (feature_clipping_clamps float32) as [Hcal _].
    destruct (Hcal (Calibrator "ece" inf None) X) as (_ & _ & Hinf & _).
    destruct (Hinf eq_refl) as [H _]. exact H.
  - destruct (feature_clipping_clamps float32) as [Hcal _].
    destruct (Hcal (Calibrator "ece" (Fin (7 # 100)%Q) None) X)
      as (_ & _ & _ & Hgen & _).
    destruct (Hgen (Fin (-9395241 # 134217728)%Q)
                   (Fin (9395241 # 134217728)%Q))
      as [_ H]; [vm_compute; reflexivity .. | exact H].
  - destruct (feature_clipping_clamps float64) as [_ Hwrap].
    destruct (Hwrap (ModelWithFeatureClipping.Wrapper (Fin (1 # 2)%Q)) X)
      as (_ & _ & _ & Hexact).
    apply Hexact; vm_compute; reflexivity.
Defined.

(** C3 as stated fails.  On a [float32] tensor with the threshold 0.07,
    [feature_clipping] returns for the entry 1 the nearest [float32] value
    of 0.07, which is 9395241/2^27 and lies above 0.07: not the clamp of 1
    to [-0.07, 0.07], which is 0.07. *)
Lemma feature_clipping_rounds_the_threshold :
  let self := Calibrator "ece" (Fin (7 # 100)%Q) None in
  FeatureClippingCalibrator.feature_clipping float32 [[Fin 1]] self =
  (Ok [[Fin (9395241 # 134217728)%Q]], self) /\
  map (map (clamp_spec (Fin (7 # 100)%Q))) [[Fin 1]] = [[Fin (7 # 100)%Q]] /\
  flt (Fin (7 # 100)%Q) (Fin (9395241 # 134217728)%Q) = true /\
  fst (FeatureClippingCalibrator.feature_clipping float32 [[Fin 1]] self)
  <> Ok (map (map (clamp_spec (Fin (7 # 100)%Q))) [[Fin 1]]).
Proof.
  intros self. repeat split; try (vm_compute; reflexivity).
  vm_compute. discriminate.
Qed.

(** C4. Clipping is idempotent: for a threshold that is not negative,
    [feature_clipping] applied to its own result returns that result, in each
    of the classes. *)
Theorem feature_clipping_idempotent :
  forall dt : dtype,
  (forall (self : calibrator) (X : tensor),
      fle (Fin 0) (feature_clip self) = true ->
      bind (FeatureClippingCalibrator.feature_clipping dt X)
           (FeatureClippingCalibrator.feature_clipping dt) self =
      FeatureClippingCalibrator.feature_clipping dt X self /\
      bind (FeatureClippingCalibrator2.feature_clipping dt X)
           (FeatureClippingCalibrator2.feature_clipping dt) self =
      FeatureClippingCalibrator2.feature_clipping dt X self) /\
  (forall (self : ModelWithFeatureClipping.wrapper) (X : tensor),
      fle (Fin 0) (ModelWithFeatureClipping.feature_clip self) = true ->
      bind (ModelWithFeatureClipping.feature_clipping dt X)
           (ModelWithFeatureClipping.feature_clipping dt) self =
      ModelWithFeatureClipping.feature_clipping dt X self).
Proof.
  intros dt. split; intros self X _.
  - unfold bind.
    destruct (calibrator_feature_clipping dt X self) as [HB HC].
    rewrite HB, HC.
    destruct (torch_clamp dt X _ _) as [Y|e] eqn:E; [|split; reflexivity].
    destruct (@torch_clamp_returns dt _ _ _ _ E) as (lo & hi & Hlo & Hhi & ->).
    destruct (calibrator_feature_clipping dt (clamp X lo hi) self)
      as [HB' HC'].
    rewrite HB', HC', (@torch_clamp_ok dt _ _ _ _ _ Hlo Hhi), clamp_idem.
    split; reflexivity.
  - unfold bind. rewrite wrapper_feature_clipping.
    destruct (torch_clamp dt X _ _) as [Y|e] eqn:E; [|reflexivity].
    destruct (@torch_clamp_returns dt _ _ _ _ E) as (lo & hi & Hlo & Hhi & ->).
    rewrite wrapper_feature_clipping.
    rewrite (@torch_clamp_ok dt _ _ _ _ _ Hlo Hhi), clamp_idem.
    reflexivity.
Qed.

Lemma feature_clipping_idempotent_witness :
  let X := [[Fin (-5 # 1)%Q; Fin (1 # 4)%Q; NaN]; [PosInf; Fin (3 # 1)%Q]] in
  let self := Calibrator "ece" (Fin (7 # 100)%Q) None in
  fle (Fin 0) (feature_clip self) = true /\
  bind (FeatureClippingCalibrator.feature_clipping float32 X)
       (FeatureClippingCalibrator.feature_clipping float32) self =
  FeatureClippingCalibrator.feature_clipping float32 X self.
Proof.
  intros X self. split; [reflexivity|].
  destruct (feature_clipping_idempotent float32) as [Hcal _].
  destruct (Hcal self X eq_refl) as [H _]. exact H.
Defined.

(** * Inference *)

(** C8 (as amended).  [forward] returns the classifier head applied to the
    clipped input, the elementwise clamp of its argument between the two
    bounds that the conversion of -C and C to the type of the argument
    gives, C being the threshold field; in [FeatureClippingCalibrator2] the
    head is the identity, so the result is the clipped input itself.  The
    bounds are -C and C themselves when the conversion changes neither.
    The fields are the same afterwards, whatever is returned or raised. *)
Theorem forward_clips_then_classifies :
  forall (dt : dtype) (classifier : tensor -> result tensor)
         (self : calibrator) (x : tensor),
    let C := feature_clip self in
    snd (FeatureClippingCalibrator.forward dt classifier x self) = self /\
    snd (FeatureClippingCalibrator2.forward dt x self) = self /\
    (forall lo hi,
        cast dt (fneg C) = Ok lo -> cast dt C = Ok hi -> fle lo hi = true ->
        FeatureClippingCalibrator.forward dt classifier x self =
        (classifier (map (map (clamp_between lo hi)) x), self) /\
        FeatureClippingCalibrator2.forward dt x self =
        (Ok (map (map (clamp_between lo hi)) x), self)) /\
    (cast dt (fneg C) = Ok (fneg C) -> cast dt C = Ok C ->
     fle (Fin 0) C = true ->
     FeatureClippingCalibrator.forward dt classifier x self =
     (classifier (map (map (clamp_spec C)) x), self) /\
     FeatureClippingCalibrator2.forward dt x self =
     (Ok (map (map (clamp_spec C)) x), self)).
Proof.
  intros dt classifier self x C.
  unfold FeatureClippingCalibrator.forward,
    FeatureClippingCalibrator2.forward, bind, call.
  destruct (calibrator_feature_clipping dt x self) as [HB HC].
  rewrite HB, HC. fold C.
  split; [destruct (torch_clamp dt x _ _); reflexivity|].
  split; [destruct (torch_clamp dt x _ _); reflexivity|].
  split.
  - intros lo hi Hlo Hhi Hle.
    rewrite (@torch_clamp_ok dt x _ _ _ _ Hlo Hhi),
      (@clamp_between_tensor lo hi x Hle).
    split; reflexivity.
  - intros Hlo Hhi Hc.
    rewrite (@torch_clamp_ok dt x _ _ _ _ Hlo Hhi), (@clamp_spec_tensor C x Hc).
    split; reflexivity.
Qed.

Lemma forward_clips_then_classifies_witness :
  let self := Calibrator "ece" (Fin (7 # 100)%Q) None in
  FeatureClippingCalibrator.forward float32 picky_head [[Fin 1]] self =
  (Raise "entry above 0"%string, self) /\
  FeatureClippingCalibrator2.forward float32 [[Fin 1; Fin (-1 # 1)%Q]] self =
  (Ok [[Fin (9395241 # 134217728)%Q; Fin (-9395241 # 134217728)%Q]], self).
Proof.
  intros self. split.
  - destruct (forward_clips_then_classifies float32 picky_head self [[Fin 1]])
      as (_ & _ & Hgen & _).
    destruct (Hgen (Fin (-9395241 # 134217728)%Q)
                   (Fin (9395241 # 134217728)%Q))
      as [H _]; [vm_compute; reflexivity .. | exact H].
  - destruct (forward_clips_then_classifies float32 picky_head self
                [[Fin 1; Fin (-1 # 1)%Q]]) as (_ & _ & Hgen & _).
    destruct (Hgen (Fin (-9395241 # 134217728)%Q)
                   (Fin (9395241 # 134217728)%Q))
      as [_ H]; [vm_compute; reflexivity .. | exact H].
Defined.

(** C8 as stated fails.  With the threshold 0.07 and an identity head,
    [forward] on the [float32] batch [[1]] returns [[9395241/2^27]], the
    nearest [float32] value of 0.07 and above it, and not the clamp of the
    batch to [-0.07, 0.07], which is [[0.07]]. *)
Lemma forward_rounds_the_threshold :
  let self := Calibrator "ece" (Fin (7 # 100)%Q) None in
  FeatureClippingCalibrator2.forward float32 [[Fin 1]] self =
  (Ok [[Fin (9395241 # 134217728)%Q]], self) /\
  FeatureClippingCalibrator.forward float32 head_id [[Fin 1]] self =
  (Ok [[Fin (9395241 # 134217728)%Q]], self) /\
  head_id (map (map (clamp_spec (Fin (7 # 100)%Q))) [[Fin 1]]) =
  Ok [[Fin (7 # 100)%Q]] /\
  flt (Fin (7 # 100)%Q) (Fin (9395241 # 134217728)%Q) = true /\
  fst (FeatureClippingCalibrator2.forward float32 [[Fin 1]] self)
  <> Ok (map (map (clamp_spec (Fin (7 # 100)%Q))) [[Fin 1]]).
Proof.
  intros self. repeat split; try (vm_compute; reflexivity).
  vm_compute. discriminate.
Qed.

(** ** The conversion of the candidates *)

(** every type holds the numbers up to 40, the candidates among them *)
Lemma largest_covers_scan (dt : dtype) : (40 <= largest dt)%Q.
Proof. apply Qle_bool_iff. destruct dt; vm_compute; reflexivity. Qed.

Lemma cast_small (dt : dtype) (q : Q) :
  (Qabs q <= 40)%Q -> cast dt (Fin q) = Ok (Fin (nearest dt q)).
Proof.
  intros H. unfold cast.
  assert (Hle : Qle_bool (Qabs q) (largest dt) = true).
  { apply Qle_bool_iff. eapply Qle_trans; [exact H|].
    apply largest_covers_scan. }
  rewrite Hle. reflexivity.
Qed.

Lemma cast_div100 (dt : dtype) (q : nat) :
  q <= 4000 ->
  cast dt (div100 q) = Ok (Fin (nearest dt (Z.of_nat q # 100))) /\
  cast dt (fneg (div100 q)) = Ok (Fin (nearest dt (- (Z.of_nat q # 100)))).
Proof.
  intros Hq. unfold div100. simpl fneg.
  assert (H : (Z.of_nat q # 100 <= 40)%Q) by (unfold Qle; simpl; lia).
  assert (H0 : (0 <= Z.of_nat q # 100)%Q) by (unfold Qle; simpl; lia).
  split; apply cast_small.
  - rewrite Qabs_pos; assumption.
  - rewrite Qabs_opp, Qabs_pos; assumption.
Qed.

Lemma torch_clamp_div100 (dt : dtype) (t : tensor) (q : nat) :
  q <= 4000 ->
  torch_clamp dt t (fneg (div100 q)) (div100 q) =
  Ok (clamp t (fst (bounds_at dt q)) (snd (bounds_at dt q))).
Proof.
  intros Hq. destruct (cast_div100 dt Hq) as [Hhi Hlo].
  unfold torch_clamp. rewrite Hlo, Hhi. reflexivity.
Qed.

(** on a tensor of doubles the candidates are not rounded *)
Lemma step_metrics_float64
      (classifier : tensor -> result tensor)
      (nll_criterion ece_criterion accuracy : tensor -> labels -> result float)
      (t : tensor) (labels_val : labels) (q : nat) :
  q <= 4000 ->
  step_metrics float64 classifier nll_criterion ece_criterion accuracy
    t labels_val q =
  match classifier (clamp t (fneg (div100 q)) (div100 q)) with
  | Raise e => Raise e
  | Ok logits =>
      match nll_criterion logits labels_val with
      | Raise e => Raise e
      | Ok nll =>
          match ece_criterion logits labels_val with
          | Raise e => Raise e
          | Ok ece =>
              match accuracy logits labels_val with
              | Raise e => Raise e
              | Ok acc => Ok (nll, ece, acc)
              end
          end
      end
  end.
Proof.
  intros Hq. unfold step_metrics.
  rewrite (torch_clamp_div100 float64 t Hq). reflexivity.
Qed.

(** the steps of a search on a tensor of doubles, by evaluation *)
Ltac float64_steps :=
  let q := fresh "q" in
  let Hq := fresh "Hq" in
  first [ intros q Hq; rewrite step_metrics_float64 by lia; reflexivity
        | intros q Hq; reflexivity ].

(** * The grid search *)

Lemma with_clip_after_steps (n : nat) (cv : string) (c : float) :
  with_clip c (after_steps n (Calibrator cv inf (Some NegInf))) =
  Calibrator cv c (Some NegInf).
Proof. destruct n; reflexivity. Qed.

Lemma is_finite_lt_inf (x : float) : is_finite x = true -> flt x inf = true.
Proof. destruct x; simpl; congruence. Qed.

Lemma nth_candidates (n q : nat) :
  q < n -> nth q (candidates n) NaN = div100 q.
Proof.
  intros Hq. unfold candidates.
  rewrite (nth_indep _ NaN (div100 0)) by (rewrite length_map, length_seq; lia).
  rewrite map_nth, seq_nth by lia. reflexivity.
Qed.

Section SearchSelect.
Variable body : nat -> locals -> M calibrator locals.
Variable sm : nat -> result (float * float * float).
Hypothesis Hbody : body_follows body sm.
Variables nv ev av : nat -> float.
Variable n : nat.
Hypothesis Hm : metrics_are sm nv ev av n.

Lemma search_selects_ece :
  (exists q, q < n /\ flt (ev q) inf = true) ->
  selects_first_min (search n body) "ece" ev n.
Proof.
  intros Hex self Hcv.
  destruct (best_first_min ev Hex) as (q & Hq & Hb).
  exists q. split; [exact Hq|].
  rewrite (search_returns Hbody Hm). unfold search_end.
  rewrite Hcv. cbn [String.eqb Ascii.eqb Bool.eqb andb].
  rewrite with_clip_after_steps.
  pose proof (run_updates_ece nv ev av n) as He. rewrite Hb in He.
  injection He as _ ->. reflexivity.
Qed.

Lemma search_selects_nll :
  (exists q, q < n /\ flt (nv q) inf = true) ->
  selects_first_min (search n body) "nll" nv n.
Proof.
  intros Hex self Hcv.
  destruct (best_first_min nv Hex) as (q & Hq & Hb).
  exists q. split; [exact Hq|].
  rewrite (search_returns Hbody Hm). unfold search_end.
  rewrite Hcv. cbn [String.eqb Ascii.eqb Bool.eqb andb].
  rewrite with_clip_after_steps.
  pose proof (run_updates_nll nv ev av n) as He. rewrite Hb in He.
  injection He as _ ->. reflexivity.
Qed.

(** nothing below +inf: the threshold is left at +inf *)
Lemma search_keeps_inf_ece (self : calibrator) :
  cross_validate self = "ece"%string ->
  (forall q, q < n -> flt (ev q) inf = false) ->
  search n body self = (Ok tt, Calibrator "ece" inf (Some NegInf)).
Proof.
  intros Hcv Hall.
  rewrite (search_returns Hbody Hm). unfold search_end.
  rewrite Hcv. cbn [String.eqb Ascii.eqb Bool.eqb andb].
  rewrite with_clip_after_steps.
  pose proof (run_updates_ece nv ev av n) as He.
  rewrite (best_untouched ev Hall) in He.
  injection He as _ ->. reflexivity.
Qed.

Lemma search_keeps_inf_nll (self : calibrator) :
  cross_validate self = "nll"%string ->
  (forall q, q < n -> flt (nv q) inf = false) ->
  search n body self = (Ok tt, Calibrator "nll" inf (Some NegInf)).
Proof.
  intros Hcv Hall.
  rewrite (search_returns Hbody Hm). unfold search_end.
  rewrite Hcv. cbn [String.eqb Ascii.eqb Bool.eqb andb].
  rewrite with_clip_after_steps.
  pose proof (run_updates_nll nv ev av n) as He.
  rewrite (best_untouched nv Hall) in He.
  injection He as _ ->. reflexivity.
Qed.

(** with finite metrics the threshold ends on a scanned candidate *)
Lemma search_ends_on_candidate (self : calibrator) :
  0 < n ->
  (forall q, q < n -> is_finite (nv q) = true /\ is_finite (ev q) = true) ->
  exists q, q < n /\
    search n body self =
    (Ok tt, Calibrator (cross_validate self) (div100 q) (Some NegInf)).
Proof.
  intros Hn Hfin.
  destruct (String.eqb (cross_validate self) "ece") eqn:Eece.
  - apply String.eqb_eq in Eece.
    destruct (@search_selects_ece) with (self := self)
      as (q & (Hq & _) & Hrun); [|exact Eece|].
    + exists 0. split; [exact Hn|].
      apply is_finite_lt_inf. apply Hfin. exact Hn.
    + exists q. rewrite Eece. split; assumption.
  - destruct (String.eqb (cross_validate self) "nll") eqn:Enll.
    + apply String.eqb_eq in Enll.
      destruct (@search_selects_nll) with (self := self)
        as (q & (Hq & _) & Hrun); [|exact Enll|].
      * exists 0. split; [exact Hn|].
        apply is_finite_lt_inf. apply Hfin. exact Hn.
      * exists q. rewrite Enll. split; assumption.
    + exists (n - 1). split; [lia|].
      rewrite (search_returns Hbody Hm). unfold search_end.
      rewrite Eece, Enll. destruct n; [lia|].
      simpl. rewrite Nat.sub_0_r. reflexivity.
Qed.
End SearchSelect.

(** any other criterion: the threshold of the last iteration stays *)
Lemma search_other_criterion
      (body : nat -> locals -> M calibrator locals)
      (sm : nat -> result (float * float * float))
      (nv ev av : nat -> float) (n : nat) (self : calibrator) :
  body_follows body sm ->
  metrics_are sm nv ev av (S n) ->
  cross_validate self <> "ece"%string ->
  cross_validate self <> "nll"%string ->
  search (S n) body self =
  (Ok tt, Calibrator (cross_validate self) (div100 n) (Some NegInf)).
Proof.
  intros Hbody Hm Hece Hnll.
  rewrite (search_returns Hbody Hm). unfold search_end.
  apply String.eqb_neq in Hece, Hnll. rewrite Hece, Hnll. reflexivity.
Qed.

Section SearchTie.
Variable body : nat -> locals -> M calibrator locals.
Variable sm : nat -> result (float * float * float).
Hypothesis Hbody : body_follows body sm.
Variables nv ev av : nat -> float.
Variable n : nat.
Hypothesis Hm : metrics_are sm nv ev av n.

Lemma search_result_ece (self : calibrator) :
  cross_validate self = "ece"%string ->
  search n body self =
  (Ok tt, Calibrator "ece" (snd (best ev n)) (Some NegInf)).
Proof.
  intros Hcv. rewrite (search_returns Hbody Hm). unfold search_end.
  rewrite Hcv. cbn [String.eqb Ascii.eqb Bool.eqb andb].
  rewrite with_clip_after_steps, <- (run_updates_ece nv ev av).
  reflexivity.
Qed.

Lemma search_result_nll (self : calibrator) :
  cross_validate self = "nll"%string ->
  search n body self =
  (Ok tt, Calibrator "nll" (snd (best nv n)) (Some NegInf)).
Proof.
  intros Hcv. rewrite (search_returns Hbody Hm). unfold search_end.
  rewrite Hcv. cbn [String.eqb Ascii.eqb Bool.eqb andb].
  rewrite with_clip_after_steps, <- (run_updates_nll nv ev av).
  reflexivity.
Qed.

Lemma best_tie (v : nat -> float) (q1 q2 : nat) :
  q1 < q2 -> feq (v q1) (v q2) = true -> snd (best v n) <> div100 q2.
Proof.
  intros Hlt Heq.
  destruct (best_spec v n) as [_ [Hinit | (q & Hq & Hb & _)]].
  - rewrite Hinit. discriminate.
  - rewrite Hb. simpl. intros H. apply div100_inj in H.
    exact (first_min_tie Hq Hlt Heq H).
Qed.

Lemma search_tie (self : calibrator) (q1 q2 : nat) :
  q1 < q2 ->
  (cross_validate self = "ece"%string -> feq (ev q1) (ev q2) = true ->
   feature_clip (snd (search n body self)) <> div100 q2) /\
  (cross_validate self = "nll"%string -> feq (nv q1) (nv q2) = true ->
   feature_clip (snd (search n body self)) <> div100 q2).
Proof.
  intros Hlt. split; intros Hcv Heq.
  - rewrite (search_result_ece _ Hcv). apply (best_tie ev Hlt Heq).
  - rewrite (search_result_nll _ Hcv). apply (best_tie nv Hlt Heq).
Qed.
End SearchTie.

(** C1 (as amended).  In [FeatureClippingCalibrator] and
    [FeatureClippingCalibrator2], when every step returns its metrics and
    some step has a value of the selecting metric below +inf,
    [set_feature_clip] leaves the threshold at the first scanned candidate at
    which that metric is minimal (NaN values are never selected); of two
    steps with equal values the later one is never chosen.  When no step has
    a value of the selecting metric below +inf (all are +inf or NaN), the
    threshold is left at +inf. *)
Theorem first_scanned_minimum_wins :
  (forall (dt : dtype) (classifier : tensor -> result tensor)
          (nll_criterion ece_criterion accuracy
           : tensor -> labels -> result float)
          (features_val logits_val : tensor) (labels_val : labels)
          (nv ev av : nat -> float),
      metrics_are (step_metrics dt classifier nll_criterion ece_criterion
                     accuracy features_val labels_val) nv ev av 2000 ->
      let run := FeatureClippingCalibrator.set_feature_clip dt classifier
                   nll_criterion ece_criterion accuracy
                   features_val logits_val labels_val in
      ((exists q, q < 2000 /\ flt (ev q) inf = true) ->
       selects_first_min run "ece" ev 2000) /\
      ((exists q, q < 2000 /\ flt (nv q) inf = true) ->
       selects_first_min run "nll" nv 2000) /\
      (forall self q1 q2, q1 < q2 ->
         (cross_validate self = "ece"%string -> feq (ev q1) (ev q2) = true ->
          feature_clip (snd (run self)) <> div100 q2) /\
         (cross_validate self = "nll"%string -> feq (nv q1) (nv q2) = true ->
          feature_clip (snd (run self)) <> div100 q2)) /\
      (forall self,
         (cross_validate self = "ece"%string ->
          (forall q, q < 2000 -> flt (ev q) inf = false) ->
          run self = (Ok tt, Calibrator "ece" inf (Some NegInf))) /\
         (cross_validate self = "nll"%string ->
          (forall q, q < 2000 -> flt (nv q) inf = false) ->
          run self = (Ok tt, Calibrator "nll" inf (Some NegInf))))) /\
  (forall (dt : dtype) (nll_criterion ece_criterion accuracy
           : tensor -> labels -> result float)
          (features_val logits_val : tensor) (labels_val : labels)
          (nv ev av : nat -> float),
      metrics_are (step_metrics dt FeatureClippingCalibrator2.classifier
                     nll_criterion ece_criterion accuracy
                     logits_val labels_val) nv ev av 4000 ->
      let run := FeatureClippingCalibrator2.set_feature_clip
                   dt nll_criterion ece_criterion accuracy
                   features_val logits_val labels_val in
      ((exists q, q < 4000 /\ flt (ev q) inf = true) ->
       selects_first_min run "ece" ev 4000) /\
      ((exists q, q < 4000 /\ flt (nv q) inf = true) ->
       selects_first_min run "nll" nv 4000) /\
      (forall self q1 q2, q1 < q2 ->
         (cross_validate self = "ece"%string -> feq (ev q1) (ev q2) = true ->
          feature_clip (snd (run self)) <> div100 q2) /\
         (cross_validate self = "nll"%string -> feq (nv q1) (nv q2) = true ->
          feature_clip (snd (run self)) <> div100 q2)) /\
      (forall self,
         (cross_validate self = "ece"%string ->
          (forall q, q < 4000 -> flt (ev q) inf = false) ->
          run self = (Ok tt, Calibrator "ece" inf (Some NegInf))) /\
         (cross_validate self = "nll"%string ->
          (forall q, q < 4000 -> flt (nv q) inf = false) ->
          run self = (Ok tt, Calibrator "nll" inf (Some NegInf))))).
Proof.
  split.
  - intros dt classifier nll_criterion ece_criterion accuracy
           features_val logits_val labels_val nv ev av Hm run.
    subst run. rewrite calibrator_is_search.
    pose proof (calibrator_body_follows dt classifier nll_criterion
                  ece_criterion accuracy features_val labels_val) as Hbody.
    split; [|split; [|split]].
    + exact (search_selects_ece Hbody Hm).
    + exact (search_selects_nll Hbody Hm).
    + intros self q1 q2 Hlt. exact (search_tie Hbody Hm self Hlt).
    + intros self. split; intros Hcv Hall.
      * exact (search_keeps_inf_ece Hbody Hm self Hcv Hall).
      * exact (search_keeps_inf_nll Hbody Hm self Hcv Hall).
  - intros dt nll_criterion ece_criterion accuracy
           features_val logits_val labels_val nv ev av Hm run.
    subst run. rewrite calibrator2_is_search.
    pose proof (calibrator2_body_follows dt nll_criterion ece_criterion
                  accuracy logits_val labels_val) as Hbody.
    split; [|split; [|split]].
    + exact (search_selects_ece Hbody Hm).
    + exact (search_selects_nll Hbody Hm).
    + intros self q1 q2 Hlt. exact (search_tie Hbody Hm self Hlt).
    + intros self. split; intros Hcv Hall.
      * exact (search_keeps_inf_ece Hbody Hm self Hcv Hall).
      * exact (search_keeps_inf_nll Hbody Hm self Hcv Hall).
Qed.

Lemma first_scanned_minimum_wins_witness :
  let run := FeatureClippingCalibrator.set_feature_clip float64 head_id
               (const_metric (Fin 1)) entry_metric (const_metric (Fin 1))
               [[Fin 5]] [[Fin 5]] [0] in
  (exists q, q < 2000 /\ flt (entry_at q) inf = true) /\
  selects_first_min run "ece" entry_at 2000.
Proof.
  intros run.
  assert (Hex : exists q, q < 2000 /\ flt (entry_at q) inf = true)
    by (exists 0; split; [lia | reflexivity]).
  split; [exact Hex|].
  destruct first_scanned_minimum_wins as [Hcal _].
  destruct (Hcal float64 head_id (const_metric (Fin 1)) entry_metric
                 (const_metric (Fin 1)) [[Fin 5]] [[Fin 5]] [0]
                 (fun _ => Fin 1) entry_at (fun _ => Fin 1))
    as [Hece _].
  - float64_steps.
  - exact (Hece Hex).
Defined.

(** with the distance to 3 as ECE the search ends on 3.00, the first of the
    candidates at which the metric is least *)
Example search_ends_on_3 :
  FeatureClippingCalibrator.set_feature_clip float64 head_id
    (const_metric (Fin 1)) entry_metric (const_metric (Fin 1))
    [[Fin 5]] [[Fin 5]] [0] (FeatureClippingCalibrator.__init__ "ece") =
  (Ok tt, Calibrator "ece" (Fin (300 # 100)%Q) (Some NegInf)).
Proof. vm_compute. reflexivity. Qed.

(** a constant metric: the first candidate, 0.00, is kept *)
Example search_tie_keeps_first :
  FeatureClippingCalibrator.set_feature_clip float64 head_id
    (const_metric (Fin 1)) entry_metric (const_metric (Fin 1))
    [[Fin 5]] [[Fin 5]] [0] (FeatureClippingCalibrator.__init__ "nll") =
  (Ok tt, Calibrator "nll" (Fin (0 # 100)%Q) (Some NegInf)).
Proof. vm_compute. reflexivity. Qed.

(** C1 as stated fails.  With an NLL that is +inf at every step and the
    criterion 'nll', the first candidate at which the NLL is minimal is 0.00,
    yet [set_feature_clip] returns with the threshold at +inf, which is no
    scanned candidate; the same happens under 'ece' with an ECE that is NaN
    at every step. *)
Lemma first_minimum_not_selected_when_all_inf :
  let run := FeatureClippingCalibrator.set_feature_clip float64 head_id
               (const_metric PosInf) (const_metric NaN) (const_metric (Fin 1))
               [[Fin 5]] [[Fin 5]] [0] in
  metrics_are (step_metrics float64 head_id (const_metric PosInf)
      (const_metric NaN)
                 (const_metric (Fin 1)) [[Fin 5]] [0])
              (fun _ => PosInf) (fun _ => NaN) (fun _ => Fin 1) 2000 /\
  run (FeatureClippingCalibrator.__init__ "nll") =
  (Ok tt, Calibrator "nll" inf (Some NegInf)) /\
  run (FeatureClippingCalibrator.__init__ "ece") =
  (Ok tt, Calibrator "ece" inf (Some NegInf)) /\
  (forall q,
      feature_clip (snd (run (FeatureClippingCalibrator.__init__ "nll")))
      <> div100 q) /\
  ~ selects_first_min run "nll" (fun _ => PosInf) 2000.
Proof.
  intros run.
  assert (Hrun : run (FeatureClippingCalibrator.__init__ "nll") =
                 (Ok tt, Calibrator "nll" inf (Some NegInf)))
    by (vm_compute; reflexivity).
  split; [float64_steps|].
  split; [exact Hrun|].
  split; [vm_compute; reflexivity|].
  split.
  - intros q. rewrite Hrun. discriminate.
  - intros Hsel.
    destruct (Hsel (FeatureClippingCalibrator.__init__ "nll") eq_refl)
      as (q & _ & Hq).
    rewrite Hrun in Hq. discriminate.
Qed.

Lemma div100_times_increment (q : nat) :
  feq (div100 q) (Fin (inject_Z (Z.of_nat q) * (1 # 100))%Q) = true.
Proof.
  unfold div100. apply feq_Fin. unfold Qeq. simpl. lia.
Qed.

(** C2.  In [FeatureClippingCalibrator] and [FeatureClippingCalibrator2]:
    the threshold an iteration of index [q] sets is [q/100], that is [q]
    times the increment 1/100; and when every step returns finite NLL and ECE
    values, the recorded candidates are [q/100] for [q] below the step count,
    and [set_feature_clip] returns with the threshold equal to one of them,
    whatever the criterion. *)
Theorem threshold_is_a_scanned_candidate :
  (forall q, feq (div100 q) (Fin (inject_Z (Z.of_nat q) * (1 # 100))%Q) = true)
  /\
  (forall (dt : dtype) (classifier : tensor -> result tensor)
          (nll_criterion ece_criterion accuracy
           : tensor -> labels -> result float)
          (features_val logits_val : tensor) (labels_val : labels),
      (forall q l self,
          feature_clip
            (snd (FeatureClippingCalibrator.loop_body dt classifier
                    nll_criterion ece_criterion accuracy
                    features_val labels_val q l self)) = div100 q) /\
      (forall (nv ev av : nat -> float) (self : calibrator),
          metrics_are (step_metrics dt classifier nll_criterion ece_criterion
                         accuracy features_val labels_val) nv ev av 2000 ->
          (forall q, q < 2000 ->
                     is_finite (nv q) = true /\ is_finite (ev q) = true) ->
          (exists l self',
              FeatureClippingCalibrator.scan dt classifier nll_criterion
                ece_criterion accuracy features_val logits_val labels_val
                self = (Ok l, self') /\
              cs l = candidates 2000 /\
              forall q, q < 2000 -> nth q (cs l) NaN = div100 q) /\
          (exists q, q < 2000 /\
              FeatureClippingCalibrator.set_feature_clip dt classifier
                nll_criterion ece_criterion accuracy
                features_val logits_val labels_val self =
              (Ok tt,
               Calibrator (cross_validate self) (div100 q) (Some NegInf)))))
  /\
  (forall (dt : dtype) (nll_criterion ece_criterion accuracy
           : tensor -> labels -> result float)
          (features_val logits_val : tensor) (labels_val : labels),
      (forall q l self,
          feature_clip
            (snd (FeatureClippingCalibrator2.loop_body dt nll_criterion
                    ece_criterion accuracy logits_val labels_val q l self))
          = div100 q) /\
      (forall (nv ev av : nat -> float) (self : calibrator),
          metrics_are (step_metrics dt FeatureClippingCalibrator2.classifier
                         nll_criterion ece_criterion accuracy
                         logits_val labels_val) nv ev av 4000 ->
          (forall q, q < 4000 ->
                     is_finite (nv q) = true /\ is_finite (ev q) = true) ->
          (exists l self',
              FeatureClippingCalibrator2.scan dt nll_criterion
                ece_criterion accuracy features_val logits_val labels_val
                self = (Ok l, self') /\
              cs l = candidates 4000 /\
              forall q, q < 4000 -> nth q (cs l) NaN = div100 q) /\
          (exists q, q < 4000 /\
              FeatureClippingCalibrator2.set_feature_clip
                dt nll_criterion ece_criterion accuracy
                features_val logits_val labels_val self =
              (Ok tt,
               Calibrator (cross_validate self) (div100 q) (Some NegInf))))).
Proof.
  split; [exact div100_times_increment|]. split.
  - intros dt classifier nll_criterion ece_criterion accuracy
           features_val logits_val labels_val.
    pose proof (calibrator_body_follows dt classifier nll_criterion
                  ece_criterion accuracy features_val labels_val) as Hbody.
    split.
    + intros q l self. rewrite Hbody.
      destruct (step_metrics _ _ _ _ _ _ _ q) as [[[nl ec] ac]|e]; reflexivity.
    + intros nv ev av self Hm Hfin. split.
      * rewrite calibrator_scan_is_loop, (scan_loop_returns Hbody Hm).
        eexists. eexists. split; [reflexivity|].
        rewrite run_updates_cs. split; [reflexivity|].
        intros q Hq. apply nth_candidates. exact Hq.
      * rewrite calibrator_is_search.
        apply (search_ends_on_candidate Hbody Hm); [lia | exact Hfin].
  - intros dt nll_criterion ece_criterion accuracy
           features_val logits_val labels_val.
    pose proof (calibrator2_body_follows dt nll_criterion ece_criterion
                  accuracy logits_val labels_val) as Hbody.
    split.
    + intros q l self. rewrite Hbody.
      destruct (step_metrics _ _ _ _ _ _ _ q) as [[[nl ec] ac]|e]; reflexivity.
    + intros nv ev av self Hm Hfin. split.
      * rewrite calibrator2_scan_is_loop, (scan_loop_returns Hbody Hm).
        eexists. eexists. split; [reflexivity|].
        rewrite run_updates_cs. split; [reflexivity|].
        intros q Hq. apply nth_candidates. exact Hq.
      * rewrite calibrator2_is_search.
        apply (search_ends_on_candidate Hbody Hm); [lia | exact Hfin].
Qed.

Lemma threshold_is_a_scanned_candidate_witness :
  metrics_are (step_metrics float64 head_id (const_metric (Fin 1))
                 (const_metric (Fin (1 # 2)%Q)) (const_metric (Fin 1))
                 [[Fin 5]] [0])
              (fun _ => Fin 1) (fun _ => Fin (1 # 2)%Q) (fun _ => Fin 1) 2000
  /\
  exists q, q < 2000 /\
    FeatureClippingCalibrator.set_feature_clip float64 head_id (const_metric
        (Fin 1))
      (const_metric (Fin (1 # 2)%Q)) (const_metric (Fin 1))
      [[Fin 5]] [[Fin 5]] [0] (FeatureClippingCalibrator.__init__ "ece") =
    (Ok tt, Calibrator "ece" (div100 q) (Some NegInf)).
Proof.
  assert (Hm : metrics_are
                 (step_metrics float64 head_id (const_metric (Fin 1))
                    (const_metric (Fin (1 # 2)%Q)) (const_metric (Fin 1))
                    [[Fin 5]] [0])
                 (fun _ => Fin 1) (fun _ => Fin (1 # 2)%Q) (fun _ => Fin 1)
                 2000)
    by (float64_steps).
  split; [exact Hm|].
  destruct threshold_is_a_scanned_candidate as (_ & Hcal & _).
  destruct (Hcal float64 head_id (const_metric (Fin 1)) (const_metric (Fin (1
      # 2)%Q))
                 (const_metric (Fin 1)) [[Fin 5]] [[Fin 5]] [0])
    as [_ Hrun].
  destruct (Hrun (fun _ => Fin 1) (fun _ => Fin (1 # 2)%Q) (fun _ => Fin 1)
                 (FeatureClippingCalibrator.__init__ "ece") Hm) as [_ Hsel].
  - intros q _. split; reflexivity.
  - exact Hsel.
Defined.

(** C10.  When the criterion is neither 'ece' nor 'nll' and every step
    returns its metrics, [set_feature_clip] returns without a raise and the
    threshold is the candidate of the last iteration: 19.99 (1999/100) in
    [FeatureClippingCalibrator], 39.99 (3999/100) in
    [FeatureClippingCalibrator2], whatever the metric values. *)
Theorem other_criterion_keeps_last_candidate :
  (forall (dt : dtype) (classifier : tensor -> result tensor)
          (nll_criterion ece_criterion accuracy
           : tensor -> labels -> result float)
          (features_val logits_val : tensor) (labels_val : labels)
          (nv ev av : nat -> float) (self : calibrator),
      metrics_are (step_metrics dt classifier nll_criterion ece_criterion
                     accuracy features_val labels_val) nv ev av 2000 ->
      cross_validate self <> "ece"%string ->
      cross_validate self <> "nll"%string ->
      FeatureClippingCalibrator.set_feature_clip dt classifier nll_criterion
        ece_criterion accuracy features_val logits_val labels_val self =
      (Ok tt,
       Calibrator (cross_validate self) (Fin (1999 # 100)%Q) (Some NegInf)))
  /\
  (forall (dt : dtype) (nll_criterion ece_criterion accuracy
           : tensor -> labels -> result float)
          (features_val logits_val : tensor) (labels_val : labels)
          (nv ev av : nat -> float) (self : calibrator),
      metrics_are (step_metrics dt FeatureClippingCalibrator2.classifier
                     nll_criterion ece_criterion accuracy
                     logits_val labels_val) nv ev av 4000 ->
      cross_validate self <> "ece"%string ->
      cross_validate self <> "nll"%string ->
      FeatureClippingCalibrator2.set_feature_clip dt nll_criterion
        ece_criterion accuracy features_val logits_val labels_val self =
      (Ok tt,
       Calibrator (cross_validate self) (Fin (3999 # 100)%Q) (Some NegInf))).
Proof.
  split.
  - intros dt classifier nll_criterion ece_criterion accuracy
           features_val logits_val labels_val nv ev av self Hm Hece Hnll.
    rewrite calibrator_is_search.
    change 2000 with (S 1999) in *.
    rewrite (@search_other_criterion _ _ nv ev av 1999 self
               (calibrator_body_follows dt classifier nll_criterion
                  ece_criterion accuracy features_val labels_val)
               Hm Hece Hnll).
    reflexivity.
  - intros dt nll_criterion ece_criterion accuracy
           features_val logits_val labels_val nv ev av self Hm Hece Hnll.
    rewrite calibrator2_is_search.
    change 4000 with (S 3999) in *.
    rewrite (@search_other_criterion _ _ nv ev av 3999 self
               (calibrator2_body_follows dt nll_criterion
                  ece_criterion accuracy logits_val labels_val)
               Hm Hece Hnll).
    reflexivity.
Qed.

Lemma other_criterion_keeps_last_candidate_witness :
  FeatureClippingCalibrator.set_feature_clip float64 head_id (const_metric
      (Fin 1))
    entry_metric (const_metric (Fin 1)) [[Fin 5]] [[Fin 5]] [0]
    (FeatureClippingCalibrator.__init__ "acc") =
  (Ok tt, Calibrator "acc" (Fin (1999 # 100)%Q) (Some NegInf)) /\
  FeatureClippingCalibrator2.set_feature_clip float64 (const_metric (Fin 1))
    entry_metric (const_metric (Fin 1)) [[Fin 5]] [[Fin 5]] [0]
    (FeatureClippingCalibrator2.__init__ "acc") =
  (Ok tt, Calibrator "acc" (Fin (3999 # 100)%Q) (Some NegInf)).
Proof.
  destruct other_criterion_keeps_last_candidate as [Hcal Hcal2].
  split.
  - apply (Hcal float64 head_id (const_metric (Fin 1)) entry_metric
                (const_metric (Fin 1)) [[Fin 5]] [[Fin 5]] [0]
                (fun _ => Fin 1) entry_at (fun _ => Fin 1)
                (FeatureClippingCalibrator.__init__ "acc")).
    + float64_steps.
    + discriminate.
    + discriminate.
  - apply (Hcal2 float64 (const_metric (Fin 1)) entry_metric
                 (const_metric (Fin 1)) [[Fin 5]] [[Fin 5]] [0]
                 (fun _ => Fin 1) entry_at (fun _ => Fin 1)
                 (FeatureClippingCalibrator2.__init__ "acc")).
    + float64_steps.
    + discriminate.
    + discriminate.
Defined.

(** * The empty validation set *)

Lemma step_metrics_empty
      (dt : dtype) (classifier : tensor -> result tensor)
      (nll_criterion ece_criterion accuracy : tensor -> labels -> result float)
      (lg : tensor) (nl ec ac : float) (q : nat) :
  q <= 4000 ->
  classifier [] = Ok lg ->
  nll_criterion lg [] = Ok nl ->
  ece_criterion lg [] = Ok ec ->
  accuracy lg [] = Ok ac ->
  step_metrics dt classifier nll_criterion ece_criterion accuracy [] [] q =
  Ok (nl, ec, ac).
Proof.
  intros Hq Hc Hn He Ha. unfold step_metrics.
  rewrite (torch_clamp_div100 dt [] Hq). simpl clamp.
  rewrite Hc, Hn, He, Ha. reflexivity.
Qed.

Lemma step_metrics_empty_raise
      (dt : dtype) (classifier : tensor -> result tensor)
      (nll_criterion ece_criterion accuracy : tensor -> labels -> result float)
      (q : nat) (e : exn) :
  q <= 4000 ->
  step_metrics dt classifier nll_criterion ece_criterion accuracy [] [] q =
  Raise e ->
  classifier [] = Raise e \/
  exists lg, classifier [] = Ok lg /\
             (nll_criterion lg [] = Raise e \/
              ece_criterion lg [] = Raise e \/
              accuracy lg [] = Raise e).
Proof.
  intros Hq. unfold step_metrics.
  rewrite (torch_clamp_div100 dt [] Hq). simpl clamp.
  destruct (classifier []) as [lg|e1]; [|intros H; left; congruence].
  intros H. right. exists lg. split; [reflexivity|].
  destruct (nll_criterion lg []) as [nl|e1]; [|left; congruence].
  destruct (ece_criterion lg []) as [ec|e1]; [|right; left; congruence].
  destruct (accuracy lg []) as [ac|e1];
    [discriminate | right; right; congruence].
Qed.

Lemma nan_not_below (x y : float) : is_nan x = true -> flt x y = false.
Proof. destruct x; simpl; congruence. Qed.

Section EmptySearch.
Variable dt : dtype.
Variable classifier : tensor -> result tensor.
Variables nll_criterion ece_criterion accuracy
  : tensor -> labels -> result float.
Variable body : nat -> locals -> M calibrator locals.
Hypothesis Hbody :
  body_follows body
    (step_metrics dt classifier nll_criterion ece_criterion accuracy [] []).
Variable n : nat.
Hypothesis Hn : n <= 4000.

Lemma empty_search_raises (self : calibrator) (e : exn) :
  fst (search n body self) = Raise e ->
  classifier [] = Raise e \/
  exists lg, classifier [] = Ok lg /\
             (nll_criterion lg [] = Raise e \/
              ece_criterion lg [] = Raise e \/
              accuracy lg [] = Raise e).
Proof.
  intros H. destruct (search_raises Hbody _ _ H) as (q & Hlt & Hq).
  apply (@step_metrics_empty_raise dt classifier nll_criterion ece_criterion
           accuracy q e); [lia | exact Hq].
Qed.

Lemma empty_search_returns (self : calibrator) (lg : tensor)
      (nl ec ac : float) :
  classifier [] = Ok lg ->
  nll_criterion lg [] = Ok nl ->
  ece_criterion lg [] = Ok ec ->
  accuracy lg [] = Ok ac ->
  fst (search n body self) = Ok tt /\
  (cross_validate self = "ece"%string -> is_nan ec = true ->
   search n body self = (Ok tt, Calibrator "ece" inf (Some NegInf))) /\
  (cross_validate self = "nll"%string -> is_nan nl = true ->
   search n body self = (Ok tt, Calibrator "nll" inf (Some NegInf))).
Proof.
  intros Hc Hnl He Ha.
  assert (Hm : metrics_are
                 (step_metrics dt classifier nll_criterion ece_criterion
                    accuracy [] [])
                 (fun _ => nl) (fun _ => ec) (fun _ => ac) n)
    by (intros q Hq;
        apply (@step_metrics_empty dt classifier nll_criterion ece_criterion
                 accuracy lg nl ec ac q); [lia | assumption ..]).
  split; [|split].
  - rewrite (search_returns Hbody Hm). reflexivity.
  - intros Hcv Hnan. apply (search_keeps_inf_ece Hbody Hm _ Hcv).
    intros q _. apply nan_not_below. exact Hnan.
  - intros Hcv Hnan. apply (search_keeps_inf_nll Hbody Hm _ Hcv).
    intros q _. apply nan_not_below. exact Hnan.
Qed.
End EmptySearch.

(** C7 (as amended).  [set_feature_clip] of the two calibrators does not
    check for an empty validation set.  On empty tensors it raises only what
    a collaborator raises on the empty batch; when the head, the two criteria
    and the accuracy return values there it returns normally, and when the
    selecting metric is NaN the threshold is left at +inf. *)
Theorem empty_validation_set_is_not_checked :
  (forall (dt : dtype) (classifier : tensor -> result tensor)
          (nll_criterion ece_criterion accuracy
           : tensor -> labels -> result float)
          (self : calibrator),
      let run := FeatureClippingCalibrator.set_feature_clip dt classifier
                   nll_criterion ece_criterion accuracy [] [] [] in
      (forall e, fst (run self) = Raise e ->
         classifier [] = Raise e \/
         exists lg, classifier [] = Ok lg /\
                    (nll_criterion lg [] = Raise e \/
                     ece_criterion lg [] = Raise e \/
                     accuracy lg [] = Raise e)) /\
      (forall lg nl ec ac,
          classifier [] = Ok lg ->
          nll_criterion lg [] = Ok nl ->
          ece_criterion lg [] = Ok ec ->
          accuracy lg [] = Ok ac ->
          fst (run self) = Ok tt /\
          (cross_validate self = "ece"%string -> is_nan ec = true ->
           run self = (Ok tt, Calibrator "ece" inf (Some NegInf))) /\
          (cross_validate self = "nll"%string -> is_nan nl = true ->
           run self = (Ok tt, Calibrator "nll" inf (Some NegInf))))) /\
  (forall (dt : dtype) (nll_criterion ece_criterion accuracy
           : tensor -> labels -> result float)
          (self : calibrator),
      let run := FeatureClippingCalibrator2.set_feature_clip
                   dt nll_criterion ece_criterion accuracy [] [] [] in
      (forall e, fst (run self) = Raise e ->
         nll_criterion [] [] = Raise e \/
         ece_criterion [] [] = Raise e \/
         accuracy [] [] = Raise e) /\
      (forall nl ec ac,
          nll_criterion [] [] = Ok nl ->
          ece_criterion [] [] = Ok ec ->
          accuracy [] [] = Ok ac ->
          fst (run self) = Ok tt /\
          (cross_validate self = "ece"%string -> is_nan ec = true ->
           run self = (Ok tt, Calibrator "ece" inf (Some NegInf))) /\
          (cross_validate self = "nll"%string -> is_nan nl = true ->
           run self = (Ok tt, Calibrator "nll" inf (Some NegInf))))).
Proof.
  split.
  - intros dt classifier nll_criterion ece_criterion accuracy self run.
    subst run. rewrite calibrator_is_search.
    pose proof (calibrator_body_follows dt classifier nll_criterion
                  ece_criterion accuracy [] []) as Hbody.
    split.
    + intros e. apply (empty_search_raises Hbody). lia.
    + intros lg nl ec ac. apply (empty_search_returns Hbody). lia.
  - intros dt nll_criterion ece_criterion accuracy self run.
    subst run. rewrite calibrator2_is_search.
    pose proof (calibrator2_body_follows dt nll_criterion ece_criterion
                  accuracy [] []) as Hbody.
    split.
    + intros e H.
      destruct (@empty_search_raises _ _ _ _ _ _ Hbody 4000 ltac:(lia) _ _ H)
        as [Hc | (lg & Hc & Hr)]; [discriminate|].
      injection Hc as <-. exact Hr.
    + intros nl ec ac. apply (empty_search_returns Hbody); [lia|reflexivity].
Qed.

Lemma empty_validation_set_is_not_checked_witness :
  FeatureClippingCalibrator.set_feature_clip float64 head_id (const_metric NaN)
    (const_metric NaN) (const_metric NaN) [] [] []
    (FeatureClippingCalibrator.__init__ "ece") =
  (Ok tt, Calibrator "ece" inf (Some NegInf)).
Proof.
  destruct empty_validation_set_is_not_checked as [Hcal _].
  destruct (Hcal float64 head_id (const_metric NaN) (const_metric NaN)
                 (const_metric NaN) (FeatureClippingCalibrator.__init__ "ece"))
    as [_ Hret].
  destruct (Hret [] NaN NaN NaN eq_refl eq_refl eq_refl eq_refl)
    as (_ & Hece & _).
  exact (Hece eq_refl eq_refl).
Defined.

(** C7 as stated fails.  On an empty validation set, with a cross-entropy
    that is NaN there (a mean over no rows) and an ECE that is 0 there (no
    bin is populated), [set_feature_clip] raises nothing: under 'ece' it
    returns with the threshold at 0.00, under 'nll' with the threshold at
    +inf. *)
Lemma empty_validation_set_raises_nothing :
  let run := FeatureClippingCalibrator.set_feature_clip float64 head_id
               (const_metric NaN) (const_metric (Fin 0)) (const_metric NaN)
               [] [] [] in
  run (FeatureClippingCalibrator.__init__ "ece") =
  (Ok tt, Calibrator "ece" (Fin (0 # 100)%Q) (Some NegInf)) /\
  run (FeatureClippingCalibrator.__init__ "nll") =
  (Ok tt, Calibrator "nll" inf (Some NegInf)) /\
  (forall e, fst (run (FeatureClippingCalibrator.__init__ "ece")) <> Raise e) /\
  (forall e, fst (run (FeatureClippingCalibrator.__init__ "nll")) <> Raise e).
Proof.
  intros run.
  assert (Hece : run (FeatureClippingCalibrator.__init__ "ece") =
                 (Ok tt, Calibrator "ece" (Fin (0 # 100)%Q) (Some NegInf)))
    by (vm_compute; reflexivity).
  assert (Hnll : run (FeatureClippingCalibrator.__init__ "nll") =
                 (Ok tt, Calibrator "nll" inf (Some NegInf)))
    by (vm_compute; reflexivity).
  split; [exact Hece|]. split; [exact Hnll|].
  split; intros e; [rewrite Hece | rewrite Hnll]; discriminate.
Qed.

(** * The model wrapper *)

Section Wrapper.
Import ModelWithFeatureClipping.

Variable input : Type.
Variable dt : dtype.
Variable model : input -> result (tensor * tensor).
Variable model_classifier : tensor -> result tensor.
Variables nll_criterion ece_criterion : tensor -> labels -> result float.

Let hundredth : float := Fin (1 # 100)%Q.

Lemma wrapper_collect_state (valid_loader : list (input * labels))
      (ll : list tensor) (yl : list labels) (fl : list tensor)
      (self : wrapper) :
  snd (collect model valid_loader ll yl fl self) = self.
Proof.
  revert ll yl fl. induction valid_loader as [|[x label] rest IH];
    intros ll yl fl; [reflexivity|].
  simpl. unfold bind, call.
  destruct (model x) as [[logits features]|e]; [apply IH | reflexivity].
Qed.

(** the one iteration and the selection, by the answers at 0.01 *)
Lemma wrapper_search (features : tensor) (labels_ : labels)
      (cross_validate : string) (self : wrapper) :
  bind (for_range 1 (loop_body dt model_classifier nll_criterion
                       ece_criterion features labels_) init_locals)
       (select cross_validate) self =
  match torch_clamp dt features (fneg hundredth) hundredth with
  | Raise e => (Raise e, Wrapper hundredth)
  | Ok clipped =>
      match model_classifier clipped with
      | Raise e => (Raise e, Wrapper hundredth)
      | Ok out =>
          match nll_criterion out labels_ with
          | Raise e => (Raise e, Wrapper hundredth)
          | Ok nl =>
              match ece_criterion out labels_ with
              | Raise e => (Raise e, Wrapper hundredth)
              | Ok ec =>
                  (Ok tt,
                   Wrapper
                     (if String.eqb cross_validate "ece"
                      then if fgt ten_million ec then hundredth else inf
                      else if fgt ten_million nl then hundredth else inf))
              end
          end
      end
  end.
Proof.
  subst hundredth.
  cbv [for_range for_range_from loop_body select bind set_clip put
       feature_clipping classifier call get ret init_locals
       feature_clip C nll_val ece_val C_opt_nll C_opt_ece].
  destruct (torch_clamp dt features _ _) as [clipped|e]; [|reflexivity].
  destruct (model_classifier _) as [out|e]; [|reflexivity].
  destruct (nll_criterion out labels_) as [nl|e]; [|reflexivity].
  destruct (ece_criterion out labels_) as [ec|e]; [|reflexivity].
  destruct (fgt ten_million nl), (fgt ten_million ec),
    (String.eqb cross_validate "ece"); reflexivity.
Qed.

(** at 0.01 the conversion of the bounds does not raise *)
Lemma wrapper_clip_returns (features : tensor) :
  exists clipped,
    torch_clamp dt features (fneg hundredth) hundredth = Ok clipped.
Proof.
  subst hundredth. eexists.
  apply (torch_clamp_div100 dt features (q := 1)). lia.
Qed.

Lemma wrapper_set_feature_clip (valid_loader : list (input * labels))
      (cross_validate : string) (self : wrapper) :
  set_feature_clip dt model model_classifier nll_criterion ece_criterion
    valid_loader cross_validate self =
  match fst (collect model valid_loader [] [] [] self) with
  | Raise e => (Raise e, self)
  | Ok (ll, yl, fl) =>
      match cat ll with
      | Raise e => (Raise e, self)
      | Ok _ =>
          match cat yl with
          | Raise e => (Raise e, self)
          | Ok labels_ =>
              match cat fl with
              | Raise e => (Raise e, self)
              | Ok features =>
                  bind (for_range 1 (loop_body dt model_classifier
                                       nll_criterion ece_criterion
                                       features labels_) init_locals)
                       (select cross_validate) self
              end
          end
      end
  end.
Proof.
  unfold set_feature_clip, scan.
  unfold bind at 1 2.
  pose proof (wrapper_collect_state valid_loader [] [] [] self) as Hs.
  destruct (collect model valid_loader [] [] [] self) as [[[[ll yl] fl]|e] s].
  - simpl in Hs. subst s. simpl fst. unfold bind at 1, call at 1.
    destruct (cat ll) as [lg|e]; [|reflexivity].
    unfold bind at 1, call at 1.
    destruct (cat yl) as [labels_|e]; [|reflexivity].
    unfold bind at 1, call at 1.
    destruct (cat fl) as [features|e]; [|reflexivity].
    unfold bind. reflexivity.
  - simpl in Hs. subst s. reflexivity.
Qed.
End Wrapper.

(** C6 (as amended).  In [ModelWithFeatureClipping], when the loader is
    collected without a raise and the NLL and the ECE at the threshold 0.01
    are both below 10^7, [set_feature_clip] returns with the threshold at
    0.01, whatever the criterion: the search has one step and its candidate
    is 0.01. *)
Theorem wrapper_threshold_is_one_hundredth :
  forall (input : Type) (dt : dtype)
         (model : input -> result (tensor * tensor))
         (model_classifier : tensor -> result tensor)
         (nll_criterion ece_criterion : tensor -> labels -> result float)
         (valid_loader : list (input * labels)) (cross_validate : string)
         (self : ModelWithFeatureClipping.wrapper)
         (ll : list tensor) (yl : list labels) (fl : list tensor)
         (logits : tensor) (labels_ : labels)
         (features clipped out : tensor) (nl ec : float),
    fst (ModelWithFeatureClipping.collect model valid_loader [] [] [] self) =
    Ok (ll, yl, fl) ->
    cat ll = Ok logits -> cat yl = Ok labels_ -> cat fl = Ok features ->
    fst (ModelWithFeatureClipping.feature_clipping dt features
           (ModelWithFeatureClipping.Wrapper (Fin (1 # 100)%Q))) =
    Ok clipped ->
    model_classifier clipped = Ok out ->
    nll_criterion out labels_ = Ok nl ->
    ece_criterion out labels_ = Ok ec ->
    flt nl (Fin (10000000 # 1)%Q) = true ->
    flt ec (Fin (10000000 # 1)%Q) = true ->
    ModelWithFeatureClipping.set_feature_clip dt model model_classifier
      nll_criterion ece_criterion valid_loader cross_validate self =
    (Ok tt, ModelWithFeatureClipping.Wrapper (Fin (1 # 100)%Q)).
Proof.
  intros input dt model model_classifier nll_criterion ece_criterion
         valid_loader cross_validate self ll yl fl logits labels_ features
         clipped out nl ec Hcol Hll Hyl Hfl Hclip Hout Hnl Hec Hn He.
  rewrite wrapper_feature_clipping in Hclip. simpl in Hclip.
  rewrite wrapper_set_feature_clip, Hcol, Hll, Hyl, Hfl.
  rewrite wrapper_search. simpl fneg. rewrite Hclip, Hout, Hnl, Hec.
  unfold fgt, ModelWithFeatureClipping.ten_million. rewrite Hn, He.
  destruct (String.eqb cross_validate "ece"); reflexivity.
Qed.

Lemma wrapper_threshold_is_one_hundredth_witness :
  ModelWithFeatureClipping.set_feature_clip
    float64 (fun _ : unit => Ok ([[Fin 1]], [[Fin 5]])) head_id
    (const_metric (Fin 1)) (const_metric (Fin (1 # 2)%Q))
    [(tt, [0])] "nll" ModelWithFeatureClipping.__init__ =
  (Ok tt, ModelWithFeatureClipping.Wrapper (Fin (1 # 100)%Q)).
Proof.
  apply (@wrapper_threshold_is_one_hundredth
           unit float64 (fun _ : unit => Ok ([[Fin 1]], [[Fin 5]])) head_id
           (const_metric (Fin 1)) (const_metric (Fin (1 # 2)%Q))
           [(tt, [0])] "nll"%string ModelWithFeatureClipping.__init__
           [[[Fin 1]]] [[0]] [[[Fin 5]]] [[Fin 1]] [0] [[Fin 5]]
           [[Fin (1 # 100)%Q]] [[Fin (1 # 100)%Q]] (Fin 1) (Fin (1 # 2)%Q));
    reflexivity.
Defined.

(** C6 as stated fails.  An NLL of 10^7 at the threshold 0.01 is finite, yet
    under the criterion 'nll' [set_feature_clip] returns with the threshold
    at +inf: the running best starts at 10^7 and the comparison is strict. *)
Lemma wrapper_threshold_stays_inf :
  let run := ModelWithFeatureClipping.set_feature_clip
               float64 (fun _ : unit => Ok ([[Fin 1]], [[Fin 5]])) head_id
               (const_metric (Fin (10000000 # 1)%Q))
               (const_metric (Fin (1 # 2)%Q)) [(tt, [0])] "nll" in
  is_finite (Fin (10000000 # 1)%Q) = true /\
  is_finite (Fin (1 # 2)%Q) = true /\
  run ModelWithFeatureClipping.__init__ =
  (Ok tt, ModelWithFeatureClipping.Wrapper inf) /\
  ModelWithFeatureClipping.feature_clip
    (snd (run ModelWithFeatureClipping.__init__)) <> Fin (1 # 100)%Q.
Proof.
  intros run. repeat split. discriminate.
Qed.

(** * The initial values *)



(** * The threshold is never negative *)

Lemma wrapper_set_feature_clip_nonneg
      (input : Type) (dt : dtype)
      (model : input -> result (tensor * tensor))
      (model_classifier : tensor -> result tensor)
      (nll_criterion ece_criterion : tensor -> labels -> result float)
      (valid_loader : list (input * labels)) (cross_validate : string)
      (self : ModelWithFeatureClipping.wrapper) :
  wrapper_nonneg self ->
  wrapper_nonneg
    (snd (ModelWithFeatureClipping.set_feature_clip dt model model_classifier
            nll_criterion ece_criterion valid_loader cross_validate self)).
Proof.
  intros Hs. rewrite wrapper_set_feature_clip.
  destruct (fst _) as [[[ll yl] fl]|e]; [|exact Hs].
  destruct (cat ll) as [lg|e]; [|exact Hs].
  destruct (cat yl) as [labels_|e]; [|exact Hs].
  destruct (cat fl) as [features|e]; [|exact Hs].
  rewrite wrapper_search.
  destruct (torch_clamp dt features _ _) as [clipped|e]; [|reflexivity].
  destruct (model_classifier _) as [out|e]; [|reflexivity].
  destruct (nll_criterion out labels_) as [nl|e]; [|reflexivity].
  destruct (ece_criterion out labels_) as [ec|e]; [|reflexivity].
  destruct (String.eqb cross_validate "ece");
    [destruct (fgt ModelWithFeatureClipping.ten_million ec)
    |destruct (fgt ModelWithFeatureClipping.ten_million nl)];
    reflexivity.
Qed.

(** C9.  The threshold is +inf after construction, and [set_feature_clip]
    never leaves it negative.  For the two calibrators, whatever the
    collaborators answer or raise and whatever the fields were: every
    iteration leaves the threshold at its candidate [q/100], which is not
    negative; after any number of iterations, and when [set_feature_clip]
    returns or raises, the threshold is not negative.  For the model wrapper
    [set_feature_clip] keeps a threshold that is not negative.  [forward],
    [feature_clipping] and [get_feature_clip] assign nothing. *)
Theorem threshold_is_never_negative :
  (forall cv : string,
      feature_clip (FeatureClippingCalibrator.__init__ cv) = inf /\
      feature_clip (FeatureClippingCalibrator2.__init__ cv) = inf /\
      ModelWithFeatureClipping.feature_clip ModelWithFeatureClipping.__init__
      = inf) /\
  fle (Fin 0) inf = true /\
  (forall q, fle (Fin 0) (div100 q) = true) /\
  (forall (dt : dtype) (classifier : tensor -> result tensor)
          (nll_criterion ece_criterion accuracy
           : tensor -> labels -> result float)
          (features_val logits_val : tensor) (labels_val : labels)
          (self : calibrator),
      let body := FeatureClippingCalibrator.loop_body dt classifier
                    nll_criterion ece_criterion accuracy
                    features_val labels_val in
      (forall q l, nonneg (snd (body q l self))) /\
      (forall n, nonneg (snd (scan_loop n body self))) /\
      nonneg (snd (FeatureClippingCalibrator.scan dt classifier nll_criterion
                     ece_criterion accuracy features_val logits_val
                     labels_val self)) /\
      nonneg (snd (FeatureClippingCalibrator.set_feature_clip dt classifier
                     nll_criterion ece_criterion accuracy features_val
                     logits_val labels_val self)) /\
      snd (FeatureClippingCalibrator.forward dt classifier features_val self)
      = self /\
      snd (FeatureClippingCalibrator.feature_clipping dt features_val self)
      = self /\
      snd (FeatureClippingCalibrator.get_feature_clip self) = self) /\
  (forall (dt : dtype) (nll_criterion ece_criterion accuracy
           : tensor -> labels -> result float)
          (features_val logits_val : tensor) (labels_val : labels)
          (self : calibrator),
      let body := FeatureClippingCalibrator2.loop_body
                    dt nll_criterion ece_criterion accuracy
                    logits_val labels_val in
      (forall q l, nonneg (snd (body q l self))) /\
      (forall n, nonneg (snd (scan_loop n body self))) /\
      nonneg (snd (FeatureClippingCalibrator2.scan dt nll_criterion
                     ece_criterion accuracy features_val logits_val
                     labels_val self)) /\
      nonneg (snd (FeatureClippingCalibrator2.set_feature_clip
                     dt nll_criterion ece_criterion accuracy features_val
                     logits_val labels_val self)) /\
      snd (FeatureClippingCalibrator2.forward dt logits_val self) = self /\
      snd (FeatureClippingCalibrator2.feature_clipping dt logits_val self)
      = self /\
      snd (FeatureClippingCalibrator2.get_feature_clip self) = self) /\
  (forall (input : Type) (dt : dtype)
          (model : input -> result (tensor * tensor))
          (model_classifier : tensor -> result tensor)
          (nll_criterion ece_criterion : tensor -> labels -> result float)
          (valid_loader : list (input * labels)) (cross_validate : string)
          (x : input) (return_feature : bool) (features : tensor)
          (self : ModelWithFeatureClipping.wrapper),
      (wrapper_nonneg self ->
       wrapper_nonneg
         (snd (ModelWithFeatureClipping.set_feature_clip dt model
                 model_classifier nll_criterion ece_criterion
                 valid_loader cross_validate self))) /\
      snd (ModelWithFeatureClipping.forward dt model model_classifier
             x return_feature self) = self /\
      snd (ModelWithFeatureClipping.feature_clipping dt features self) = self /\
      snd (ModelWithFeatureClipping.get_feature_clip self) = self).
Proof.
  split; [intros cv; repeat split|].
  split; [reflexivity|].
  split; [exact fle_0_div100|].
  split; [|split].
  - intros dt classifier nll_criterion ece_criterion accuracy
           features_val logits_val labels_val self body.
    pose proof (calibrator_body_follows dt classifier nll_criterion
                  ece_criterion accuracy features_val labels_val) as Hbody.
    fold body in Hbody.
    split; [intros q l; apply (body_nonneg Hbody)|].
    split; [intros n; apply (scan_loop_nonneg Hbody)|].
    split; [rewrite calibrator_scan_is_loop; apply (scan_loop_nonneg Hbody)|].
    split; [rewrite calibrator_is_search; apply (search_nonneg Hbody)|].
    split; [|split; reflexivity].
    unfold FeatureClippingCalibrator.forward,
      FeatureClippingCalibrator.feature_clipping, bind, get, ret, call.
    destruct (torch_clamp dt features_val _ _); reflexivity.
  - intros dt nll_criterion ece_criterion accuracy
           features_val logits_val labels_val self body.
    pose proof (calibrator2_body_follows dt nll_criterion ece_criterion
                  accuracy logits_val labels_val) as Hbody.
    fold body in Hbody.
    split; [intros q l; apply (body_nonneg Hbody)|].
    split; [intros n; apply (scan_loop_nonneg Hbody)|].
    split; [rewrite calibrator2_scan_is_loop; apply (scan_loop_nonneg Hbody)|].
    split; [rewrite calibrator2_is_search; apply (search_nonneg Hbody)|].
    split; [|split; reflexivity].
    unfold FeatureClippingCalibrator2.forward,
      FeatureClippingCalibrator2.feature_clipping,
      FeatureClippingCalibrator2.classifier, bind, get, ret, call.
    destruct (torch_clamp dt logits_val _ _); reflexivity.
  - intros input dt model model_classifier nll_criterion ece_criterion
           valid_loader cross_validate x return_feature features self.
    split; [apply wrapper_set_feature_clip_nonneg|].
    split; [|split; reflexivity].
    unfold ModelWithFeatureClipping.forward,
      ModelWithFeatureClipping.feature_clipping,
      ModelWithFeatureClipping.classifier, bind, get, ret, call.
    destruct (model x) as [[logits feats]|e]; [|reflexivity].
    destruct (torch_clamp dt feats _ _); [|reflexivity].
    destruct (model_classifier _); reflexivity.
Qed.

Lemma threshold_is_never_negative_witness :
  wrapper_nonneg ModelWithFeatureClipping.__init__ /\
  wrapper_nonneg
    (snd (ModelWithFeatureClipping.set_feature_clip
            float64 (fun _ : unit => Ok ([[Fin 1]], [[Fin 5]])) head_id
            (const_metric (Fin 1)) (const_metric (Fin (1 # 2)%Q))
            [(tt, [0])] "ece" ModelWithFeatureClipping.__init__)).
Proof.
  assert (H0 : wrapper_nonneg ModelWithFeatureClipping.__init__) by reflexivity.
  split; [exact H0|].
  destruct threshold_is_never_negative as (_ & _ & _ & _ & _ & Hwrap).
  destruct (Hwrap unit float64
                  (fun _ : unit => Ok ([[Fin 1]], [[Fin 5]])) head_id
                  (const_metric (Fin 1)) (const_metric (Fin (1 # 2)%Q))
                  [(tt, [0])] "ece"%string tt false [[Fin 5]]
                  ModelWithFeatureClipping.__init__) as [Hset _].
  exact (Hset H0).
Defined.

(** * Further properties of the model wrapper *)

Section WrapperLoader.
Import ModelWithFeatureClipping.

Variable input : Type.
Variable dt : dtype.
Variable model : input -> result (tensor * tensor).
Variable model_classifier : tensor -> result tensor.
Variables nll_criterion ece_criterion : tensor -> labels -> result float.

Lemma collect_all (lg ft : input -> tensor)
      (valid_loader : list (input * labels)) (self : wrapper) :
  (forall x y, In (x, y) valid_loader -> model x = Ok (lg x, ft x)) ->
  forall ll yl fl,
    collect model valid_loader ll yl fl self =
    (Ok (ll ++ map (fun b => lg (fst b)) valid_loader,
         yl ++ map snd valid_loader,
         fl ++ map (fun b => ft (fst b)) valid_loader), self).
Proof.
  induction valid_loader as [|[x y] rest IH]; intros Hok ll yl fl.
  - simpl. rewrite !app_nil_r. reflexivity.
  - simpl. unfold bind, call. rewrite (Hok x y (or_introl eq_refl)).
    rewrite IH by (intros x' y' Hin; apply (Hok x' y'); right; exact Hin).
    rewrite <- !app_assoc. reflexivity.
Qed.

Lemma collect_first_raise (pre post : list (input * labels))
      (x : input) (y : labels) (e : exn) (self : wrapper) :
  (forall x' y', In (x', y') pre -> exists o, model x' = Ok o) ->
  model x = Raise e ->
  forall ll yl fl,
    collect model (pre ++ (x, y) :: post) ll yl fl self = (Raise e, self).
Proof.
  induction pre as [|[x' y'] pre IH]; intros Hok Hx ll yl fl.
  - simpl. unfold bind, call. rewrite Hx. reflexivity.
  - simpl. unfold bind, call.
    destruct (Hok x' y' (or_introl eq_refl)) as [[lg ft] Ho]. rewrite Ho.
    apply IH; [|exact Hx].
    intros x'' y'' Hin. apply (Hok x'' y''). right. exact Hin.
Qed.

Lemma cat_nonempty {A : Type} (ts : list (list A)) :
  ts <> [] -> cat ts = Ok (List.concat ts).
Proof. destruct ts; [congruence | reflexivity]. Qed.

Lemma select_not_ece (cross_validate : string) (l : locals) :
  cross_validate <> "ece"%string ->
  select cross_validate l = select "nll" l.
Proof.
  intros H. unfold select. apply String.eqb_neq in H. rewrite H.
  reflexivity.
Qed.
End WrapperLoader.

(** X1.  The first loop of [ModelWithFeatureClipping.set_feature_clip] keeps
    the order of the loader: when the model returns on every batch, the three
    lists hold the logits, the labels and the features batch by batch; when
    the model raises on a batch, after returning on the batches before it,
    the loop raises the same exception at once.  The fields are untouched
    either way. *)
Theorem collect_keeps_loader_order :
  forall (input : Type) (model : input -> result (tensor * tensor))
         (self : ModelWithFeatureClipping.wrapper),
    (forall (lg ft : input -> tensor) (valid_loader : list (input * labels)),
        (forall x y, In (x, y) valid_loader -> model x = Ok (lg x, ft x)) ->
        ModelWithFeatureClipping.collect model valid_loader [] [] [] self =
        (Ok (map (fun b => lg (fst b)) valid_loader,
             map snd valid_loader,
             map (fun b => ft (fst b)) valid_loader), self)) /\
    (forall (pre post : list (input * labels)) (x : input) (y : labels)
            (e : exn),
        (forall x' y', In (x', y') pre -> exists o, model x' = Ok o) ->
        model x = Raise e ->
        ModelWithFeatureClipping.collect model (pre ++ (x, y) :: post)
          [] [] [] self = (Raise e, self)).
Proof.
  intros input model self. split.
  - intros lg ft valid_loader Hok.
    rewrite (@collect_all input model lg ft valid_loader self Hok).
    reflexivity.
  - intros pre post x y e Hok Hx.
    apply collect_first_raise; assumption.
Qed.

Lemma collect_keeps_loader_order_witness :
  let model := fun n : nat =>
                 match n with
                 | 2 => Raise "bad batch"%string
                 | _ => Ok ([[Fin (inject_Z (Z.of_nat n))]], [[Fin 5]])
                 end in
  ModelWithFeatureClipping.collect model [(0, [1]); (1, [0])] [] [] []
    ModelWithFeatureClipping.__init__ =
  (Ok ([[[Fin 0]]; [[Fin 1]]], [[1]; [0]], [[[Fin 5]]; [[Fin 5]]]),
   ModelWithFeatureClipping.__init__) /\
  ModelWithFeatureClipping.collect model
    ([(0, [1]); (1, [0])] ++ (2, [1]) :: [(3, [0])]) [] [] []
    ModelWithFeatureClipping.__init__ =
  (Raise "bad batch"%string, ModelWithFeatureClipping.__init__).
Proof.
  intros model.
  destruct (@collect_keeps_loader_order nat model
              ModelWithFeatureClipping.__init__) as [Hall Hraise].
  split.
  - apply (Hall (fun n => [[Fin (inject_Z (Z.of_nat n))]])
                (fun _ => [[Fin 5]]) [(0, [1]); (1, [0])]).
    intros x y [H | [H | []]]; injection H as <- _; reflexivity.
  - apply (Hraise [(0, [1]); (1, [0])] [(3, [0])] 2 [1] "bad batch"%string).
    + intros x y [H | [H | []]]; injection H as <- _; eexists; reflexivity.
    + reflexivity.
Defined.

(** X2.  [ModelWithFeatureClipping.set_feature_clip] fails before the search
    without touching the threshold: on an empty loader [torch.cat] refuses the
    empty list, and when the model raises on a batch that exception comes
    out; in both cases the fields are as before the call. *)
Theorem wrapper_fit_fails_before_search :
  forall (input : Type) (dt : dtype)
         (model : input -> result (tensor * tensor))
         (model_classifier : tensor -> result tensor)
         (nll_criterion ece_criterion : tensor -> labels -> result float)
         (cross_validate : string)
         (self : ModelWithFeatureClipping.wrapper),
    ModelWithFeatureClipping.set_feature_clip dt model model_classifier
      nll_criterion ece_criterion [] cross_validate self =
    (Raise "torch.cat(): expected a non-empty list of Tensors"%string, self)
    /\
    (forall (pre post : list (input * labels)) (x : input) (y : labels)
            (e : exn),
        (forall x' y', In (x', y') pre -> exists o, model x' = Ok o) ->
        model x = Raise e ->
        ModelWithFeatureClipping.set_feature_clip dt model model_classifier
          nll_criterion ece_criterion (pre ++ (x, y) :: post)
          cross_validate self = (Raise e, self)).
Proof.
  intros input dt model model_classifier nll_criterion ece_criterion
         cross_validate self.
  split.
  - rewrite wrapper_set_feature_clip. reflexivity.
  - intros pre post x y e Hok Hx.
    rewrite wrapper_set_feature_clip.
    rewrite (@collect_first_raise input model pre post x y e self Hok Hx).
    reflexivity.
Qed.

Lemma wrapper_fit_fails_before_search_witness :
  let model := fun n : nat =>
                 match n with
                 | 2 => Raise "bad batch"%string
                 | _ => Ok ([[Fin 1]], [[Fin 5]])
                 end in
  ModelWithFeatureClipping.set_feature_clip float64 model head_id
    (const_metric (Fin 1)) (const_metric (Fin 1))
    ([(0, [1])] ++ (2, [1]) :: []) "ece"
    (ModelWithFeatureClipping.Wrapper (Fin 3)) =
  (Raise "bad batch"%string, ModelWithFeatureClipping.Wrapper (Fin 3)).
Proof.
  intros model.
  destruct (@wrapper_fit_fails_before_search nat float64 model head_id
              (const_metric (Fin 1)) (const_metric (Fin 1)) "ece"%string
              (ModelWithFeatureClipping.Wrapper (Fin 3))) as [_ Hraise].
  apply (Hraise [(0, [1])] [] 2 [1] "bad batch"%string).
  - intros x y [H | []]. injection H as <- _. eexists. reflexivity.
  - reflexivity.
Defined.

(** X3.  When the loader is not empty and the model returns on every batch,
    [ModelWithFeatureClipping.set_feature_clip] evaluates the two criteria
    once, on the concatenation of the features of all batches clipped at
    0.01 and the concatenation of the labels, in loader order; it returns
    with the threshold at 0.01 when the selecting metric (the ECE under
    'ece', the NLL otherwise) is below 10^7 and at +inf when it is not (NaN
    included). *)
Theorem wrapper_fit_outcome :
  forall (input : Type) (dt : dtype)
         (model : input -> result (tensor * tensor))
         (model_classifier : tensor -> result tensor)
         (nll_criterion ece_criterion : tensor -> labels -> result float)
         (lg ft : input -> tensor)
         (valid_loader : list (input * labels)) (cross_validate : string)
         (self : ModelWithFeatureClipping.wrapper)
         (clipped out : tensor) (nl ec : float),
    valid_loader <> [] ->
    (forall x y, In (x, y) valid_loader -> model x = Ok (lg x, ft x)) ->
    let features :=
      List.concat (map (fun b => ft (fst b)) valid_loader) in
    let labels_ := List.concat (map snd valid_loader) in
    fst (ModelWithFeatureClipping.feature_clipping dt features
           (ModelWithFeatureClipping.Wrapper (Fin (1 # 100)%Q))) =
    Ok clipped ->
    model_classifier clipped = Ok out ->
    nll_criterion out labels_ = Ok nl ->
    ece_criterion out labels_ = Ok ec ->
    ModelWithFeatureClipping.set_feature_clip dt model model_classifier
      nll_criterion ece_criterion valid_loader cross_validate self =
    (Ok tt,
     ModelWithFeatureClipping.Wrapper
       (if String.eqb cross_validate "ece"
        then if flt ec (Fin (10000000 # 1)%Q) then Fin (1 # 100)%Q else inf
        else if flt nl (Fin (10000000 # 1)%Q) then Fin (1 # 100)%Q else inf)).
Proof.
  intros input dt model model_classifier nll_criterion ece_criterion lg ft
         valid_loader cross_validate self clipped out nl ec Hne Hok
         features labels_ Hclip Hout Hnl Hec.
  rewrite wrapper_feature_clipping in Hclip. simpl in Hclip.
  rewrite wrapper_set_feature_clip.
  rewrite (@collect_all input model lg ft valid_loader self Hok).
  cbn [fst app].
  rewrite !cat_nonempty
    by (destruct valid_loader; [congruence | discriminate]).
  fold features labels_.
  rewrite wrapper_search. simpl fneg. rewrite Hclip, Hout, Hnl, Hec.
  reflexivity.
Qed.

Lemma wrapper_fit_outcome_witness :
  ModelWithFeatureClipping.set_feature_clip
    float64 (fun n : nat => Ok ([[Fin 1]], [[Fin (inject_Z (Z.of_nat n))]]))
    head_id (const_metric NaN) entry_metric
    [(4, [0]); (7, [1])] "nll" ModelWithFeatureClipping.__init__ =
  (Ok tt, ModelWithFeatureClipping.Wrapper inf).
Proof.
  apply (@wrapper_fit_outcome nat float64
           (fun n : nat => Ok ([[Fin 1]], [[Fin (inject_Z (Z.of_nat n))]]))
           head_id (const_metric NaN) entry_metric
           (fun _ => [[Fin 1]]) (fun n => [[Fin (inject_Z (Z.of_nat n))]])
           [(4, [0]); (7, [1])] "nll"%string ModelWithFeatureClipping.__init__
           [[Fin (1 # 100)%Q]; [Fin (1 # 100)%Q]]
           [[Fin (1 # 100)%Q]; [Fin (1 # 100)%Q]] NaN NaN).
  - discriminate.
  - intros x y _. reflexivity.
  - reflexivity.
  - reflexivity.
  - reflexivity.
  - reflexivity.
Defined.

(** X4.  In [ModelWithFeatureClipping.set_feature_clip] every criterion
    other than 'ece' selects on the NLL: the call behaves as with 'nll',
    whatever the collaborators answer or raise. *)
Theorem wrapper_other_criterion_is_nll :
  forall (input : Type) (dt : dtype)
         (model : input -> result (tensor * tensor))
         (model_classifier : tensor -> result tensor)
         (nll_criterion ece_criterion : tensor -> labels -> result float)
         (valid_loader : list (input * labels)) (cross_validate : string)
         (self : ModelWithFeatureClipping.wrapper),
    cross_validate <> "ece"%string ->
    ModelWithFeatureClipping.set_feature_clip dt model model_classifier
      nll_criterion ece_criterion valid_loader cross_validate self =
    ModelWithFeatureClipping.set_feature_clip dt model model_classifier
      nll_criterion ece_criterion valid_loader "nll" self.
Proof.
  intros input dt model model_classifier nll_criterion ece_criterion
         valid_loader cross_validate self Hcv.
  unfold ModelWithFeatureClipping.set_feature_clip, bind.
  destruct (ModelWithFeatureClipping.scan _ _ _ _ _ _ _) as [[l|e] s];
    [|reflexivity].
  rewrite (select_not_ece l Hcv). reflexivity.
Qed.

Lemma wrapper_other_criterion_is_nll_witness :
  ModelWithFeatureClipping.set_feature_clip
    float64 (fun _ : unit => Ok ([[Fin 1]], [[Fin 5]])) head_id
    (const_metric (Fin 1)) (const_metric NaN)
    [(tt, [0])] "acc" ModelWithFeatureClipping.__init__ =
  ModelWithFeatureClipping.set_feature_clip
    float64 (fun _ : unit => Ok ([[Fin 1]], [[Fin 5]])) head_id
    (const_metric (Fin 1)) (const_metric NaN)
    [(tt, [0])] "nll" ModelWithFeatureClipping.__init__.
Proof.
  apply wrapper_other_criterion_is_nll. discriminate.
Defined.

(** X5.  Whatever the loader and the collaborators,
    [ModelWithFeatureClipping.set_feature_clip] leaves one of two thresholds
    when it returns, 0.01 or +inf; when it raises, the fields are either as
    before the call or the threshold is the candidate 0.01. *)
Theorem wrapper_fit_leaves_candidate_or_inf :
  forall (input : Type) (dt : dtype)
         (model : input -> result (tensor * tensor))
         (model_classifier : tensor -> result tensor)
         (nll_criterion ece_criterion : tensor -> labels -> result float)
         (valid_loader : list (input * labels)) (cross_validate : string)
         (self : ModelWithFeatureClipping.wrapper),
    let r := ModelWithFeatureClipping.set_feature_clip dt model
               model_classifier nll_criterion ece_criterion valid_loader
               cross_validate self in
    (fst r = Ok tt ->
     snd r = ModelWithFeatureClipping.Wrapper (Fin (1 # 100)%Q) \/
     snd r = ModelWithFeatureClipping.Wrapper inf) /\
    (forall e, fst r = Raise e ->
       snd r = self \/
       snd r = ModelWithFeatureClipping.Wrapper (Fin (1 # 100)%Q)).
Proof.
  intros input dt model model_classifier nll_criterion ece_criterion
         valid_loader cross_validate self r.
  subst r. rewrite wrapper_set_feature_clip.
  destruct (fst (ModelWithFeatureClipping.collect _ _ _ _ _ _))
    as [[[ll yl] fl]|e0];
    [|split; [discriminate | intros; left; reflexivity]].
  destruct (cat ll) as [lg|e0];
    [|split; [discriminate | intros; left; reflexivity]].
  destruct (cat yl) as [labels_|e0];
    [|split; [discriminate | intros; left; reflexivity]].
  destruct (cat fl) as [features|e0];
    [|split; [discriminate | intros; left; reflexivity]].
  rewrite wrapper_search.
  destruct (torch_clamp dt features _ _) as [clipped|e0];
    [|split; [discriminate | intros; right; reflexivity]].
  destruct (model_classifier _) as [out|e0];
    [|split; [discriminate | intros; right; reflexivity]].
  destruct (nll_criterion out labels_) as [nl|e0];
    [|split; [discriminate | intros; right; reflexivity]].
  destruct (ece_criterion out labels_) as [ec|e0];
    [|split; [discriminate | intros; right; reflexivity]].
  split; [intros _ | discriminate].
  destruct (String.eqb cross_validate "ece");
    [destruct (fgt ModelWithFeatureClipping.ten_million ec)
    |destruct (fgt ModelWithFeatureClipping.ten_million nl)];
    simpl; auto.
Qed.

Lemma wrapper_fit_leaves_candidate_or_inf_witness :
  let r := ModelWithFeatureClipping.set_feature_clip
             float64 (fun _ : unit => Ok ([[Fin 1]], [[Fin 5]]))
             (fun _ => Raise "head"%string)
             (const_metric (Fin 1)) (const_metric (Fin 1))
             [(tt, [0])] "ece" (ModelWithFeatureClipping.Wrapper (Fin 3)) in
  fst r = Raise "head"%string /\
  (snd r = ModelWithFeatureClipping.Wrapper (Fin 3) \/
   snd r = ModelWithFeatureClipping.Wrapper (Fin (1 # 100)%Q)).
Proof.
  intros r. split; [reflexivity|].
  destruct (@wrapper_fit_leaves_candidate_or_inf unit float64
              (fun _ : unit => Ok ([[Fin 1]], [[Fin 5]]))
              (fun _ => Raise "head"%string)
              (const_metric (Fin 1)) (const_metric (Fin 1))
              [(tt, [0])] "ece"%string
              (ModelWithFeatureClipping.Wrapper (Fin 3))) as [_ Hraise].
  exact (Hraise "head"%string eq_refl).
Defined.

(** X6.  [ModelWithFeatureClipping.forward] runs the model, clips the
    features it returns and applies the classifier head to them; the logits
    of the model are not used.  The clipped features are the elementwise
    clamp of the features between the two bounds that the conversion of -C
    and C to the type of the features gives.  With [return_feature] the
    clipped features come back with the result.  A raise of the model or of
    the head comes out as it is, and the fields are the same afterwards. *)
Theorem wrapper_forward_clips_features :
  forall (input : Type) (dt : dtype)
         (model : input -> result (tensor * tensor))
         (model_classifier : tensor -> result tensor)
         (x : input) (return_feature : bool)
         (self : ModelWithFeatureClipping.wrapper),
    let C := ModelWithFeatureClipping.feature_clip self in
    let run := ModelWithFeatureClipping.forward dt model model_classifier
                 x return_feature self in
    snd run = self /\
    (forall e, model x = Raise e -> run = (Raise e, self)) /\
    (forall (logits features : tensor) (lo hi : float),
        model x = Ok (logits, features) ->
        cast dt (fneg C) = Ok lo -> cast dt C = Ok hi -> fle lo hi = true ->
        let clipped := map (map (clamp_between lo hi)) features in
        run =
        match model_classifier clipped with
        | Raise e => (Raise e, self)
        | Ok out =>
            (Ok (out, if return_feature then Some clipped else None), self)
        end).
Proof.
  intros input dt model model_classifier x return_feature self C run.
  subst run.
  unfold ModelWithFeatureClipping.forward,
    ModelWithFeatureClipping.classifier, bind, ret, call.
  split; [|split].
  - destruct (model x) as [[logits features]|e]; [|reflexivity].
    rewrite wrapper_feature_clipping.
    destruct (torch_clamp dt features _ _); [|reflexivity].
    destruct (model_classifier _); reflexivity.
  - intros e ->. reflexivity.
  - intros logits features lo hi -> Hlo Hhi Hle.
    rewrite wrapper_feature_clipping. fold C.
    rewrite (@torch_clamp_ok dt features _ _ _ _ Hlo Hhi).
    rewrite (@clamp_between_tensor lo hi features Hle).
    destruct (model_classifier _); reflexivity.
Qed.

Lemma wrapper_forward_clips_features_witness :
  let self := ModelWithFeatureClipping.Wrapper (Fin (7 # 100)%Q) in
  let model := fun b : bool =>
                 if b then Ok ([[Fin 9]], [[Fin 1; Fin (-1 # 1)%Q]])
                 else Ok ([[Fin 9]], [[Fin 1]]) in
  ModelWithFeatureClipping.forward float32 model head_id true true self =
  (Ok ([[Fin (9395241 # 134217728)%Q; Fin (-9395241 # 134217728)%Q]],
       Some [[Fin (9395241 # 134217728)%Q; Fin (-9395241 # 134217728)%Q]]),
   self) /\
  ModelWithFeatureClipping.forward float32 model picky_head false false self
  = (Raise "entry above 0"%string, self).
Proof.
  intros self model. split.
  - destruct (@wrapper_forward_clips_features bool float32 model head_id
                true true self) as (_ & _ & Hrun).
    exact (Hrun [[Fin 9]] [[Fin 1; Fin (-1 # 1)%Q]]
                (Fin (-9395241 # 134217728)%Q)
                (Fin (9395241 # 134217728)%Q)
                eq_refl eq_refl eq_refl eq_refl).
  - destruct (@wrapper_forward_clips_features bool float32 model picky_head
                false false self) as (_ & _ & Hrun).
    exact (Hrun [[Fin 9]] [[Fin 1]]
                (Fin (-9395241 # 134217728)%Q)
                (Fin (9395241 # 134217728)%Q)
                eq_refl eq_refl eq_refl eq_refl).
Defined.

(** * Further properties of the grid search *)

Section SearchOutcomes.
Variable body : nat -> locals -> M calibrator locals.
Variable sm : nat -> result (float * float * float).
Hypothesis Hbody : body_follows body sm.

(** the loop stops at the first step at which a collaborator raises *)
Lemma loop_first_raise (nv ev av : nat -> float) (q n : nat) (e : exn)
      (l : locals) (self : calibrator) :
  metrics_are sm nv ev av q -> sm q = Raise e -> q < n ->
  for_range n body l self = (Raise e, with_clip (div100 q) self).
Proof.
  intros Hm Hq Hlt. induction n as [|n IH]; [lia|].
  rewrite for_range_snoc. unfold bind.
  destruct (Nat.eq_dec q n) as [->|Hne].
  - rewrite (loop_returns Hbody Hm), Hbody, Hq.
    destruct n; reflexivity.
  - rewrite IH by lia. reflexivity.
Qed.

Lemma search_first_raise (nv ev av : nat -> float) (q n : nat) (e : exn)
      (self : calibrator) :
  metrics_are sm nv ev av q -> sm q = Raise e -> q < n ->
  search n body self =
  (Raise e, Calibrator (cross_validate self) (div100 q) (Some NegInf)).
Proof.
  intros Hm Hq Hlt.
  unfold search, scan_loop, bind, set_clip, set_clip_bottom. simpl.
  rewrite (loop_first_raise _ _ Hm Hq Hlt). reflexivity.
Qed.

(** a loop that returns has had an answer at every step *)
Lemma loop_ok_metrics (n : nat) (l l' : locals) (self self' : calibrator) :
  for_range n body l self = (Ok l', self') ->
  forall q, q < n -> exists m, sm q = Ok m.
Proof.
  revert l' self'. induction n as [|n IH]; intros l' self' H q Hq; [lia|].
  rewrite for_range_snoc in H. unfold bind in H.
  destruct (for_range n body l self) as [[l1|e] s1] eqn:E; [|discriminate].
  destruct (Nat.eq_dec q n) as [->|Hne].
  - rewrite Hbody in H.
    destruct (sm n) as [m|e]; [exists m; reflexivity|].
    discriminate.
  - apply (IH _ _ eq_refl). lia.
Qed.

(** the answers of a returning loop, as functions of the step *)
Lemma loop_ok_functions (n : nat) (l l' : locals) (self self' : calibrator) :
  for_range n body l self = (Ok l', self') ->
  exists nv ev av, metrics_are sm nv ev av n.
Proof.
  intros H.
  exists (fun q => match sm q with Ok (a, _, _) => a | Raise _ => NaN end).
  exists (fun q => match sm q with Ok (_, b, _) => b | Raise _ => NaN end).
  exists (fun q => match sm q with Ok (_, _, c) => c | Raise _ => NaN end).
  intros q Hq.
  destruct (@loop_ok_metrics n l l' self self' H q Hq) as [[[a b] c] Hm].
  rewrite Hm. reflexivity.
Qed.
Lemma loop_ok_state (n : nat) (l l' : locals) (self self' : calibrator) :
  for_range n body l self = (Ok l', self') ->
  self' = after_steps n self.
Proof.
  intros H.
  destruct (@loop_ok_functions n l l' self self' H) as (nv & ev & av & Hm).
  rewrite (loop_returns Hbody Hm) in H. injection H as _ <-. reflexivity.
Qed.

(** a loop that raises has raised at a step before which every step
    returned; the threshold is the candidate of that step *)
Lemma loop_raise_step (n : nat) (l : locals) (self self' : calibrator)
      (e : exn) :
  for_range n body l self = (Raise e, self') ->
  exists q, q < n /\ sm q = Raise e /\
            (forall k, k < q -> exists m, sm k = Ok m) /\
            self' = with_clip (div100 q) self.
Proof.
  revert self'. induction n as [|n IH]; intros self' H; [discriminate|].
  rewrite for_range_snoc in H. unfold bind in H.
  destruct (for_range n body l self) as [[l1|e1] s1] eqn:E.
  - rewrite Hbody in H. exists n.
    destruct (sm n) as [[[nl ec] ac]|e2] eqn:En; [discriminate|].
    injection H as -> <-.
    split; [lia|]. split; [reflexivity|]. split.
    + intros k Hk. exact (@loop_ok_metrics n l l1 self s1 E k Hk).
    + rewrite (@loop_ok_state n l l1 self s1 E). destruct n; reflexivity.
  - injection H as -> <-.
    destruct (IH _ eq_refl) as (q & Hq & Hr & Hb & Hs).
    exists q. repeat split; [lia | exact Hr | exact Hb | exact Hs].
Qed.

End SearchOutcomes.

Lemma best_in_candidates (v : nat -> float) (n : nat) :
  snd (best v n) = inf \/ exists q, q < n /\ snd (best v n) = div100 q.
Proof.
  destruct (best_spec v n) as [_ [Hinit | (q & (Hq & _) & Hb & _)]].
  - left. rewrite Hinit. reflexivity.
  - right. exists q. rewrite Hb. split; [exact Hq | reflexivity].
Qed.

Lemma search_forgets_fields (n : nat)
      (body : nat -> locals -> M calibrator locals)
      (cv : string) (c c' : float) (b b' : option float) :
  search n body (Calibrator cv c b) = search n body (Calibrator cv c' b').
Proof.
  cbv [search scan_loop bind set_clip set_clip_bottom
       cross_validate feature_clip feature_clip_bottom].
  reflexivity.
Qed.

Section SearchClassified.
Variable body : nat -> locals -> M calibrator locals.
Variable sm : nat -> result (float * float * float).
Hypothesis Hbody : body_follows body sm.
Variable n : nat.

Lemma search_ok_functions (self : calibrator) :
  fst (search n body self) = Ok tt ->
  exists nv ev av, metrics_are sm nv ev av n.
Proof.
  unfold search, scan_loop, bind, set_clip, set_clip_bottom. simpl.
  destruct (for_range n body _ _) as [[l|e] s] eqn:E; [|discriminate].
  intros _. exact (@loop_ok_functions body sm Hbody n _ _ _ _ E).
Qed.

Lemma search_return_classified (self : calibrator) :
  fst (search n body self) = Ok tt ->
  cross_validate (snd (search n body self)) = cross_validate self /\
  feature_clip_bottom (snd (search n body self)) = Some NegInf /\
  (feature_clip (snd (search n body self)) = inf \/
   exists q, q < n /\ feature_clip (snd (search n body self)) = div100 q).
Proof.
  intros H. destruct (search_ok_functions self H) as (nv & ev & av & Hm).
  rewrite (search_returns Hbody Hm). unfold search_end. cbn [snd].
  destruct (String.eqb (cross_validate self) "ece").
  - rewrite with_clip_after_steps. cbn [cross_validate feature_clip
                                         feature_clip_bottom].
    split; [reflexivity|]. split; [reflexivity|].
    pose proof (run_updates_ece nv ev av n) as He.
    pose proof (best_in_candidates ev n) as Hb. rewrite <- He in Hb.
    exact Hb.
  - destruct (String.eqb (cross_validate self) "nll").
    + rewrite with_clip_after_steps. cbn [cross_validate feature_clip
                                           feature_clip_bottom].
      split; [reflexivity|]. split; [reflexivity|].
      pose proof (run_updates_nll nv ev av n) as He.
      pose proof (best_in_candidates nv n) as Hb. rewrite <- He in Hb.
      exact Hb.
    + destruct n as [|k]; simpl; repeat split; auto.
      right. exists k. split; [lia | reflexivity].
Qed.

Lemma search_raise_classified (self : calibrator) (e : exn) :
  fst (search n body self) = Raise e ->
  exists q, q < n /\ sm q = Raise e /\
            (forall k, k < q -> exists m, sm k = Ok m) /\
            snd (search n body self) =
            Calibrator (cross_validate self) (div100 q) (Some NegInf).
Proof.
  unfold search, scan_loop, bind, set_clip, set_clip_bottom. simpl.
  destruct (for_range n body _ _) as [[l|e'] s] eqn:E.
  - unfold FeatureClippingCalibrator.select, bind, get, set_clip, ret.
    destruct (String.eqb (cross_validate s) "ece"); [discriminate|].
    destruct (String.eqb (cross_validate s) "nll"); discriminate.
  - simpl. intros H. injection H as ->.
    destruct (@loop_raise_step body sm Hbody n _ _ _ _ E)
      as (q & Hq & Hr & Hb & Hs).
    exists q. rewrite Hs. repeat split; assumption.
Qed.
End SearchClassified.

(** X7.  A fit does not depend on an earlier fit: the outcome of
    [set_feature_clip] of the two calibrators, returned or raised, is the
    same whatever the threshold and [feature_clip_bottom] were before the
    call. *)
Theorem refit_forgets_previous_threshold :
  forall (dt : dtype) (classifier : tensor -> result tensor)
         (nll_criterion ece_criterion accuracy
          : tensor -> labels -> result float)
         (features_val logits_val : tensor) (labels_val : labels)
         (cv : string) (c c' : float) (b b' : option float),
    FeatureClippingCalibrator.set_feature_clip dt classifier nll_criterion
      ece_criterion accuracy features_val logits_val labels_val
      (Calibrator cv c b) =
    FeatureClippingCalibrator.set_feature_clip dt classifier nll_criterion
      ece_criterion accuracy features_val logits_val labels_val
      (Calibrator cv c' b') /\
    FeatureClippingCalibrator2.set_feature_clip dt nll_criterion
      ece_criterion accuracy features_val logits_val labels_val
      (Calibrator cv c b) =
    FeatureClippingCalibrator2.set_feature_clip dt nll_criterion
      ece_criterion accuracy features_val logits_val labels_val
      (Calibrator cv c' b').
Proof.
  intros. rewrite !calibrator_is_search, !calibrator2_is_search.
  split; apply search_forgets_fields.
Qed.

(** X8.  When a collaborator raises at step [q] after every earlier step
    returned, [set_feature_clip] of the two calibrators raises the same
    exception and leaves the threshold at the candidate [q/100] under
    evaluation, not at a best threshold found so far and not at its value
    before the call; [feature_clip_bottom] is -inf. *)
Theorem fit_raise_leaves_current_candidate :
  (forall (dt : dtype) (classifier : tensor -> result tensor)
          (nll_criterion ece_criterion accuracy
           : tensor -> labels -> result float)
          (features_val logits_val : tensor) (labels_val : labels)
          (nv ev av : nat -> float) (q : nat) (e : exn) (self : calibrator),
      let sm := step_metrics dt classifier nll_criterion ece_criterion
                  accuracy features_val labels_val in
      q < 2000 -> metrics_are sm nv ev av q -> sm q = Raise e ->
      FeatureClippingCalibrator.set_feature_clip dt classifier nll_criterion
        ece_criterion accuracy features_val logits_val labels_val self =
      (Raise e, Calibrator (cross_validate self) (div100 q) (Some NegInf)))
  /\
  (forall (dt : dtype) (nll_criterion ece_criterion accuracy
           : tensor -> labels -> result float)
          (features_val logits_val : tensor) (labels_val : labels)
          (nv ev av : nat -> float) (q : nat) (e : exn) (self : calibrator),
      let sm := step_metrics dt FeatureClippingCalibrator2.classifier
                  nll_criterion ece_criterion accuracy
                  logits_val labels_val in
      q < 4000 -> metrics_are sm nv ev av q -> sm q = Raise e ->
      FeatureClippingCalibrator2.set_feature_clip dt nll_criterion
        ece_criterion accuracy features_val logits_val labels_val self =
      (Raise e, Calibrator (cross_validate self) (div100 q) (Some NegInf))).
Proof.
  split.
  - intros dt classifier nll_criterion ece_criterion accuracy features_val
           logits_val labels_val nv ev av q e self sm Hq Hm Hr.
    rewrite calibrator_is_search.
    exact (search_first_raise
             (calibrator_body_follows dt classifier nll_criterion ece_criterion
                accuracy features_val labels_val) self Hm Hr Hq).
  - intros dt nll_criterion ece_criterion accuracy features_val
           logits_val labels_val nv ev av q e self sm Hq Hm Hr.
    rewrite calibrator2_is_search.
    exact (search_first_raise
             (calibrator2_body_follows dt nll_criterion ece_criterion
                accuracy logits_val labels_val) self Hm Hr Hq).
Qed.

Lemma fit_raise_leaves_current_candidate_witness :
  FeatureClippingCalibrator.set_feature_clip float64 picky_head
    (const_metric (Fin 1)) (const_metric (Fin 1)) (const_metric (Fin 1))
    [[Fin 5]] [[Fin 5]] [0] (Calibrator "ece" (Fin 3) None) =
  (Raise "entry above 0"%string,
   Calibrator "ece" (Fin (1 # 100)%Q) (Some NegInf)).
Proof.
  destruct fit_raise_leaves_current_candidate as [Hcal _].
  apply (Hcal float64 picky_head (const_metric (Fin 1)) (const_metric (Fin 1))
              (const_metric (Fin 1)) [[Fin 5]] [[Fin 5]] [0]
              (fun _ => Fin 1) (fun _ => Fin 1) (fun _ => Fin 1)
              1 "entry above 0"%string (Calibrator "ece" (Fin 3) None)).
  - lia.
  - intros q Hq. assert (q = 0) as -> by lia. reflexivity.
  - reflexivity.
Defined.

(** X9.  Whatever the collaborators answer, [set_feature_clip] of the two
    calibrators has two kinds of outcome.  When it returns, the criterion is
    unchanged, [feature_clip_bottom] is -inf and the threshold is +inf or a
    scanned candidate [q/100].  When it raises [e], a collaborator raised [e]
    at some step [q] before which every step returned, and the fields are
    left with the threshold [q/100] and [feature_clip_bottom] -inf. *)
Theorem fit_outcomes_classified :
  (forall (dt : dtype) (classifier : tensor -> result tensor)
          (nll_criterion ece_criterion accuracy
           : tensor -> labels -> result float)
          (features_val logits_val : tensor) (labels_val : labels)
          (self : calibrator),
      let sm := step_metrics dt classifier nll_criterion ece_criterion
                  accuracy features_val labels_val in
      let r := FeatureClippingCalibrator.set_feature_clip dt classifier
                 nll_criterion ece_criterion accuracy
                 features_val logits_val labels_val self in
      (fst r = Ok tt ->
       cross_validate (snd r) = cross_validate self /\
       feature_clip_bottom (snd r) = Some NegInf /\
       (feature_clip (snd r) = inf \/
        exists q, q < 2000 /\ feature_clip (snd r) = div100 q)) /\
      (forall e, fst r = Raise e ->
         exists q, q < 2000 /\ sm q = Raise e /\
                   (forall k, k < q -> exists m, sm k = Ok m) /\
                   snd r = Calibrator (cross_validate self) (div100 q)
                                      (Some NegInf)))
  /\
  (forall (dt : dtype) (nll_criterion ece_criterion accuracy
           : tensor -> labels -> result float)
          (features_val logits_val : tensor) (labels_val : labels)
          (self : calibrator),
      let sm := step_metrics dt FeatureClippingCalibrator2.classifier
                  nll_criterion ece_criterion accuracy
                  logits_val labels_val in
      let r := FeatureClippingCalibrator2.set_feature_clip
                 dt nll_criterion ece_criterion accuracy
                 features_val logits_val labels_val self in
      (fst r = Ok tt ->
       cross_validate (snd r) = cross_validate self /\
       feature_clip_bottom (snd r) = Some NegInf /\
       (feature_clip (snd r) = inf \/
        exists q, q < 4000 /\ feature_clip (snd r) = div100 q)) /\
      (forall e, fst r = Raise e ->
         exists q, q < 4000 /\ sm q = Raise e /\
                   (forall k, k < q -> exists m, sm k = Ok m) /\
                   snd r = Calibrator (cross_validate self) (div100 q)
                                      (Some NegInf))).
Proof.
  split.
  - intros dt classifier nll_criterion ece_criterion accuracy features_val
           logits_val labels_val self sm r.
    subst r. rewrite calibrator_is_search.
    pose proof (calibrator_body_follows dt classifier nll_criterion
                  ece_criterion accuracy features_val labels_val) as Hbody.
    split.
    + apply (search_return_classified Hbody).
    + intros e. apply (search_raise_classified Hbody).
  - intros dt nll_criterion ece_criterion accuracy features_val
           logits_val labels_val self sm r.
    subst r. rewrite calibrator2_is_search.
    pose proof (calibrator2_body_follows dt nll_criterion ece_criterion
                  accuracy logits_val labels_val) as Hbody.
    split.
    + apply (search_return_classified Hbody).
    + intros e. apply (search_raise_classified Hbody).
Qed.

Lemma fit_outcomes_classified_witness :
  let r := FeatureClippingCalibrator.set_feature_clip float64 picky_head
             (const_metric (Fin 1)) (const_metric (Fin 1))
             (const_metric (Fin 1)) [[Fin 5]] [[Fin 5]] [0]
             (Calibrator "ece" (Fin 3) None) in
  fst r = Raise "entry above 0"%string /\
  exists q, q < 2000 /\
            snd r = Calibrator "ece" (div100 q) (Some NegInf).
Proof.
  intros r.
  assert (Hr : fst r = Raise "entry above 0"%string)
    by (vm_compute; reflexivity).
  split; [exact Hr|].
  destruct fit_outcomes_classified as [Hcal _].
  destruct (Hcal float64 picky_head (const_metric (Fin 1)) (const_metric (Fin
      1))
                 (const_metric (Fin 1)) [[Fin 5]] [[Fin 5]] [0]
                 (Calibrator "ece" (Fin 3) None)) as [_ Hraise].
  destruct (Hraise _ Hr) as (q & Hq & _ & _ & Hs).
  exists q. split; [exact Hq | exact Hs].
Defined.

(** ** The traces *)

Lemma update_traces (q : nat) (nl e a : float) (l : locals) :
  eces (update q nl e a l) = eces l ++ [e] /\
  nlls (update q nl e a l) = nlls l ++ [nl] /\
  accs (update q nl e a l) = accs l ++ [a].
Proof.
  unfold update.
  destruct (fgt (nll_val l) nl); simpl;
    match goal with |- context [if ?b then _ else _] => destruct b end;
    repeat split.
Qed.

Lemma run_updates_traces (nv ev av : nat -> float) (n : nat) :
  let l := run_updates nv ev av n FeatureClippingCalibrator.init_locals in
  eces l = map ev (seq 0 n) /\
  nlls l = map nv (seq 0 n) /\
  accs l = map av (seq 0 n).
Proof.
  induction n as [|n (IHe & IHn & IHa)]; [repeat split|].
  cbv zeta.
  change (run_updates nv ev av (S n) FeatureClippingCalibrator.init_locals)
    with (update n (nv n) (ev n) (av n)
            (run_updates nv ev av n FeatureClippingCalibrator.init_locals)).
  destruct (update_traces n (nv n) (ev n) (av n)
              (run_updates nv ev av n FeatureClippingCalibrator.init_locals))
    as (He & Hn & Ha).
  rewrite He, Hn, Ha. cbv zeta in IHe, IHn, IHa. rewrite IHe, IHn, IHa.
  rewrite seq_S, !map_app. repeat split.
Qed.

Lemma scan_loop_traces
      (body : nat -> locals -> M calibrator locals)
      (sm : nat -> result (float * float * float))
      (nv ev av : nat -> float) (n : nat) (self : calibrator) :
  body_follows body sm ->
  metrics_are sm nv ev av n ->
  exists l self',
    scan_loop n body self = (Ok l, self') /\
    cs l = map div100 (seq 0 n) /\
    eces l = map ev (seq 0 n) /\
    nlls l = map nv (seq 0 n) /\
    accs l = map av (seq 0 n) /\
    (forall q, q < n -> flt (ev q) (ece_val l) = false) /\
    (forall q, q < n -> flt (nv q) (nll_val l) = false) /\
    ((ece_val l = inf /\ C_opt_ece l = inf) \/
     exists q, q < n /\ ece_val l = ev q /\ C_opt_ece l = div100 q) /\
    ((nll_val l = inf /\ C_opt_nll l = inf) \/
     exists q, q < n /\ nll_val l = nv q /\ C_opt_nll l = div100 q).
Proof.
  intros Hbody Hm.
  rewrite (scan_loop_returns Hbody Hm). eexists. eexists.
  split; [reflexivity|].
  destruct (run_updates_traces nv ev av n) as (He & Hn & Ha).
  cbv zeta in He, Hn, Ha.
  split; [apply run_updates_cs|].
  split; [exact He|]. split; [exact Hn|]. split; [exact Ha|].
  pose proof (run_updates_ece nv ev av n) as Hbe.
  pose proof (run_updates_nll nv ev av n) as Hbn.
  destruct (best_spec ev n) as [Hmine Hsele].
  destruct (best_spec nv n) as [Hminn Hseln].
  rewrite <- Hbe in Hmine, Hsele. rewrite <- Hbn in Hminn, Hseln.
  split; [exact Hmine|]. split; [exact Hminn|]. split.
  - destruct Hsele as [Hi | (q & (Hq & _) & Hb & _)].
    + left. injection Hi as -> ->. split; reflexivity.
    + right. exists q. injection Hb as -> ->. repeat split. exact Hq.
  - destruct Hseln as [Hi | (q & (Hq & _) & Hb & _)].
    + left. injection Hi as -> ->. split; reflexivity.
    + right. exists q. injection Hb as -> ->. repeat split. exact Hq.
Qed.

(** X10.  When every step returns its metrics, the loop of
    [set_feature_clip] of the two calibrators ends with four traces of equal
    length, one entry per step in scan order: the candidate, the ECE, the
    NLL and the accuracy of that step.  No recorded ECE (NLL) is below the
    running-best ECE (NLL), which is either still +inf or the value recorded
    at the step of the best threshold. *)
Theorem traces_follow_the_scan :
  (forall (dt : dtype) (classifier : tensor -> result tensor)
          (nll_criterion ece_criterion accuracy
           : tensor -> labels -> result float)
          (features_val logits_val : tensor) (labels_val : labels)
          (nv ev av : nat -> float),
      metrics_are (step_metrics dt classifier nll_criterion ece_criterion
                     accuracy features_val labels_val) nv ev av 2000 ->
      traces_recorded
        (FeatureClippingCalibrator.scan dt classifier nll_criterion
           ece_criterion accuracy features_val logits_val labels_val)
        nv ev av 2000) /\
  (forall (dt : dtype) (nll_criterion ece_criterion accuracy
           : tensor -> labels -> result float)
          (features_val logits_val : tensor) (labels_val : labels)
          (nv ev av : nat -> float),
      metrics_are (step_metrics dt FeatureClippingCalibrator2.classifier
                     nll_criterion ece_criterion accuracy
                     logits_val labels_val) nv ev av 4000 ->
      traces_recorded
        (FeatureClippingCalibrator2.scan dt nll_criterion
           ece_criterion accuracy features_val logits_val labels_val)
        nv ev av 4000).
Proof.
  split.
  - intros dt classifier nll_criterion ece_criterion accuracy features_val
           logits_val labels_val nv ev av Hm self.
    rewrite calibrator_scan_is_loop.
    exact (scan_loop_traces self
             (calibrator_body_follows dt classifier nll_criterion ece_criterion
                accuracy features_val labels_val) Hm).
  - intros dt nll_criterion ece_criterion accuracy features_val
           logits_val labels_val nv ev av Hm self.
    rewrite calibrator2_scan_is_loop.
    exact (scan_loop_traces self
             (calibrator2_body_follows dt nll_criterion ece_criterion
                accuracy logits_val labels_val) Hm).
Qed.

Lemma traces_follow_the_scan_witness :
  traces_recorded
    (FeatureClippingCalibrator.scan float64 head_id (const_metric (Fin 1))
       entry_metric (const_metric (Fin 1)) [[Fin 5]] [[Fin 5]] [0])
    (fun _ => Fin 1) entry_at (fun _ => Fin 1) 2000.
Proof.
  destruct traces_follow_the_scan as [Hcal _].
  apply (Hcal float64 head_id (const_metric (Fin 1)) entry_metric
              (const_metric (Fin 1)) [[Fin 5]] [[Fin 5]] [0]
              (fun _ => Fin 1) entry_at (fun _ => Fin 1)).
  float64_steps.
Defined.

(** X11.  The two criteria are tracked apart: under 'ece' the outcome of
    [set_feature_clip] depends on the ECE values only, under 'nll' on the NLL
    values only.  Two runs whose steps all return and agree on the selecting
    metric leave the same fields, however the other metric and the accuracy
    differ. *)
Theorem selection_ignores_the_other_metric :
  (forall (dt : dtype) (classifier classifier' : tensor -> result tensor)
          (nll_criterion ece_criterion accuracy
           nll_criterion' ece_criterion' accuracy'
           : tensor -> labels -> result float)
          (features_val logits_val features_val' logits_val' : tensor)
          (labels_val labels_val' : labels)
          (nv ev av nv' ev' av' : nat -> float) (self : calibrator),
      metrics_are (step_metrics dt classifier nll_criterion ece_criterion
                     accuracy features_val labels_val) nv ev av 2000 ->
      metrics_are (step_metrics dt classifier' nll_criterion' ece_criterion'
                     accuracy' features_val' labels_val') nv' ev' av' 2000 ->
      let run := FeatureClippingCalibrator.set_feature_clip dt classifier
                   nll_criterion ece_criterion accuracy
                   features_val logits_val labels_val in
      let run' := FeatureClippingCalibrator.set_feature_clip dt classifier'
                    nll_criterion' ece_criterion' accuracy'
                    features_val' logits_val' labels_val' in
      (cross_validate self = "ece"%string ->
       (forall q, q < 2000 -> ev q = ev' q) -> run self = run' self) /\
      (cross_validate self = "nll"%string ->
       (forall q, q < 2000 -> nv q = nv' q) -> run self = run' self)) /\
  (forall (dt : dtype) (nll_criterion ece_criterion accuracy
           nll_criterion' ece_criterion' accuracy'
           : tensor -> labels -> result float)
          (features_val logits_val features_val' logits_val' : tensor)
          (labels_val labels_val' : labels)
          (nv ev av nv' ev' av' : nat -> float) (self : calibrator),
      metrics_are (step_metrics dt FeatureClippingCalibrator2.classifier
                     nll_criterion ece_criterion accuracy
                     logits_val labels_val) nv ev av 4000 ->
      metrics_are (step_metrics dt FeatureClippingCalibrator2.classifier
                     nll_criterion' ece_criterion' accuracy'
                     logits_val' labels_val') nv' ev' av' 4000 ->
      let run := FeatureClippingCalibrator2.set_feature_clip
                   dt nll_criterion ece_criterion accuracy
                   features_val logits_val labels_val in
      let run' := FeatureClippingCalibrator2.set_feature_clip
                    dt nll_criterion' ece_criterion' accuracy'
                    features_val' logits_val' labels_val' in
      (cross_validate self = "ece"%string ->
       (forall q, q < 4000 -> ev q = ev' q) -> run self = run' self) /\
      (cross_validate self = "nll"%string ->
       (forall q, q < 4000 -> nv q = nv' q) -> run self = run' self)).
Proof.
  assert (Hbest : forall (v v' : nat -> float) (n : nat),
             (forall q, q < n -> v q = v' q) -> best v n = best v' n).
  { intros v v' n. induction n as [|n IH]; intros H; [reflexivity|].
    simpl. rewrite IH by (intros q Hq; apply H; lia).
    rewrite (H n) by lia. reflexivity. }
  split.
  - intros dt classifier classifier' nll_criterion ece_criterion accuracy
           nll_criterion' ece_criterion' accuracy'
           features_val logits_val features_val' logits_val'
           labels_val labels_val' nv ev av nv' ev' av' self Hm Hm' run run'.
    subst run run'. rewrite !calibrator_is_search.
    pose proof (calibrator_body_follows dt classifier nll_criterion
                  ece_criterion accuracy features_val labels_val) as Hbody.
    pose proof (calibrator_body_follows dt classifier' nll_criterion'
                  ece_criterion' accuracy' features_val' labels_val')
      as Hbody'.
    split; intros Hcv Heq.
    + rewrite (search_result_ece Hbody Hm _ Hcv),
        (search_result_ece Hbody' Hm' _ Hcv), (Hbest ev ev' 2000 Heq).
      reflexivity.
    + rewrite (search_result_nll Hbody Hm _ Hcv),
        (search_result_nll Hbody' Hm' _ Hcv), (Hbest nv nv' 2000 Heq).
      reflexivity.
  - intros dt nll_criterion ece_criterion accuracy
           nll_criterion' ece_criterion' accuracy'
           features_val logits_val features_val' logits_val'
           labels_val labels_val' nv ev av nv' ev' av' self Hm Hm' run run'.
    subst run run'. rewrite !calibrator2_is_search.
    pose proof (calibrator2_body_follows dt nll_criterion ece_criterion
                  accuracy logits_val labels_val) as Hbody.
    pose proof (calibrator2_body_follows dt nll_criterion'
                  ece_criterion' accuracy' logits_val' labels_val')
      as Hbody'.
    split; intros Hcv Heq.
    + rewrite (search_result_ece Hbody Hm _ Hcv),
        (search_result_ece Hbody' Hm' _ Hcv), (Hbest ev ev' 4000 Heq).
      reflexivity.
    + rewrite (search_result_nll Hbody Hm _ Hcv),
        (search_result_nll Hbody' Hm' _ Hcv), (Hbest nv nv' 4000 Heq).
      reflexivity.
Qed.

Lemma selection_ignores_the_other_metric_witness :
  FeatureClippingCalibrator.set_feature_clip float64 head_id
    (const_metric (Fin 1)) entry_metric (const_metric (Fin 1))
    [[Fin 5]] [[Fin 5]] [0] (FeatureClippingCalibrator.__init__ "ece") =
  FeatureClippingCalibrator.set_feature_clip float64 head_id
    (const_metric NaN) entry_metric (const_metric (Fin 0))
    [[Fin 5]] [[Fin 7]] [1] (FeatureClippingCalibrator.__init__ "ece").
Proof.
  destruct selection_ignores_the_other_metric as [Hcal _].
  destruct (Hcal float64 head_id head_id
                 (const_metric (Fin 1)) entry_metric (const_metric (Fin 1))
                 (const_metric NaN) entry_metric (const_metric (Fin 0))
                 [[Fin 5]] [[Fin 5]] [[Fin 5]] [[Fin 7]] [0] [1]
                 (fun _ => Fin 1) entry_at (fun _ => Fin 1)
                 (fun _ => NaN) entry_at (fun _ => Fin 0)
                 (FeatureClippingCalibrator.__init__ "ece"))
    as [Hece _].
  - float64_steps.
  - float64_steps.
  - apply Hece; [reflexivity | float64_steps].
Defined.

(** * The rounding of the floating point types *)

(** ** Rounding to the nearest integer *)

Lemma round_half_even_spec (q : Q) : nearest_even q (round_half_even q).
Proof.
  destruct q as [n d]. unfold round_half_even, nearest_even.
  cbn [Qnum Qden].
  pose proof (Z.div_mod n (Zpos d) ltac:(lia)) as Hdm.
  pose proof (Z.mod_pos_bound n (Zpos d) ltac:(lia)) as Hr.
  set (f := (n / Zpos d)%Z) in *. set (r := (n mod Zpos d)%Z) in *.
  clearbody f r. subst n.
  destruct (2 * r ?= Zpos d)%Z eqn:E.
  - apply Z.compare_eq in E. right.
    destruct (Z.even f) eqn:Ev.
    + split; [left | exact Ev].
      unfold Qeq, Qplus, inject_Z. cbn [Qnum Qden]. nia.
    + split; [right |].
      * unfold Qeq, Qminus, Qplus, Qopp, inject_Z. cbn [Qnum Qden]. nia.
      * rewrite Z.even_add, Ev. reflexivity.
  - assert (E' : (2 * r < Zpos d)%Z) by (apply Z.compare_lt_iff; exact E).
    clear E. left. split.
    + unfold Qlt, Qminus, Qplus, Qopp, inject_Z. cbn [Qnum Qden]. nia.
    + unfold Qlt, Qplus, inject_Z. cbn [Qnum Qden]. nia.
  - assert (E' : (Zpos d < 2 * r)%Z) by (apply Z.compare_gt_iff; exact E).
    clear E. left. split.
    + unfold Qlt, Qminus, Qplus, Qopp, inject_Z. cbn [Qnum Qden]. nia.
    + unfold Qlt, Qplus, inject_Z. cbn [Qnum Qden]. nia.
Qed.

Lemma nearest_even_le (a b : Q) (za zb : Z) :
  nearest_even a za -> nearest_even b zb -> (a <= b)%Q -> (za <= zb)%Z.
Proof.
  intros Ha Hb Hab.
  destruct (Z_le_gt_dec za zb) as [H | H]; [exact H | exfalso].
  assert (Hz : (inject_Z zb + 1 <= inject_Z za)%Q).
  { change 1%Q with (inject_Z 1). rewrite <- inject_Z_plus.
    rewrite <- Zle_Qle. lia. }
  destruct Ha as [[Ha1 Ha2] | [[Ha | Ha] Ea]];
    destruct Hb as [[Hb1 Hb2] | [[Hb | Hb] Eb]]; try lra.
  assert (Heq : (inject_Z za == inject_Z (zb + 1))%Q).
  { rewrite inject_Z_plus. change (inject_Z 1) with 1%Q. lra. }
  apply (proj1 (inject_Z_injective _ _)) in Heq. rewrite Heq in Ea.
  rewrite Z.even_add, Eb in Ea. discriminate.
Qed.

Lemma round_half_even_le (a b : Q) :
  (a <= b)%Q -> (round_half_even a <= round_half_even b)%Z.
Proof.
  apply nearest_even_le; apply round_half_even_spec.
Qed.

Lemma nearest_even_unique (q : Q) (z : Z) :
  nearest_even q z -> round_half_even q = z.
Proof.
  intros H. apply Z.le_antisymm.
  - exact (nearest_even_le (round_half_even_spec q) H (Qle_refl q)).
  - exact (nearest_even_le H (round_half_even_spec q) (Qle_refl q)).
Qed.

Lemma round_half_even_eq (a b : Q) :
  (a == b)%Q -> round_half_even a = round_half_even b.
Proof.
  intros H. apply Z.le_antisymm; apply round_half_even_le; lra.
Qed.

Lemma round_half_even_Z (q : Q) (z : Z) :
  (q == inject_Z z)%Q -> round_half_even q = z.
Proof.
  intros H. apply nearest_even_unique. left. lra.
Qed.

Lemma round_half_even_opp (q : Q) :
  round_half_even (- q) = (- round_half_even q)%Z.
Proof.
  apply nearest_even_unique.
  destruct (round_half_even_spec q) as [[H1 H2] | [[H | H] E]].
  - left. rewrite inject_Z_opp. lra.
  - right. rewrite inject_Z_opp, Z.even_opp. split; [right; lra | exact E].
  - right. rewrite inject_Z_opp, Z.even_opp. split; [left; lra | exact E].
Qed.

(** ** Powers of two *)

Lemma pow2_pos (e : Z) : (0 < pow2 e)%Q.
Proof. apply Qpower_0_lt. reflexivity. Qed.

Lemma pow2_plus (a b : Z) : (pow2 (a + b) == pow2 a * pow2 b)%Q.
Proof. apply Qpower_plus. discriminate. Qed.

Lemma pow2_Z (k : Z) : (0 <= k)%Z -> (pow2 k == inject_Z (2 ^ k))%Q.
Proof. intros H. rewrite (Zpower_Qpower 2 k H). reflexivity. Qed.

Lemma pow2_le (a b : Z) : (a <= b)%Z -> (pow2 a <= pow2 b)%Q.
Proof.
  intros H. apply Qpower_le_compat_l; [exact H | discriminate].
Qed.

Lemma pow2_lt_inv (a b : Z) : (pow2 a < pow2 b)%Q -> (a < b)%Z.
Proof.
  intros H. apply (Qpower_lt_compat_l_inv 2); [exact H | reflexivity].
Qed.

(** ** The binade of a number *)

Lemma Qabs_den (q : Q) :
  (Qabs q * inject_Z (Zpos (Qden q)) == inject_Z (Z.abs (Qnum q)))%Q.
Proof.
  destruct q as [n d]. unfold Qabs, Qeq, Qmult, inject_Z.
  cbn [Qnum Qden]. rewrite Pos2Z.inj_mul. ring.
Qed.

Lemma binade_spec (q : Q) :
  ~ (q == 0)%Q ->
  (pow2 (binade q) <= Qabs q /\ Qabs q < pow2 (binade q + 1))%Q.
Proof.
  intros Hq.
  assert (Hn : (0 < Z.abs (Qnum q))%Z).
  { destruct q as [n d]. unfold Qeq in Hq. cbn in Hq |- *. lia. }
  assert (Hd : (0 < Zpos (Qden q))%Z) by lia.
  pose proof (Qabs_den q) as Hnd.
  pose proof (Qabs_nonneg q) as Habs.
  unfold binade.
  set (n := Z.abs (Qnum q)) in *. set (d := Zpos (Qden q)) in *.
  destruct (Z.log2_spec n Hn) as [Hn1 Hn2].
  destruct (Z.log2_spec d Hd) as [Hd1 Hd2].
  pose proof (Z.log2_nonneg n) as Hln. pose proof (Z.log2_nonneg d) as Hld.
  set (ln := Z.log2 n) in *. set (ld := Z.log2 d) in *.
  rewrite Zle_Qle, <- (pow2_Z Hln) in Hn1.
  rewrite Zlt_Qlt, <- (@pow2_Z (Z.succ ln)) in Hn2 by lia.
  rewrite Zle_Qle, <- (pow2_Z Hld) in Hd1.
  rewrite Zlt_Qlt, <- (@pow2_Z (Z.succ ld)) in Hd2 by lia.
  assert (Hup : (Qabs q < pow2 (ln - ld + 1))%Q).
  { apply (Qmult_lt_r _ _ (pow2 ld) (pow2_pos ld)).
    rewrite <- pow2_plus.
    replace (ln - ld + 1 + ld)%Z with (Z.succ ln) by lia.
    apply Qle_lt_trans with (Qabs q * inject_Z d)%Q.
    - rewrite !(Qmult_comm (Qabs q)).
      apply Qmult_le_compat_r; assumption.
    - rewrite Hnd. exact Hn2. }
  assert (Hlow : (pow2 (ln - ld - 1) <= Qabs q)%Q).
  { apply (Qmult_le_r _ _ (pow2 (Z.succ ld)) (pow2_pos (Z.succ ld))).
    rewrite <- pow2_plus.
    replace (ln - ld - 1 + Z.succ ld)%Z with ln by lia.
    apply Qle_trans with (Qabs q * inject_Z d)%Q.
    - rewrite Hnd. exact Hn1.
    - rewrite !(Qmult_comm (Qabs q)).
      apply Qmult_le_compat_r; [|exact Habs].
      apply Qlt_le_weak. exact Hd2. }
  destruct (Qle_bool (pow2 (ln - ld)) (Qabs q)) eqn:E.
  - apply Qle_bool_iff in E. split; assumption.
  - split; [exact Hlow|].
    replace (ln - ld - 1 + 1)%Z with (ln - ld)%Z by lia.
    destruct (Qlt_le_dec (Qabs q) (pow2 (ln - ld))) as [H | H]; [exact H|].
    apply Qle_bool_iff in H. congruence.
Qed.

Lemma binade_opp (q : Q) : binade (- q) = binade q.
Proof.
  destruct q as [n d]. unfold binade, Qabs, Qopp. cbn [Qnum Qden].
  rewrite Z.abs_opp. reflexivity.
Qed.

(** ** Rounding on the grid of the multiples of [2^e] *)

Lemma round_at_le (e : Z) (a b : Q) :
  (a <= b)%Q -> (round_at e a <= round_at e b)%Q.
Proof.
  intros H. unfold round_at.
  apply Qmult_le_compat_r; [|apply Qlt_le_weak, pow2_pos].
  rewrite <- Zle_Qle. apply round_half_even_le.
  unfold Qdiv. apply Qmult_le_compat_r; [exact H|].
  apply Qlt_le_weak, Qinv_lt_0_compat, pow2_pos.
Qed.

Lemma round_at_pow2 (e k : Z) :
  (e <= k)%Z -> (round_at e (pow2 k) == pow2 k)%Q.
Proof.
  intros H. unfold round_at.
  assert (Hp : ~ (pow2 e == 0)%Q).
  { pose proof (pow2_pos e). lra. }
  assert (Hq : (pow2 k / pow2 e == inject_Z (2 ^ (k - e)))%Q).
  { rewrite <- pow2_Z by lia.
    replace k with (k - e + e)%Z at 1 by lia.
    rewrite pow2_plus. apply Qdiv_mult_l. exact Hp. }
  rewrite (round_half_even_Z Hq), <- pow2_Z by lia.
  rewrite <- pow2_plus. replace (k - e + e)%Z with k by lia. reflexivity.
Qed.

Lemma round_at_0 (e : Z) (q : Q) : (q == 0)%Q -> (round_at e q == 0)%Q.
Proof.
  intros H. unfold round_at.
  assert (Hq : (q / pow2 e == inject_Z 0)%Q).
  { rewrite H. unfold Qdiv. change (inject_Z 0) with 0%Q. ring. }
  rewrite (round_half_even_Z Hq). change (inject_Z 0) with 0%Q. ring.
Qed.

Lemma round_at_opp (e : Z) (q : Q) :
  (round_at e (- q) == - round_at e q)%Q.
Proof.
  unfold round_at.
  assert (Hq : (- q / pow2 e == - (q / pow2 e))%Q).
  { unfold Qdiv. ring. }
  rewrite (round_half_even_eq Hq), round_half_even_opp, inject_Z_opp.
  ring.
Qed.

(** ** The rounding of a binary format *)

Section BinaryFormat.
Variables prec emin : Z.
Hypothesis Hprec : (1 <= prec)%Z.

Let scale (q : Q) : Z := Z.max (binade q - (prec - 1)) emin.

Lemma binary_value_nonzero (q : Q) :
  ~ (q == 0)%Q -> binary_value prec emin q = round_at (scale q) q.
Proof.
  intros H. unfold binary_value.
  destruct (Qeq_bool q 0) eqn:E; [|reflexivity].
  apply Qeq_bool_iff in E. contradiction.
Qed.

Lemma binary_value_zero (q : Q) :
  (q == 0)%Q -> binary_value prec emin q = 0%Q.
Proof.
  intros H. unfold binary_value.
  apply Qeq_bool_iff in H. rewrite H. reflexivity.
Qed.

Lemma binary_value_opp (q : Q) :
  (binary_value prec emin (- q) == - binary_value prec emin q)%Q.
Proof.
  destruct (Qeq_dec q 0) as [H | H].
  - rewrite (binary_value_zero H).
    assert (H' : (- q == 0)%Q) by lra.
    rewrite (binary_value_zero H'). reflexivity.
  - assert (H' : ~ (- q == 0)%Q) by lra.
    rewrite (binary_value_nonzero H), (binary_value_nonzero H').
    unfold scale. rewrite binade_opp. apply round_at_opp.
Qed.

Lemma binary_value_nonneg (q : Q) :
  (0 <= q)%Q -> (0 <= binary_value prec emin q)%Q.
Proof.
  intros Hq. destruct (Qeq_dec q 0) as [H | H].
  - rewrite (binary_value_zero H). apply Qle_refl.
  - rewrite (binary_value_nonzero H).
    rewrite <- (@round_at_0 (scale q) 0 (Qeq_refl 0)).
    apply round_at_le. exact Hq.
Qed.

Lemma binary_value_le_pos (a b : Q) :
  (0 < a)%Q -> (a <= b)%Q ->
  (binary_value prec emin a <= binary_value prec emin b)%Q.
Proof.
  intros Ha Hab.
  assert (Ha0 : ~ (a == 0)%Q) by lra.
  assert (Hb0 : ~ (b == 0)%Q) by lra.
  rewrite (binary_value_nonzero Ha0), (binary_value_nonzero Hb0).
  destruct (binade_spec Ha0) as [Ha1 Ha2].
  destruct (binade_spec Hb0) as [Hb1 Hb2].
  rewrite Qabs_pos in Ha1, Ha2 by lra.
  rewrite Qabs_pos in Hb1, Hb2 by lra.
  assert (Hbin : (binade a <= binade b)%Z).
  { assert (H : (binade a < binade b + 1)%Z); [|lia].
    apply pow2_lt_inv. lra. }
  destruct (Z.eq_dec (scale a) (scale b)) as [He | He].
  - rewrite He. apply round_at_le. exact Hab.
  - assert (Hlt : (scale a < scale b)%Z) by (unfold scale in *; lia).
    assert (Hsb : scale b = (binade b - (prec - 1))%Z)
      by (unfold scale in *; lia).
    assert (Hstep : (binade a + 1 <= binade b)%Z)
      by (unfold scale in *; lia).
    pose proof (pow2_le Hstep) as Hmid.
    apply Qle_trans with (pow2 (binade b)).
    + rewrite <- (@round_at_pow2 (scale a) (binade b)) by lia.
      apply round_at_le. lra.
    + rewrite <- (@round_at_pow2 (scale b) (binade b)) at 1 by lia.
      apply round_at_le. exact Hb1.
Qed.

Lemma binary_value_le (a b : Q) :
  (a <= b)%Q -> (binary_value prec emin a <= binary_value prec emin b)%Q.
Proof.
  intros Hab.
  destruct (Qlt_le_dec 0 a) as [Ha | Ha].
  - apply binary_value_le_pos; assumption.
  - destruct (Qlt_le_dec b 0) as [Hb | Hb].
    + assert (H : (binary_value prec emin (- b) <=
                   binary_value prec emin (- a))%Q)
        by (apply binary_value_le_pos; lra).
      rewrite !binary_value_opp in H. lra.
    + pose proof (binary_value_nonneg Hb) as H1.
      assert (H2 : (0 <= binary_value prec emin (- a))%Q)
        by (apply binary_value_nonneg; lra).
      rewrite binary_value_opp in H2. lra.
Qed.

Lemma binary_nearest_le (a b : Q) :
  (a <= b)%Q -> (binary_nearest prec emin a <= binary_nearest prec emin b)%Q.
Proof.
  intros H. unfold binary_nearest. apply Qred_le. apply binary_value_le.
  exact H.
Qed.

Lemma binary_nearest_one (a b : Q) :
  (binary_nearest prec emin a == binary_nearest prec emin b)%Q ->
  binary_nearest prec emin a = binary_nearest prec emin b.
Proof.
  unfold binary_nearest. intros H. apply Qred_complete.
  apply Qeq_Qred_iff. exact H.
Qed.

Lemma binary_nearest_opp (a : Q) :
  binary_nearest prec emin (- a) = (- binary_nearest prec emin a)%Q.
Proof.
  unfold binary_nearest. rewrite <- Qred_opp. apply Qred_complete.
  apply binary_value_opp.
Qed.

Lemma binary_nearest_zero (a : Q) :
  (a == 0)%Q -> (binary_nearest prec emin a == 0)%Q.
Proof.
  intros H. unfold binary_nearest. rewrite (binary_value_zero H).
  reflexivity.
Qed.
End BinaryFormat.

(** ** The laws of the rounding, for every type *)

Lemma rounding_keeps_order (dt : dtype) : monotone_rounding dt.
Proof.
  intros a b H.
  destruct dt; cbn [nearest]; try (apply binary_nearest_le; [lia | exact H]).
  exact H.
Qed.

Lemma rounding_is_single_valued (dt : dtype) : single_valued_rounding dt.
Proof.
  intros a b Hlt Heq.
  destruct dt; cbn [nearest] in *; try (apply binary_nearest_one; exact Heq).
  rewrite Heq in Hlt. destruct (Qlt_irrefl _ Hlt).
Qed.

Lemma rounding_is_symmetric (dt : dtype) : symmetric_rounding dt.
Proof.
  intros a. destruct dt; cbn [nearest]; try apply binary_nearest_opp.
  reflexivity.
Qed.

Lemma rounding_keeps_zero (dt : dtype) : zero_rounding dt.
Proof.
  intros a H. destruct dt; cbn [nearest]; try (apply binary_nearest_zero; exact H).
  exact H.
Qed.

(** * Further properties of the clipping transform *)

Lemma clip_results_iff (dt : dtype) (c : float) (X Y : tensor) :
  clip_results dt c X Y <-> torch_clamp dt X (fneg c) c = Ok Y.
Proof.
  split.
  - intros H. destruct (H EmptyString None) as [H1 _].
    destruct (calibrator_feature_clipping dt X (Calibrator EmptyString c None))
      as [HB _].
    rewrite HB in H1. exact H1.
  - intros H cv b.
    destruct (calibrator_feature_clipping dt X (Calibrator cv c b))
      as [HB HC].
    rewrite HB, HC, wrapper_feature_clipping. simpl. auto.
Qed.

(** what [feature_clipping] returns is the clamp between the converted
    bounds *)
Lemma clip_results_bounds (dt : dtype) (c : float) (X Y : tensor) :
  clip_results dt c X Y ->
  exists lo hi, cast dt (fneg c) = Ok lo /\ cast dt c = Ok hi /\
                Y = clamp X lo hi.
Proof.
  intros H. apply clip_results_iff in H.
  exact (@torch_clamp_returns dt X Y (fneg c) c H).
Qed.

Lemma clip_results_clamp (dt : dtype) (c lo hi : float) (X : tensor) :
  cast dt (fneg c) = Ok lo -> cast dt c = Ok hi ->
  clip_results dt c X (clamp X lo hi).
Proof.
  intros Hlo Hhi. apply clip_results_iff.
  exact (@torch_clamp_ok dt X (fneg c) c lo hi Hlo Hhi).
Qed.

Lemma cast_Fin (dt : dtype) (q : Q) (c' : float) :
  cast dt (Fin q) = Ok c' -> c' = Fin (nearest dt q).
Proof.
  simpl. destruct (Qle_bool _ _); [|discriminate].
  intros H. injection H as <-. reflexivity.
Qed.

Lemma cast_is_nan (dt : dtype) (c c' : float) :
  cast dt c = Ok c' -> is_nan c' = is_nan c.
Proof.
  destruct c as [| |q|]; try (intros H; injection H as <-; reflexivity).
  intros H. apply cast_Fin in H. subst c'. reflexivity.
Qed.

Lemma is_nan_fneg (c : float) : is_nan (fneg c) = is_nan c.
Proof. destruct c; reflexivity. Qed.

(** a rounding that keeps the order keeps the order of the bounds *)
Lemma cast_le (dt : dtype) (a b a' b' : float) :
  monotone_rounding dt -> fle a b = true ->
  cast dt a = Ok a' -> cast dt b = Ok b' -> fle a' b' = true.
Proof.
  intros Hmon Hab Ha Hb.
  destruct a as [| |a|], b as [| |b|]; try discriminate;
    try (apply cast_Fin in Ha); try (apply cast_Fin in Hb);
    try (injection Ha as <-); try (injection Hb as <-); subst;
    try reflexivity.
  apply fle_Fin. apply Hmon. apply fle_Fin. exact Hab.
Qed.

Lemma cast_lt (dt : dtype) (a b a' b' : float) :
  monotone_rounding dt -> single_valued_rounding dt ->
  flt a b = true ->
  cast dt a = Ok a' -> cast dt b = Ok b' ->
  flt a' b' = true \/ a' = b'.
Proof.
  intros Hmon Hone Hab Ha Hb.
  destruct a as [| |a|], b as [| |b|]; try discriminate;
    try (apply cast_Fin in Ha); try (apply cast_Fin in Hb);
    try (injection Ha as <-); try (injection Hb as <-); subst;
    try (left; reflexivity).
  apply flt_Fin in Hab.
  pose proof (Hmon a b (Qlt_le_weak _ _ Hab)) as Hle.
  destruct (Qlt_le_dec (nearest dt a) (nearest dt b)) as [Hlt | Hge].
  - left. apply flt_Fin. exact Hlt.
  - right. f_equal. apply (Hone a b Hab). apply Qle_antisym; assumption.
Qed.

(** a symmetric rounding gives opposite bounds *)
Lemma cast_fneg (dt : dtype) (c lo hi : float) :
  symmetric_rounding dt ->
  cast dt (fneg c) = Ok lo -> cast dt c = Ok hi -> lo = fneg hi.
Proof.
  intros Hsym Hlo Hhi.
  destruct c as [| |q|]; simpl fneg in Hlo;
    try (apply cast_Fin in Hlo); try (apply cast_Fin in Hhi);
    try (injection Hlo as <-); try (injection Hhi as <-); subst;
    try reflexivity.
  simpl. rewrite Hsym. reflexivity.
Qed.

Lemma fle_fneg (a b : float) :
  fle a b = true -> fle (fneg b) (fneg a) = true.
Proof.
  destruct a as [| |a|], b as [| |b|]; try discriminate; try reflexivity.
  intros H. simpl fneg. finite_order.
Qed.

Lemma flt_fneg (a b : float) :
  flt a b = true -> flt (fneg b) (fneg a) = true.
Proof.
  destruct a as [| |a|], b as [| |b|]; try discriminate; try reflexivity.
  intros H. simpl fneg. finite_order.
Qed.

Lemma fle_neg_self_inv (h : float) :
  fle (fneg h) h = true -> fle (Fin 0) h = true.
Proof.
  destruct h as [| |h|]; try discriminate; try reflexivity.
  simpl fneg. intros H. finite_order.
Qed.

(** with a threshold that is not negative and a rounding that keeps the
    order, the converted bounds are in order *)
Lemma cast_bounds_ordered (dt : dtype) (c lo hi : float) :
  monotone_rounding dt -> fle (Fin 0) c = true ->
  cast dt (fneg c) = Ok lo -> cast dt c = Ok hi -> fle lo hi = true.
Proof.
  intros Hmon Hc Hlo Hhi.
  exact (@cast_le dt (fneg c) c lo hi Hmon (@fle_neg_self c Hc) Hlo Hhi).
Qed.

Lemma is_nan_clamp_elt (lo hi x : float) :
  is_nan lo = false -> is_nan hi = false ->
  is_nan (clamp_elt lo hi x) = is_nan x.
Proof.
  intros Hlo Hhi.
  destruct (is_nan x) eqn:Hx; [destruct x; try discriminate; reflexivity|].
  rewrite (@clamp_elt_not_nan lo hi x Hlo Hhi Hx).
  destruct (flt x lo) eqn:Elo.
  - destruct (flt hi lo); assumption.
  - destruct (flt hi x); assumption.
Qed.

Lemma clamp_elt_clipped_between (lo hi x : float) :
  fle lo hi = true -> clipped_between lo hi x (clamp_elt lo hi x).
Proof.
  intros H. rewrite (@clamp_elt_between lo hi x H).
  unfold clipped_between, clamp_between, fgt.
  split.
  - destruct x; try discriminate. intros _.
    destruct hi; try reflexivity; destruct lo; reflexivity.
  - intros Hx.
    destruct lo as [| |lo|]; try discriminate;
      destruct hi as [| |hi|]; try discriminate;
      destruct x as [| |x|]; try discriminate;
      split_comparisons; repeat split; intros; finite_order.
Qed.

Lemma Forall2_map_r {A B : Type} (R : A -> B -> Prop) (f : A -> B)
      (l : list A) :
  (forall a, R a (f a)) -> Forall2 R l (map f l).
Proof.
  intros H. induction l as [|a l IH]; simpl; constructor; auto.
Qed.

(** X12.  Clipping keeps the shape of the tensor, and with a threshold [C]
    that is not negative every entry of the result that is not NaN lies
    between the two bounds that the conversion of -C and C to the type of
    the tensor gives, an entry that already lay between them being returned
    as it is; a NaN entry stays NaN.  The two bounds are opposite and in
    order.  This holds for [feature_clipping] of the three classes. *)
Theorem clipped_entries_within_threshold :
  forall (dt : dtype) (c : float) (X Y : tensor),
    clip_results dt c X Y ->
    fle (Fin 0) c = true ->
    exists lo hi,
      cast dt (fneg c) = Ok lo /\ cast dt c = Ok hi /\
      lo = fneg hi /\ fle lo hi = true /\
      Forall2 (Forall2 (clipped_between lo hi)) X Y.
Proof.
  intros dt c X Y H Hc.
  destruct (@clip_results_bounds dt c X Y H) as (lo & hi & Hlo & Hhi & ->).
  pose proof (@cast_bounds_ordered dt c lo hi (rounding_keeps_order dt)
                Hc Hlo Hhi) as Hle.
  exists lo, hi. repeat split; try assumption.
  - exact (@cast_fneg dt c lo hi (rounding_is_symmetric dt) Hlo Hhi).
  - unfold clamp. apply Forall2_map_r. intros row.
    apply Forall2_map_r. intros x.
    apply clamp_elt_clipped_between. exact Hle.
Qed.

Lemma clipped_entries_within_threshold_witness :
  let X := [[Fin (-5 # 1)%Q; Fin (1 # 16)%Q; NaN]; [PosInf; Fin (3 # 1)%Q]] in
  let lo := Fin (-9395241 # 134217728)%Q in
  let hi := Fin (9395241 # 134217728)%Q in
  let Y := [[lo; Fin (1 # 16)%Q; NaN]; [hi; hi]] in
  clip_results float32 (Fin (7 # 100)%Q) X Y /\
  Forall2 (Forall2 (clipped_between lo hi)) X Y.
Proof.
  intros X lo hi Y.
  assert (H : clip_results float32 (Fin (7 # 100)%Q) X Y)
    by (intros cv b; vm_compute; repeat split).
  split; [exact H|].
  destruct (@clipped_entries_within_threshold float32 (Fin (7 # 100)%Q)
              X Y H eq_refl)
    as (lo' & hi' & Hlo & Hhi & _ & _ & Hall).
  vm_compute in Hlo, Hhi.
  injection Hlo as <-. injection Hhi as <-. exact Hall.
Defined.

(** X13.  Clipping neither removes nor introduces NaN: whatever the
    threshold, unless it is NaN itself, an entry of the result of
    [feature_clipping] is NaN exactly when the entry of the argument at the
    same place is. *)
Theorem clipping_keeps_nan_in_place :
  forall (dt : dtype) (c : float) (X Y : tensor),
    is_nan c = false ->
    clip_results dt c X Y ->
    Forall2 (Forall2 (fun x y => is_nan y = is_nan x)) X Y.
Proof.
  intros dt c X Y Hc H.
  destruct (@clip_results_bounds dt c X Y H) as (lo & hi & Hlo & Hhi & ->).
  apply cast_is_nan in Hlo, Hhi. rewrite is_nan_fneg, Hc in Hlo.
  rewrite Hc in Hhi.
  unfold clamp. apply Forall2_map_r. intros row.
  apply Forall2_map_r. intros x. apply is_nan_clamp_elt; assumption.
Qed.

Lemma clipping_keeps_nan_in_place_witness :
  let X := [[Fin (-5 # 1)%Q; NaN]; [PosInf; Fin (3 # 1)%Q]] in
  let lo := Fin (-9395241 # 134217728)%Q in
  let hi := Fin (9395241 # 134217728)%Q in
  let Y := [[lo; NaN]; [hi; hi]] in
  clip_results float32 (Fin (7 # 100)%Q) X Y /\
  Forall2 (Forall2 (fun x y => is_nan y = is_nan x)) X Y.
Proof.
  intros X lo hi Y.
  assert (H : clip_results float32 (Fin (7 # 100)%Q) X Y)
    by (intros cv b; vm_compute; repeat split).
  split; [exact H|].
  exact (@clipping_keeps_nan_in_place float32 (Fin (7 # 100)%Q) X Y
           eq_refl H).
Defined.

Lemma Qopp_opp_eq (q : Q) : (- - q)%Q = q.
Proof. destruct q as [n d]. unfold Qopp. simpl. rewrite Z.opp_involutive.
       reflexivity. Qed.

Lemma fle_flt_false (a b : float) : fle a b = true -> flt b a = false.
Proof.
  destruct a as [| |a|], b as [| |b|]; try discriminate; try reflexivity.
  intros H. finite_order.
Qed.

Lemma fle_trans (a b c : float) :
  fle a b = true -> fle b c = true -> fle a c = true.
Proof.
  destruct a as [| |a|], b as [| |b|], c as [| |c|];
    try discriminate; try reflexivity.
  intros H1 H2. finite_order.
Qed.

Lemma flt_fle (a b : float) : flt a b = true -> fle a b = true.
Proof. unfold fle. intros ->. reflexivity. Qed.

(** between bounds in order the clamp leaves what lies between them *)
Lemma clamp_between_id (lo hi x : float) :
  fle lo x = true -> fle x hi = true -> clamp_between lo hi x = x.
Proof.
  intros Hlo Hhi. unfold clamp_between, fgt.
  rewrite (fle_flt_false _ _ Hhi), (fle_flt_false _ _ Hlo). reflexivity.
Qed.

Lemma clamp_between_nan (lo hi : float) : clamp_between lo hi NaN = NaN.
Proof.
  unfold clamp_between, fgt.
  destruct hi; try reflexivity; destruct lo; reflexivity.
Qed.

Lemma clamp_between_range (lo hi x : float) :
  fle lo hi = true -> is_nan x = false ->
  fle lo (clamp_between lo hi x) = true /\
  fle (clamp_between lo hi x) hi = true.
Proof.
  intros H Hx.
  destruct (@clamp_elt_clipped_between lo hi x H) as [_ Hin].
  rewrite (@clamp_elt_between lo hi x H) in Hin.
  destruct (Hin Hx) as (H1 & H2 & _). split; assumption.
Qed.

(** clamping twice, the second bounds around the first or inside them *)
Lemma clamp_between_twice (lo1 hi1 lo2 hi2 x : float) :
  fle lo1 hi1 = true -> fle lo2 hi2 = true ->
  (fle lo2 lo1 = true -> fle hi1 hi2 = true ->
   clamp_between lo2 hi2 (clamp_between lo1 hi1 x) =
   clamp_between lo1 hi1 x) /\
  (flt lo1 lo2 = true \/ lo1 = lo2 ->
   flt hi2 hi1 = true \/ hi2 = hi1 ->
   clamp_between lo2 hi2 (clamp_between lo1 hi1 x) =
   clamp_between lo2 hi2 x).
Proof.
  intros H1 H2. split.
  - intros Hlo Hhi.
    destruct (is_nan x) eqn:Hx.
    + destruct x; try discriminate. rewrite !clamp_between_nan.
      reflexivity.
    + destruct (@clamp_between_range lo1 hi1 x H1 Hx) as [Ha Hb].
      apply clamp_between_id; eapply fle_trans; eassumption.
  - intros Hlo Hhi.
    assert (Hl : fle lo1 lo2 = true).
    { destruct Hlo as [Hlo | <-]; [exact (flt_fle _ _ Hlo)|].
      apply fle_refl. apply (fle_not_nan _ _ H1). }
    assert (Hh : fle hi2 hi1 = true).
    { destruct Hhi as [Hhi | <-]; [exact (flt_fle _ _ Hhi)|].
      apply fle_refl. apply (fle_not_nan _ _ H2). }
    unfold clamp_between at 2. unfold fgt.
    destruct (flt hi1 x) eqn:E1.
    + assert (E2 : flt hi2 x = true)
        by exact (fle_flt_trans _ _ _ Hh E1).
      unfold clamp_between at 2. unfold fgt. rewrite E2.
      destruct Hhi as [Hhi | <-].
      * unfold clamp_between, fgt. rewrite Hhi. reflexivity.
      * apply clamp_between_id; [exact H2|].
        apply fle_refl. apply (fle_not_nan _ _ H2).
    + destruct (flt x lo1) eqn:E3; [|reflexivity].
      assert (E4 : flt x lo2 = true).
      { destruct Hlo as [Hlo | <-]; [|exact E3].
        exact (flt_trans _ _ _ E3 Hlo). }
      assert (E5 : flt hi2 x = false).
      { destruct (flt hi2 x) eqn:E; [|reflexivity].
        pose proof (fle_flt_trans _ _ _ H2 E) as E'.
        pose proof (flt_trans _ _ _ E' E4) as E''.
        rewrite flt_irrefl in E''. discriminate. }
      unfold clamp_between at 2. unfold fgt. rewrite E5, E4.
      destruct Hlo as [Hlo | <-].
      * unfold clamp_between, fgt.
        rewrite (fle_flt_false _ _ (fle_trans _ _ _ Hl H2)), Hlo.
        reflexivity.
      * apply clamp_between_id; [|exact H2].
        apply fle_refl. apply (fle_not_nan _ _ H2).
Qed.

Lemma clamp_spec_odd (c x : float) :
  fle (Fin 0) c = true ->
  clamp_spec c (fneg x) = fneg (clamp_spec c x).
Proof.
  intros Hc. unfold clamp_spec, fgt.
  destruct c as [| |c|]; try discriminate;
    destruct x as [| |x|]; cbn [fneg];
    try reflexivity;
    split_comparisons; cbn [fneg]; finite_order;
    try (rewrite Qopp_opp_eq; reflexivity).
Qed.

(** the clamp keeps the order, whatever the bounds *)
Lemma clamp_elt_monotone (lo hi x y : float) :
  is_nan lo = false -> is_nan hi = false -> fle x y = true ->
  fle (clamp_elt lo hi x) (clamp_elt lo hi y) = true.
Proof.
  intros Hlo Hhi Hxy. destruct (fle_not_nan _ _ Hxy) as [Hx Hy].
  rewrite (@clamp_elt_not_nan lo hi x Hlo Hhi Hx).
  rewrite (@clamp_elt_not_nan lo hi y Hlo Hhi Hy).
  destruct lo as [| |lo|]; try discriminate;
    destruct hi as [| |hi|]; try discriminate;
    destruct x as [| |x|]; try discriminate;
    destruct y as [| |y|]; try discriminate;
    split_comparisons; finite_order.
Qed.

(** between two bounds that are zero nothing is left but zero *)
Lemma clamp_elt_zero (lo hi : Q) (x : float) :
  (lo == 0)%Q -> (hi == 0)%Q ->
  let y := clamp_elt (Fin lo) (Fin hi) x in
  is_nan y = true \/ feq y (Fin 0) = true.
Proof.
  intros Hlo Hhi y. subst y.
  destruct x as [| |x|]; try (left; reflexivity);
    right; unfold clamp_elt; cbn [is_nan orb];
    split_comparisons; finite_order.
Qed.

Lemma map_map_ext {A : Type} (f g : A -> A) (t : list (list A)) :
  (forall a, f a = g a) -> map (map f) t = map (map g) t.
Proof.
  intros H. apply map_ext. intros row. apply map_ext. exact H.
Qed.

Lemma map_map_compose {A : Type} (f g : A -> A) (t : list (list A)) :
  map (map g) (map (map f) t) = map (map (fun a => g (f a))) t.
Proof.
  rewrite map_map. apply map_ext. intros row. apply map_map.
Qed.

Lemma Forall_map_all {A B : Type} (P : B -> Prop) (f : A -> B) (l : list A) :
  (forall a, P (f a)) -> Forall P (map f l).
Proof.
  intros H. induction l as [|a l IH]; simpl; constructor; auto.
Qed.

(** X14.  Clipping twice, with thresholds that are not negative: clipping at
    [c2] what was clipped at [c1] changes nothing when [c1 <= c2], and gives
    what clipping the original at [c2] gives when [c2 < c1].  This holds for
    [feature_clipping] of the three classes and every type of tensor, the
    rounding of the bounds keeping their order. *)
Theorem clipping_twice_is_clipping_at_the_smaller :
  forall (dt : dtype) (c1 c2 : float) (X Y Z : tensor),
    clip_results dt c1 X Y -> clip_results dt c2 Y Z ->
    fle (Fin 0) c1 = true -> fle (Fin 0) c2 = true ->
    (fle c1 c2 = true -> Z = Y) /\
    (flt c2 c1 = true -> clip_results dt c2 X Z).
Proof.
  intros dt c1 c2 X Y Z HY HZ H1 H2.
  pose proof (rounding_keeps_order dt) as Hmon.
  pose proof (rounding_is_single_valued dt) as Hone.
  destruct (@clip_results_bounds dt c1 X Y HY)
    as (lo1 & hi1 & Hlo1 & Hhi1 & ->).
  destruct (@clip_results_bounds dt c2 _ Z HZ)
    as (lo2 & hi2 & Hlo2 & Hhi2 & ->).
  pose proof (@cast_bounds_ordered dt c1 lo1 hi1 Hmon H1 Hlo1 Hhi1) as Ho1.
  pose proof (@cast_bounds_ordered dt c2 lo2 hi2 Hmon H2 Hlo2 Hhi2) as Ho2.
  rewrite (@clamp_between_tensor lo1 hi1 X Ho1).
  rewrite (@clamp_between_tensor lo2 hi2 _ Ho2).
  rewrite map_map_compose. split; intros H.
  - apply map_map_ext. intros x.
    apply (proj1 (@clamp_between_twice lo1 hi1 lo2 hi2 x Ho1 Ho2)).
    + exact (@cast_le dt (fneg c2) (fneg c1) lo2 lo1 Hmon
               (@fle_fneg c1 c2 H) Hlo2 Hlo1).
    + exact (@cast_le dt c1 c2 hi1 hi2 Hmon H Hhi1 Hhi2).
  - apply clip_results_iff.
    rewrite (@torch_clamp_ok dt X (fneg c2) c2 lo2 hi2 Hlo2 Hhi2).
    rewrite (@clamp_between_tensor lo2 hi2 X Ho2). f_equal.
    symmetry. apply map_map_ext. intros x.
    apply (proj2 (@clamp_between_twice lo1 hi1 lo2 hi2 x Ho1 Ho2)).
    + exact (@cast_lt dt (fneg c1) (fneg c2) lo1 lo2 Hmon Hone
               (@flt_fneg c2 c1 H) Hlo1 Hlo2).
    + exact (@cast_lt dt c2 c1 hi2 hi1 Hmon Hone H Hhi2 Hhi1).
Qed.

Lemma clipping_twice_is_clipping_at_the_smaller_witness :
  let X := [[Fin (-5 # 1)%Q; Fin (1 # 16)%Q; NaN]; [PosInf; Fin (3 # 1)%Q]] in
  let Y := [[Fin (-2 # 1)%Q; Fin (1 # 16)%Q; NaN];
            [Fin (2 # 1)%Q; Fin (2 # 1)%Q]] in
  let lo := Fin (-9395241 # 134217728)%Q in
  let hi := Fin (9395241 # 134217728)%Q in
  let Z := [[lo; Fin (1 # 16)%Q; NaN]; [hi; hi]] in
  clip_results float32 (Fin (2 # 1)%Q) X Y /\
  clip_results float32 (Fin (7 # 100)%Q) Y Z /\
  clip_results float32 (Fin (7 # 100)%Q) X Z.
Proof.
  intros X Y lo hi Z.
  assert (HY : clip_results float32 (Fin (2 # 1)%Q) X Y)
    by (intros cv b; vm_compute; repeat split).
  assert (HZ : clip_results float32 (Fin (7 # 100)%Q) Y Z)
    by (intros cv b; vm_compute; repeat split).
  split; [exact HY|]. split; [exact HZ|].
  destruct (@clipping_twice_is_clipping_at_the_smaller float32
              (Fin (2 # 1)%Q) (Fin (7 # 100)%Q) X Y Z
              HY HZ eq_refl eq_refl)
    as [_ H].
  exact (H eq_refl).
Defined.

(** X15.  Clipping with a threshold that is not negative keeps the order of
    the entries: of two entries with [x <= y] the clipped values satisfy
    [x' <= y'] (they may become equal, they are never swapped). *)
Theorem clipping_keeps_order :
  forall (dt : dtype) (c x y x' y' : float),
    clip_results dt c [[x; y]] [[x'; y']] ->
    fle (Fin 0) c = true ->
    fle x y = true ->
    fle x' y' = true.
Proof.
  intros dt c x y x' y' H Hc Hxy.
  destruct (@clip_results_bounds dt c _ _ H) as (lo & hi & Hlo & Hhi & HY).
  injection HY as -> ->.
  apply cast_is_nan in Hlo, Hhi. rewrite is_nan_fneg in Hlo.
  destruct (fle_not_nan _ _ Hc) as [_ Hnan]. rewrite Hnan in Hlo, Hhi.
  apply clamp_elt_monotone; assumption.
Qed.

Lemma clipping_keeps_order_witness :
  clip_results float32 (Fin (7 # 100)%Q) [[Fin (-5 # 1)%Q; Fin (1 # 16)%Q]]
               [[Fin (-9395241 # 134217728)%Q; Fin (1 # 16)%Q]] /\
  fle (Fin (-9395241 # 134217728)%Q) (Fin (1 # 16)%Q) = true.
Proof.
  assert (H : clip_results float32 (Fin (7 # 100)%Q)
                [[Fin (-5 # 1)%Q; Fin (1 # 16)%Q]]
                [[Fin (-9395241 # 134217728)%Q; Fin (1 # 16)%Q]])
    by (intros cv b; vm_compute; repeat split).
  split; [exact H|].
  exact (@clipping_keeps_order float32 (Fin (7 # 100)%Q) _ _ _ _
           H eq_refl eq_refl).
Defined.

(** X16.  The clamp is symmetric: with a threshold that is not negative,
    clipping the negated tensor gives the negation of the clipped tensor,
    for every type of tensor: the rounding of the bounds commutes with the
    change of sign. *)
Theorem clipping_commutes_with_negation :
  forall (dt : dtype) (c : float) (X Y : tensor),
    clip_results dt c X Y ->
    fle (Fin 0) c = true ->
    clip_results dt c (map (map fneg) X) (map (map fneg) Y).
Proof.
  intros dt c X Y H Hc.
  pose proof (rounding_keeps_order dt) as Hmon.
  pose proof (rounding_is_symmetric dt) as Hsym.
  destruct (@clip_results_bounds dt c X Y H) as (lo & hi & Hlo & Hhi & ->).
  pose proof (@cast_bounds_ordered dt c lo hi Hmon Hc Hlo Hhi) as Ho.
  pose proof (@cast_fneg dt c lo hi Hsym Hlo Hhi) as ->.
  pose proof (@fle_neg_self_inv hi Ho) as Hh.
  apply clip_results_iff.
  rewrite (@torch_clamp_ok dt _ (fneg c) c (fneg hi) hi Hlo Hhi). f_equal.
  rewrite !(@clamp_spec_tensor hi _ Hh), !map_map_compose.
  apply map_map_ext. intros x. apply clamp_spec_odd. exact Hh.
Qed.

Lemma clipping_commutes_with_negation_witness :
  clip_results float32 (Fin (7 # 100)%Q)
    (map (map fneg) [[Fin (-5 # 1)%Q; Fin (1 # 16)%Q; NaN]])
    (map (map fneg)
       [[Fin (-9395241 # 134217728)%Q; Fin (1 # 16)%Q; NaN]]).
Proof.
  apply (@clipping_commutes_with_negation float32 (Fin (7 # 100)%Q));
    [|reflexivity].
  intros cv b. vm_compute. repeat split.
Defined.

(** X17.  At the first candidate of the scan, the threshold 0, clipping
    leaves nothing of the values: every entry of the result is zero or NaN,
    for every type of tensor. *)
Theorem clipping_at_zero_flattens :
  forall (dt : dtype) (X Y : tensor),
    clip_results dt (div100 0) X Y ->
    Forall (Forall (fun y => is_nan y = true \/ feq y (Fin 0) = true)) Y.
Proof.
  intros dt X Y H. pose proof (rounding_keeps_zero dt) as Hzero.
  destruct (@clip_results_bounds dt (div100 0) X Y H)
    as (lo & hi & Hlo & Hhi & ->).
  apply cast_Fin in Hlo, Hhi. subst lo hi.
  unfold clamp. apply Forall_map_all. intros row.
  apply Forall_map_all. intros x.
  apply clamp_elt_zero; apply Hzero; reflexivity.
Qed.

Lemma clipping_at_zero_flattens_witness :
  let Y := [[Fin 0; Fin 0; NaN; Fin (0 # 7)%Q]] in
  clip_results float32 (div100 0)
    [[Fin (-5 # 1)%Q; PosInf; NaN; Fin (0 # 7)%Q]] Y /\
  Forall (Forall (fun y => is_nan y = true \/ feq y (Fin 0) = true)) Y.
Proof.
  intros Y.
  assert (H : clip_results float32 (div100 0)
                [[Fin (-5 # 1)%Q; PosInf; NaN; Fin (0 # 7)%Q]] Y)
    by (intros cv b; vm_compute; repeat split).
  split; [exact H|].
  exact (@clipping_at_zero_flattens float32 _ Y H).
Defined.

(** * Candidates beyond the range of the data *)

(** an entry of the type that lies in [-p/100, p/100] lies between the
    bounds of every later step *)
Lemma clamp_elt_within (dt : dtype) (p q : nat) (x : float) :
  monotone_rounding dt -> representable dt x -> within (div100 p) x ->
  p <= q ->
  clamp_elt (fst (bounds_at dt q)) (snd (bounds_at dt q)) x = x.
Proof.
  intros Hmon Hrep [Hnan | [Hlo Hhi]] Hpq.
  - destruct x; try discriminate. reflexivity.
  - destruct x as [| |v|]; try discriminate.
    unfold div100 in Hlo, Hhi. simpl fneg in Hlo.
    apply fle_Fin in Hlo, Hhi. simpl in Hrep.
    assert (Hq : (Z.of_nat p # 100 <= Z.of_nat q # 100)%Q)
      by (unfold Qle; simpl; lia).
    assert (H1 : (nearest dt (- (Z.of_nat q # 100)) <= v)%Q).
    { rewrite <- Hrep. apply Hmon. lra. }
    assert (H2 : (v <= nearest dt (Z.of_nat q # 100))%Q).
    { rewrite <- Hrep at 1. apply Hmon. lra. }
    unfold bounds_at, clamp_elt. cbn [fst snd is_nan orb].
    apply flt_Fin_false in H1. rewrite H1.
    apply flt_Fin_false in H2. rewrite H2. reflexivity.
Qed.

Lemma clamp_within (dt : dtype) (t : tensor) (p q : nat) :
  monotone_rounding dt ->
  Forall (Forall (representable dt)) t ->
  Forall (Forall (within (div100 p))) t -> p <= q ->
  clamp t (fst (bounds_at dt q)) (snd (bounds_at dt q)) = t.
Proof.
  intros Hmon Hrep Ht Hpq. unfold clamp.
  induction t as [|row t IH]; [reflexivity|].
  inversion Hrep as [|? ? Hr Hrep']. inversion Ht as [|? ? Hw Ht']. subst.
  cbn [map]. rewrite (IH Hrep' Ht'). f_equal.
  clear IH Hrep Ht Hrep' Ht'.
  induction row as [|x row IH]; [reflexivity|].
  inversion Hr as [|? ? Hx Hr']. inversion Hw as [|? ? Hwx Hw']. subst.
  cbn [map]. rewrite (IH Hr' Hw').
  rewrite (@clamp_elt_within dt p q x Hmon Hx Hwx Hpq). reflexivity.
Qed.

Lemma step_metrics_plateau
      (dt : dtype) (classifier : tensor -> result tensor)
      (nll_criterion ece_criterion accuracy : tensor -> labels -> result float)
      (t : tensor) (labels_val : labels) (p q : nat) :
  monotone_rounding dt ->
  Forall (Forall (representable dt)) t ->
  Forall (Forall (within (div100 p))) t -> p <= q -> q <= 4000 ->
  step_metrics dt classifier nll_criterion ece_criterion accuracy
    t labels_val q =
  step_metrics dt classifier nll_criterion ece_criterion accuracy
    t labels_val p.
Proof.
  intros Hmon Hrep Ht Hpq Hq. unfold step_metrics.
  rewrite (@torch_clamp_div100 dt t q Hq).
  rewrite (@torch_clamp_div100 dt t p (Nat.le_trans _ _ _ Hpq Hq)).
  rewrite (@clamp_within dt t p q Hmon Hrep Ht Hpq).
  rewrite (@clamp_within dt t p p Hmon Hrep Ht (Nat.le_refl p)).
  reflexivity.
Qed.

Lemma first_min_before_plateau (v : nat -> float) (n p q : nat) :
  (forall k, p <= k -> k < n -> v k = v p) ->
  first_min v n q -> q <= p.
Proof.
  intros Hflat (Hq & Hnan & _ & Hf).
  destruct (Nat.le_gt_cases q p) as [Hle | Hgt]; [exact Hle | exfalso].
  specialize (Hf p Hgt).
  rewrite <- (Hflat q (Nat.lt_le_incl _ _ Hgt) Hq) in Hf.
  rewrite (fle_refl _ Hnan) in Hf. discriminate.
Qed.

Section Plateau.
Variable body : nat -> locals -> M calibrator locals.
Variable sm : nat -> result (float * float * float).
Hypothesis Hbody : body_follows body sm.
Variables nv ev av : nat -> float.
Variables n p : nat.
Hypothesis Hm : metrics_are sm nv ev av n.
Hypothesis Hflat : forall k, p <= k -> k < n -> sm k = sm p.
Hypothesis Hp : p < n.

Lemma plateau_values (k : nat) :
  p <= k -> k < n -> nv k = nv p /\ ev k = ev p.
Proof.
  intros Hpk Hk. pose proof (Hflat Hpk Hk) as H.
  rewrite (Hm Hk), (Hm Hp) in H. injection H as H1 H2 _.
  split; assumption.
Qed.

Lemma search_stops_before_plateau (self : calibrator) :
  (cross_validate self = "ece"%string ->
   (exists q, q < n /\ flt (ev q) inf = true) ->
   exists q, q <= p /\
     search n body self = (Ok tt, Calibrator "ece" (div100 q) (Some NegInf)))
  /\
  (cross_validate self = "nll"%string ->
   (exists q, q < n /\ flt (nv q) inf = true) ->
   exists q, q <= p /\
     search n body self = (Ok tt, Calibrator "nll" (div100 q) (Some NegInf))).
Proof.
  split; intros Hcv Hex.
  - destruct (search_selects_ece Hbody Hm Hex self Hcv) as (q & Hq & Hrun).
    exists q. split; [|exact Hrun].
    apply (first_min_before_plateau (v := ev) (n := n)); [|exact Hq].
    intros k Hpk Hk. apply (plateau_values Hpk Hk).
  - destruct (search_selects_nll Hbody Hm Hex self Hcv) as (q & Hq & Hrun).
    exists q. split; [|exact Hrun].
    apply (first_min_before_plateau (v := nv) (n := n)); [|exact Hq].
    intros k Hpk Hk. apply (plateau_values Hpk Hk).
Qed.
End Plateau.

(** X18.  The search never selects a threshold beyond the range of the
    data.  When every entry of the clipped tensor (the features in
    [FeatureClippingCalibrator], the logits in [FeatureClippingCalibrator2])
    is a value of the type of the tensor and is NaN or lies in
    [-p/100, p/100], clipping changes nothing
    from step [p] on, the metrics repeat, and under 'ece' or 'nll', when
    some value of the selecting metric is below +inf, [set_feature_clip]
    returns with a threshold [q/100] such that [q <= p]. *)
Theorem threshold_stays_within_data_range :
  (forall (dt : dtype) (classifier : tensor -> result tensor)
          (nll_criterion ece_criterion accuracy
           : tensor -> labels -> result float)
          (features_val logits_val : tensor) (labels_val : labels)
          (nv ev av : nat -> float) (p : nat) (self : calibrator),
      p < 2000 ->
      Forall (Forall (representable dt)) features_val ->
      Forall (Forall (within (div100 p))) features_val ->
      metrics_are (step_metrics dt classifier nll_criterion ece_criterion
                     accuracy features_val labels_val) nv ev av 2000 ->
      let run := FeatureClippingCalibrator.set_feature_clip dt classifier
                   nll_criterion ece_criterion accuracy
                   features_val logits_val labels_val in
      (cross_validate self = "ece"%string ->
       (exists q, q < 2000 /\ flt (ev q) inf = true) ->
       exists q, q <= p /\
         run self = (Ok tt, Calibrator "ece" (div100 q) (Some NegInf))) /\
      (cross_validate self = "nll"%string ->
       (exists q, q < 2000 /\ flt (nv q) inf = true) ->
       exists q, q <= p /\
         run self = (Ok tt, Calibrator "nll" (div100 q) (Some NegInf)))) /\
  (forall (dt : dtype) (nll_criterion ece_criterion accuracy
           : tensor -> labels -> result float)
          (features_val logits_val : tensor) (labels_val : labels)
          (nv ev av : nat -> float) (p : nat) (self : calibrator),
      p < 4000 ->
      Forall (Forall (representable dt)) logits_val ->
      Forall (Forall (within (div100 p))) logits_val ->
      metrics_are (step_metrics dt FeatureClippingCalibrator2.classifier
                     nll_criterion ece_criterion accuracy
                     logits_val labels_val) nv ev av 4000 ->
      let run := FeatureClippingCalibrator2.set_feature_clip
                   dt nll_criterion ece_criterion accuracy
                   features_val logits_val labels_val in
      (cross_validate self = "ece"%string ->
       (exists q, q < 4000 /\ flt (ev q) inf = true) ->
       exists q, q <= p /\
         run self = (Ok tt, Calibrator "ece" (div100 q) (Some NegInf))) /\
      (cross_validate self = "nll"%string ->
       (exists q, q < 4000 /\ flt (nv q) inf = true) ->
       exists q, q <= p /\
         run self = (Ok tt, Calibrator "nll" (div100 q) (Some NegInf)))).
Proof.
  split.
  - intros dt classifier nll_criterion ece_criterion accuracy features_val
           logits_val labels_val nv ev av p self Hp Hrep Hin Hm run.
    pose proof (rounding_keeps_order dt) as Hmon.
    subst run. rewrite calibrator_is_search.
    apply (search_stops_before_plateau
             (calibrator_body_follows dt classifier nll_criterion
                ece_criterion accuracy features_val labels_val)
             Hm (p := p)); [|exact Hp].
    intros k Hpk Hk. apply step_metrics_plateau; try assumption. lia.
  - intros dt nll_criterion ece_criterion accuracy features_val
           logits_val labels_val nv ev av p self Hp Hrep Hin Hm run.
    pose proof (rounding_keeps_order dt) as Hmon.
    subst run. rewrite calibrator2_is_search.
    apply (search_stops_before_plateau
             (calibrator2_body_follows dt nll_criterion ece_criterion
                accuracy logits_val labels_val) Hm (p := p)); [|exact Hp].
    intros k Hpk Hk. apply step_metrics_plateau; try assumption. lia.
Qed.

Lemma threshold_stays_within_data_range_witness :
  exists q, q <= 500 /\
    FeatureClippingCalibrator.set_feature_clip float32 head_id
      (const_metric (Fin 1)) entry_metric (const_metric (Fin 1))
      [[Fin 5]] [[Fin 5]] [0] (FeatureClippingCalibrator.__init__ "ece") =
    (Ok tt, Calibrator "ece" (div100 q) (Some NegInf)).
Proof.
  destruct threshold_stays_within_data_range as [Hcal _].
  destruct (Hcal float32 head_id (const_metric (Fin 1)) entry_metric
                 (const_metric (Fin 1)) [[Fin 5]] [[Fin 5]] [0]
                 (fun _ => Fin 1)
                 (fun q => dist3 (clamp_elt (fst (bounds_at float32 q))
                                            (snd (bounds_at float32 q))
                                            (Fin 5)))
                 (fun _ => Fin 1) 500
                 (FeatureClippingCalibrator.__init__ "ece"))
    as [Hece _].
  - lia.
  - apply Forall_cons; [|apply Forall_nil].
    apply Forall_cons; [|apply Forall_nil].
    vm_compute. reflexivity.
  - apply Forall_cons; [|apply Forall_nil].
    apply Forall_cons; [|apply Forall_nil].
    right. split; reflexivity.
  - intros q Hq. unfold step_metrics.
    rewrite (@torch_clamp_div100 float32 [[Fin 5]] q) by lia.
    reflexivity.
  - apply Hece; [reflexivity|].
    exists 0. split; [lia | vm_compute; reflexivity].
Defined.

(** * The two calibrators compared *)

Lemma first_min_restrict (v : nat -> float) (n m q : nat) :
  m <= n -> q < m -> first_min v n q -> first_min v m q.
Proof.
  intros Hmn Hq (_ & Hnan & Hmin & Hf).
  repeat split; [exact Hq | exact Hnan | | exact Hf].
  intros k Hk. apply Hmin. lia.
Qed.

Lemma best_restrict (v : nat -> float) (n m q : nat) :
  m <= n -> q < m ->
  snd (best v n) = div100 q -> snd (best v m) = div100 q.
Proof.
  intros Hmn Hq Hb.
  destruct (best_spec v n) as [_ [Hinit | (q' & Hq' & Hbq & Hinf)]].
  - rewrite Hinit in Hb. discriminate.
  - rewrite Hbq in Hb. apply div100_inj in Hb. subst q'.
    destruct (@best_first_min v m) as (q'' & Hq'' & Hbm).
    + exists q. split; [exact Hq | exact Hinf].
    + rewrite Hbm. simpl. f_equal.
      exact (first_min_unique Hq'' (first_min_restrict Hmn Hq Hq')).
Qed.

Lemma search_agrees_on_prefix
      (body2 body : nat -> locals -> M calibrator locals)
      (sm : nat -> result (float * float * float))
      (nv ev av : nat -> float) (n m q : nat) (self : calibrator) :
  body_follows body2 sm -> body_follows body sm ->
  metrics_are sm nv ev av n -> m <= n -> q < m ->
  cross_validate self = "ece"%string \/
  cross_validate self = "nll"%string ->
  search n body2 self =
  (Ok tt, Calibrator (cross_validate self) (div100 q) (Some NegInf)) ->
  search m body self =
  (Ok tt, Calibrator (cross_validate self) (div100 q) (Some NegInf)).
Proof.
  intros Hbody2 Hbody Hm Hle Hq Hcv Hrun.
  assert (Hm' : metrics_are sm nv ev av m)
    by (intros k Hk; apply Hm; lia).
  destruct Hcv as [Hcv | Hcv]; rewrite Hcv in Hrun |- *.
  - rewrite (search_result_ece Hbody2 Hm _ Hcv) in Hrun.
    rewrite (search_result_ece Hbody Hm' _ Hcv).
    apply (f_equal (fun r => feature_clip (snd r))) in Hrun.
    cbn [snd feature_clip] in Hrun.
    rewrite (best_restrict ev Hle Hq Hrun). reflexivity.
  - rewrite (search_result_nll Hbody2 Hm _ Hcv) in Hrun.
    rewrite (search_result_nll Hbody Hm' _ Hcv).
    apply (f_equal (fun r => feature_clip (snd r))) in Hrun.
    cbn [snd feature_clip] in Hrun.
    rewrite (best_restrict nv Hle Hq Hrun). reflexivity.
Qed.

(** X19.  [FeatureClippingCalibrator2] scans the candidates of
    [FeatureClippingCalibrator] and 2000 more: when its fit on the logits
    returns with a threshold below 20.00, the fit of
    [FeatureClippingCalibrator] with an identity head on the same tensor,
    labels and criteria returns with the same fields. *)
Theorem longer_scan_agrees_below_twenty :
  forall (dt : dtype) (nll_criterion ece_criterion accuracy
          : tensor -> labels -> result float)
         (features_val logits_val other : tensor) (labels_val : labels)
         (nv ev av : nat -> float) (q : nat) (self : calibrator),
    metrics_are (step_metrics dt FeatureClippingCalibrator2.classifier
                   nll_criterion ece_criterion accuracy
                   logits_val labels_val) nv ev av 4000 ->
    cross_validate self = "ece"%string \/
    cross_validate self = "nll"%string ->
    q < 2000 ->
    FeatureClippingCalibrator2.set_feature_clip dt nll_criterion
      ece_criterion accuracy features_val logits_val labels_val self =
    (Ok tt, Calibrator (cross_validate self) (div100 q) (Some NegInf)) ->
    FeatureClippingCalibrator.set_feature_clip
      dt FeatureClippingCalibrator2.classifier nll_criterion
      ece_criterion accuracy logits_val other labels_val self =
    (Ok tt, Calibrator (cross_validate self) (div100 q) (Some NegInf)).
Proof.
  intros dt nll_criterion ece_criterion accuracy features_val logits_val other
         labels_val nv ev av q self Hm Hcv Hq Hrun.
  rewrite (calibrator2_is_search dt nll_criterion ece_criterion accuracy
             features_val logits_val labels_val) in Hrun.
  rewrite (calibrator_is_search dt FeatureClippingCalibrator2.classifier
             nll_criterion ece_criterion accuracy
             logits_val other labels_val).
  assert (Hle : 2000 <= 4000) by (apply Nat.leb_le; reflexivity).
  exact (@search_agrees_on_prefix _ _ _ nv ev av 4000 2000 q self
           (calibrator2_body_follows dt nll_criterion ece_criterion
              accuracy logits_val labels_val)
           (calibrator_body_follows dt FeatureClippingCalibrator2.classifier
              nll_criterion ece_criterion accuracy logits_val labels_val)
           Hm Hle Hq Hcv Hrun).
Qed.

Lemma longer_scan_agrees_below_twenty_witness :
  FeatureClippingCalibrator.set_feature_clip
    float64 FeatureClippingCalibrator2.classifier (const_metric (Fin 1))
    entry_metric (const_metric (Fin 1)) [[Fin 5]] [] [0]
    (FeatureClippingCalibrator.__init__ "ece") =
  (Ok tt, Calibrator "ece" (div100 300) (Some NegInf)).
Proof.
  apply (@longer_scan_agrees_below_twenty float64
           (const_metric (Fin 1)) entry_metric (const_metric (Fin 1))
           [] [[Fin 5]] [] [0]
           (fun _ => Fin 1) entry_at (fun _ => Fin 1) 300
           (FeatureClippingCalibrator.__init__ "ece")).
  - float64_steps.
  - left. reflexivity.
  - lia.
  - vm_compute. reflexivity.
Defined.
